(** * AIMLAB-VR-DataStreamer: a shallow embedding and its properties

    The development follows the layout of the repository:

    - [Types], [DataPacket]: the value types of [Types.h] and the binary /
      JSON codec of [src/DataPacket.cpp];
    - [Streamer]: [VRDataStreamer::startStreaming], [sendFrame] and
      [streamingThreadFunc] of [src/VRDataStreamer.cpp];
    - [ChatNode]: the discovery step and [performHandshake] of
      [minimal_test/udp_chat_node2.cpp];
    - [Network], [NetworkQueues]: the peer registry, the message queues and
      the workers of [aimlab_network_cpp.cpp] ([NetworkManager]);
    - [CommandChannel], [Recorder]: [processCommand], [writeData],
      [dataReceiveThread] and [tryBindDiscoveryPort] of the C-Sharp-Package
      streamer;
    - [Config]: [Config::validate] of [src/Config.cpp].

    Part I holds the models, Part II the properties.

    Conventions.  A fixed-width unsigned integer is a [Z] together with its
    range; wrap-around is written out with [mod].  A [float] is represented
    by its IEEE-754 bit pattern (the codec only ever [memcpy]s it).  A byte
    buffer is a [list Z] of values below 256.  Clock readings are integer
    tick counts (nanoseconds). *)

From Stdlib Require Import ZArith List String Ascii Lia Bool DecimalString.
From stdpp Require Import gmap strings list sorting.

Local Open Scope Z_scope.

(* ===================================================================== *)
(** * Part I: the models                                                  *)
(* ===================================================================== *)

(** ** Machine integers and strings *)

Definition is_uint8 (x : Z) : Prop := 0 <= x < 2 ^ 8.
Definition is_uint32 (x : Z) : Prop := 0 <= x < 2 ^ 32.
Definition is_uint64 (x : Z) : Prop := 0 <= x < 2 ^ 64.

(** [static_cast<uintN_t>] of an integer value. *)
Definition uint8_t (x : Z) : Z := x mod 2 ^ 8.
Definition uint32_t (x : Z) : Z := x mod 2 ^ 32.
Definition uint64_t (x : Z) : Z := x mod 2 ^ 64.

(** [std::to_string] / [operator<<] of an integer: decimal digits, with a
    leading minus sign for negative values. *)
Definition to_string (x : Z) : string := NilZero.string_of_int (Z.to_int x).

(** The double-quote character, as a one-character string. *)
Definition dquote : string := String (ascii_of_nat 34) EmptyString.

(** The bytes of a [std::string]. *)
Definition bytes_of_string (s : string) : list Z :=
  map (fun c => Z.of_nat (nat_of_ascii c)) (list_ascii_of_string s).

(** ** Types.h *)

Module Types.

(** A [float], kept as the 32 bits [memcpy] sees. *)
Definition float := Z.

Definition float_0_0 : float := 0.
Definition float_1_0 : float := 0x3F800000.

Module Vector3.
Record t := mk { x : float; y : float; z : float }.
Definition default : t := mk float_0_0 float_0_0 float_0_0.
End Vector3.

Module Quaternion.
Record t := mk { w : float; x : float; y : float; z : float }.
Definition default : t := mk float_1_0 float_0_0 float_0_0 float_0_0.
End Quaternion.

Record Pose := mkPose {
  position : Vector3.t;
  rotation : Quaternion.t;
  timestamp : Z  (* uint64_t, microseconds since epoch *)
}.

(** [enum class DeviceType] and [enum class TrackingState]: a field of
    enumeration type holds the underlying integer, because the decoder
    [static_cast]s an arbitrary byte into it. *)
Definition DeviceType := Z.
Definition DeviceType_Unknown : DeviceType := 0.
Definition DeviceType_HeadMountedDisplay : DeviceType := 1.
Definition DeviceType_LeftController : DeviceType := 2.
Definition DeviceType_RightController : DeviceType := 3.
Definition DeviceType_Tracker : DeviceType := 4.
Definition DeviceType_BaseStation : DeviceType := 5.

Definition TrackingState := Z.
Definition TrackingState_NotTracked : TrackingState := 0.
Definition TrackingState_Tracked : TrackingState := 1.
Definition TrackingState_TrackingLost : TrackingState := 2.

Record ButtonState := mkButtonState {
  trigger : bool;
  grip : bool;
  menu : bool;
  touchpad : bool;
  thumbstick : bool;
  triggerValue : float;
  gripValue : float;
  touchpadAxis : Vector3.t;
  thumbstickAxis : Vector3.t
}.

Record DeviceData := mkDeviceData {
  deviceId : Z;  (* uint32_t *)
  deviceType : DeviceType;
  trackingState : TrackingState;
  pose : Pose;
  buttons : ButtonState;
  isConnected : bool;
  deviceName : string
}.

(** Values that inhabit the C++ types: declared enumerators, integers and
    bit patterns within their width. *)
Definition DeviceType_declared (t : DeviceType) : Prop := 0 <= t <= 5.
Definition TrackingState_declared (t : TrackingState) : Prop := 0 <= t <= 2.

Definition Vector3_wf (v : Vector3.t) : Prop :=
  is_uint32 (Vector3.x v) /\ is_uint32 (Vector3.y v) /\ is_uint32 (Vector3.z v).

Definition Quaternion_wf (q : Quaternion.t) : Prop :=
  is_uint32 (Quaternion.w q) /\ is_uint32 (Quaternion.x q) /\
  is_uint32 (Quaternion.y q) /\ is_uint32 (Quaternion.z q).

Definition DeviceData_wf (d : DeviceData) : Prop :=
  is_uint32 (deviceId d) /\
  DeviceType_declared (deviceType d) /\
  TrackingState_declared (trackingState d) /\
  Vector3_wf (position (pose d)) /\
  Quaternion_wf (rotation (pose d)) /\
  is_uint64 (timestamp (pose d)) /\
  is_uint32 (triggerValue (buttons d)) /\
  is_uint32 (gripValue (buttons d)).

End Types.

(** ** DataPacket.cpp *)

Module DataPacket.
Import Types.

Inductive PacketFormat := Binary | JSON | MessagePack.

Record DataPacket := mkDataPacket {
  m_devices : list DeviceData;
  m_timestamp : Z;       (* uint64_t *)
  m_sequenceNumber : Z;  (* uint32_t *)
  m_format : PacketFormat
}.

(** [DataPacket::DataPacket(PacketFormat)] *)
Definition new (format : PacketFormat) : DataPacket :=
  mkDataPacket [] 0 0 format.

Definition addDevice (deviceData : DeviceData) (p : DataPacket) : DataPacket :=
  mkDataPacket (m_devices p ++ [deviceData]) (m_timestamp p)
               (m_sequenceNumber p) (m_format p).

Definition setTimestamp (timestamp : Z) (p : DataPacket) : DataPacket :=
  mkDataPacket (m_devices p) timestamp (m_sequenceNumber p) (m_format p).

Definition setSequenceNumber (sequenceNum : Z) (p : DataPacket) : DataPacket :=
  mkDataPacket (m_devices p) (m_timestamp p) sequenceNum (m_format p).

Definition DataPacket_wf (p : DataPacket) : Prop :=
  Forall DeviceData_wf (m_devices p) /\
  is_uint64 (m_timestamp p) /\
  is_uint32 (m_sequenceNumber p).

(** *** serializeBinary *)

Definition magic : Z := 0x41494D4C.
Definition version : Z := 1.

Definition writeUint32 (val : Z) : list Z :=
  [ Z.land (Z.shiftr val 24) 255;
    Z.land (Z.shiftr val 16) 255;
    Z.land (Z.shiftr val 8) 255;
    Z.land val 255 ].

Definition writeUint16 (val : Z) : list Z :=
  [ Z.land (Z.shiftr val 8) 255; Z.land val 255 ].

Definition writeUint64 (val : Z) : list Z :=
  map (fun i => Z.land (Z.shiftr val (i * 8)) 255) [7; 6; 5; 4; 3; 2; 1; 0].

Definition writeFloat (val : float) : list Z := writeUint32 val.

Definition writeBool (b : bool) : list Z := [ if b then 1 else 0 ].

Definition writeDevice (device : DeviceData) : list Z :=
  writeUint32 (deviceId device) ++
  [ uint8_t (deviceType device) ] ++
  [ uint8_t (trackingState device) ] ++
  writeBool (isConnected device) ++
  writeFloat (Vector3.x (position (pose device))) ++
  writeFloat (Vector3.y (position (pose device))) ++
  writeFloat (Vector3.z (position (pose device))) ++
  writeFloat (Quaternion.w (rotation (pose device))) ++
  writeFloat (Quaternion.x (rotation (pose device))) ++
  writeFloat (Quaternion.y (rotation (pose device))) ++
  writeFloat (Quaternion.z (rotation (pose device))) ++
  writeUint64 (timestamp (pose device)) ++
  writeBool (trigger (buttons device)) ++
  writeBool (grip (buttons device)) ++
  writeFloat (triggerValue (buttons device)) ++
  writeFloat (gripValue (buttons device)).

(** [static_cast<uint32_t>(m_devices.size())] *)
Definition deviceCount (p : DataPacket) : Z :=
  uint32_t (Z.of_nat (length (m_devices p))).

Definition writeHeader (p : DataPacket) : list Z :=
  writeUint32 magic ++
  writeUint16 version ++
  writeUint32 (m_sequenceNumber p) ++
  writeUint64 (m_timestamp p) ++
  writeUint32 (deviceCount p).

Definition serializeBinary (p : DataPacket) : list Z :=
  writeHeader p ++ flat_map writeDevice (m_devices p).

(** *** deserializeBinary

    A reader walks the buffer with the [offset] cursor of the source.
    [data[i]] is [data !! i]; an index at or past [data.size()] has no value,
    and the whole read then has none: the source has undefined behaviour
    there. *)

Definition Reader (A : Type) : Type := list Z -> nat -> option (A * nat).

Definition rd_ret {A} (a : A) : Reader A := fun _ offset => Some (a, offset).

Definition rd_bind {A B} (r : Reader A) (k : A -> Reader B) : Reader B :=
  fun data offset =>
    match r data offset with
    | Some (a, offset') => k a data offset'
    | None => None
    end.

Notation "x <~ r ;; k" := (rd_bind r (fun x => k))
  (at level 100, r at next level, right associativity).

(** [data[offset++]] *)
Definition readByte : Reader Z :=
  fun data offset =>
    match data !! offset with
    | Some b => Some (b, S offset)
    | None => None
    end.

Definition readUint32 : Reader Z :=
  fun data offset =>
    match data !! offset, data !! (offset + 1)%nat,
          data !! (offset + 2)%nat, data !! (offset + 3)%nat with
    | Some b0, Some b1, Some b2, Some b3 =>
        Some (Z.lor (Z.lor (Z.lor (Z.shiftl b0 24) (Z.shiftl b1 16))
                           (Z.shiftl b2 8)) b3,
              (offset + 4)%nat)
    | _, _, _, _ => None
    end.

Fixpoint readUint64_loop (i : nat) (val : Z) : Reader Z :=
  match i with
  | O => rd_ret val
  | S i' =>
      b <~ readByte ;;
      readUint64_loop i' (Z.lor (uint64_t (Z.shiftl val 8)) b)
  end.

Definition readUint64 : Reader Z := readUint64_loop 8 0.

Definition readFloat : Reader float := readUint32.

(** [data[offset++] != 0] *)
Definition readBool : Reader bool :=
  b <~ readByte ;; rd_ret (negb (b =? 0)).

(** [offset += n] *)
Definition skip (n : nat) : Reader unit :=
  fun _ offset => Some (tt, (offset + n)%nat).

(** One iteration of the device loop.  [fresh] is the local
    [DeviceData device;] before any assignment: the members the wire format
    does not carry keep whatever it holds. *)
Definition readDevice (fresh : DeviceData) : Reader DeviceData :=
  id <~ readUint32 ;;
  ty <~ readByte ;;
  st <~ readByte ;;
  conn <~ readBool ;;
  px <~ readFloat ;;
  py <~ readFloat ;;
  pz <~ readFloat ;;
  rw <~ readFloat ;;
  rx <~ readFloat ;;
  ry <~ readFloat ;;
  rz <~ readFloat ;;
  ts <~ readUint64 ;;
  trig <~ readBool ;;
  grp <~ readBool ;;
  trigv <~ readFloat ;;
  grpv <~ readFloat ;;
  rd_ret
    {| deviceId := id;
       deviceType := ty;
       trackingState := st;
       pose := {| position := Vector3.mk px py pz;
                  rotation := Quaternion.mk rw rx ry rz;
                  timestamp := ts |};
       buttons := {| trigger := trig;
                     grip := grp;
                     menu := menu (buttons fresh);
                     touchpad := touchpad (buttons fresh);
                     thumbstick := thumbstick (buttons fresh);
                     triggerValue := trigv;
                     gripValue := grpv;
                     touchpadAxis := touchpadAxis (buttons fresh);
                     thumbstickAxis := thumbstickAxis (buttons fresh) |};
       isConnected := conn;
       deviceName := deviceName fresh |}.

(** [for (i = 0; i < deviceCount && offset < data.size(); ++i)], with
    [remaining = deviceCount - i]. *)
Fixpoint readDevices (fresh : DeviceData) (remaining : nat)
    (devices : list DeviceData) : Reader (list DeviceData) :=
  fun data offset =>
    match remaining with
    | O => Some (devices, offset)
    | S remaining' =>
        if (offset <? length data)%nat then
          match readDevice fresh data offset with
          | Some (device, offset') =>
              readDevices fresh remaining' (devices ++ [device]) data offset'
          | None => None
          end
        else Some (devices, offset)
    end.

(** What a call can do: return, or index the buffer out of bounds. *)
Inductive outcome (A : Type) : Type :=
| Returned (a : A)
| OutOfBounds.
Arguments Returned {A} a.
Arguments OutOfBounds {A}.

(** The header fields and the device loop, once the magic number matched. *)
Definition readBody (fresh : DeviceData) : Reader (Z * Z * list DeviceData) :=
  _ <~ skip 2 ;;
  seq <~ readUint32 ;;
  ts <~ readUint64 ;;
  count <~ readUint32 ;;
  devices <~ readDevices fresh (Z.to_nat count) [] ;;
  rd_ret (seq, ts, devices).

Definition deserializeBinary (fresh : DeviceData) (data : list Z)
    (p : DataPacket) : outcome (bool * DataPacket) :=
  if (length data <? 22)%nat then Returned (false, p)
  else
    match readUint32 data 0%nat with
    | None => OutOfBounds
    | Some (m, offset) =>
        if negb (m =? magic) then Returned (false, p)
        else
          match readBody fresh data offset with
          | None => OutOfBounds
          | Some ((seq, ts, devices), _) =>
              Returned (true, mkDataPacket devices ts seq (m_format p))
          end
    end.

(** *** JSON *)

Section JSON.

(** [operator<<(std::ostream&, float)]: the text the stream prints for a
    float, left abstract. *)
Variable format_float : float -> string.

Definition jsonDevice (dev : DeviceData) : string :=
  "{" +:+ dquote +:+ "id" +:+ dquote +:+ ":" +:+ to_string (deviceId dev) +:+
  "," +:+ dquote +:+ "type" +:+ dquote +:+ ":" +:+ to_string (deviceType dev) +:+
  "," +:+ dquote +:+ "pos" +:+ dquote +:+ ":[" +:+
  format_float (Vector3.x (position (pose dev))) +:+ "," +:+
  format_float (Vector3.y (position (pose dev))) +:+ "," +:+
  format_float (Vector3.z (position (pose dev))) +:+ "]" +:+
  "," +:+ dquote +:+ "rot" +:+ dquote +:+ ":[" +:+
  format_float (Quaternion.w (rotation (pose dev))) +:+ "," +:+
  format_float (Quaternion.x (rotation (pose dev))) +:+ "," +:+
  format_float (Quaternion.y (rotation (pose dev))) +:+ "," +:+
  format_float (Quaternion.z (rotation (pose dev))) +:+ "]}".

(** The device loop: a comma before every device but the first. *)
Fixpoint jsonDevices (first : bool) (devices : list DeviceData) : string :=
  match devices with
  | [] => EmptyString
  | dev :: rest =>
      (if first then EmptyString else ",") +:+ jsonDevice dev +:+
      jsonDevices false rest
  end.

Definition jsonString (p : DataPacket) : string :=
  "{" +:+ dquote +:+ "seq" +:+ dquote +:+ ":" +:+ to_string (m_sequenceNumber p) +:+
  "," +:+ dquote +:+ "ts" +:+ dquote +:+ ":" +:+ to_string (m_timestamp p) +:+
  "," +:+ dquote +:+ "devices" +:+ dquote +:+ ":[" +:+
  jsonDevices true (m_devices p) +:+ "]}".

Definition serializeJSON (p : DataPacket) : list Z :=
  bytes_of_string (jsonString p).

Definition serialize (p : DataPacket) : list Z :=
  match m_format p with
  | Binary => serializeBinary p
  | JSON => serializeJSON p
  | MessagePack => serializeBinary p
  end.

End JSON.

(** [m_devices.clear(); return false;] *)
Definition deserializeJSON (data : list Z) (p : DataPacket)
    : outcome (bool * DataPacket) :=
  Returned (false, mkDataPacket [] (m_timestamp p) (m_sequenceNumber p)
                                (m_format p)).

Definition deserialize (fresh : DeviceData) (data : list Z) (p : DataPacket)
    : outcome (bool * DataPacket) :=
  match data with
  | [] => Returned (false, p)
  | _ :: _ =>
      match m_format p with
      | Binary => deserializeBinary fresh data p
      | JSON => deserializeJSON data p
      | MessagePack => deserializeBinary fresh data p
      end
  end.

(** The members of a device record that the binary layout carries. *)
Definition wire_fields (d : DeviceData) :=
  (deviceId d, deviceType d, trackingState d, isConnected d,
   position (pose d), rotation (pose d), timestamp (pose d),
   (trigger (buttons d), grip (buttons d),
    triggerValue (buttons d), gripValue (buttons d))).

End DataPacket.

(** ** VRDataStreamer.cpp *)

Module Streamer.
Import Types DataPacket.

Inductive LogLevel := Debug | Info | Warning | Error | Critical.

(** What a call does besides changing the streamer's own state, in order. *)
Inductive Event :=
| EvLog (level : LogLevel) (msg : string)
| EvSend (packet : DataPacket)              (* networkManager->send(packet) *)
| EvErrorCallback (msg : string)
| EvDataSentCallback (packet : DataPacket)
| EvThreadStart
| EvSleepFor (duration : Z)
| EvSleepUntil (deadline : Z).

(** [VRDataStreamer::Impl].  A pointer or [std::function] member is
    represented by whether it is set. *)
Record Impl := mkImpl {
  vrDevice : bool;
  networkManager : bool;
  isStreaming : bool;
  shouldStop : bool;
  errorCallback : bool;
  dataSentCallback : bool;
  lastError : string;
  totalPacketsSent : Z;  (* uint64_t *)
  startTime : Z;
  sequenceNumber : Z     (* uint32_t *)
}.

Definition set_lastError (msg : string) (s : Impl) : Impl :=
  mkImpl (vrDevice s) (networkManager s) (isStreaming s) (shouldStop s)
         (errorCallback s) (dataSentCallback s) msg (totalPacketsSent s)
         (startTime s) (sequenceNumber s).

Definition set_sequenceNumber (n : Z) (s : Impl) : Impl :=
  mkImpl (vrDevice s) (networkManager s) (isStreaming s) (shouldStop s)
         (errorCallback s) (dataSentCallback s) (lastError s)
         (totalPacketsSent s) (startTime s) n.

Definition set_totalPacketsSent (n : Z) (s : Impl) : Impl :=
  mkImpl (vrDevice s) (networkManager s) (isStreaming s) (shouldStop s)
         (errorCallback s) (dataSentCallback s) (lastError s) n (startTime s)
         (sequenceNumber s).

(** [startStreaming].  [connected] is [networkManager->isConnected()], [now]
    the clock reading. *)
Definition startStreaming (connected : bool) (now : Z) (s : Impl)
    : bool * Impl * list Event :=
  if isStreaming s then
    (false, s, [EvLog Warning "Already streaming"])
  else if negb (vrDevice s) || negb (networkManager s) then
    (false, set_lastError "System not initialized" s,
     [EvLog Error "System not initialized"])
  else if negb connected then
    (false, set_lastError "Not connected to server" s,
     [EvLog Error "Not connected to server"])
  else
    (true,
     mkImpl (vrDevice s) (networkManager s) true false
            (errorCallback s) (dataSentCallback s) (lastError s) 0 now 0,
     [EvLog Info "Starting VR data streaming"; EvThreadStart;
      EvLog Info "VR data streaming started"]).

(** [stopStreaming], up to the join. *)
Definition stopStreaming (s : Impl) : Impl :=
  if negb (isStreaming s) then s
  else mkImpl (vrDevice s) (networkManager s) false true
              (errorCallback s) (dataSentCallback s) (lastError s)
              (totalPacketsSent s) (startTime s) (sequenceNumber s).

(** What one call of [sendFrame] meets outside the streamer. *)
Record FrameEnv := mkFrameEnv {
  update_ok : bool;            (* vrDevice->update() *)
  devices : list DeviceData;   (* vrDevice->getDevices() *)
  send_ok : bool;              (* networkManager->send(packet) *)
  net_error : string           (* networkManager->getLastError() *)
}.

(** The packet [sendFrame] builds: a default (Binary) packet with the current
    sequence number, the clock reading in microseconds, and the devices in
    order. *)
Definition buildPacket (env : FrameEnv) (now : Z) (s : Impl) : DataPacket :=
  fold_left (fun packet device => addDevice device packet) (devices env)
    (setTimestamp (uint64_t (Z.quot now 1000))
       (setSequenceNumber (sequenceNumber s) (new Binary))).

Definition sendFrame (env : FrameEnv) (now : Z) (s : Impl)
    : bool * Impl * list Event :=
  if negb (vrDevice s) || negb (networkManager s) then (false, s, [])
  else if negb (update_ok env) then
    (false, set_lastError "Failed to update VR device" s,
     [EvLog Error "Failed to update VR device"])
  else
    let packet := buildPacket env now s in
    let s1 := set_sequenceNumber (uint32_t (sequenceNumber s + 1)) s in
    if negb (send_ok env) then
      let msg := "Failed to send packet: " +:+ net_error env in
      (false, set_lastError msg s1,
       [EvSend packet; EvLog Error msg] ++
       (if errorCallback s1 then [EvErrorCallback msg] else []))
    else
      (true, set_totalPacketsSent (uint64_t (totalPacketsSent s1 + 1)) s1,
       [EvSend packet] ++
       (if dataSentCallback s1 then [EvDataSentCallback packet] else [])).

(** The streaming thread.  Its state is the streamer, the deadline
    [nextFrameTime] and the clock; time passes while [sendFrame] works and
    while the thread sleeps. *)
Record Sched := mkSched {
  impl : Impl;
  nextFrameTime : Z;
  clock : Z
}.

Record TickEnv := mkTickEnv {
  stop_called : bool;  (* stopStreaming() ran since the last loop test *)
  frame : FrameEnv;
  work : Z;            (* time sendFrame takes *)
  oversleep : Z        (* how late the sleep wakes *)
}.

Definition TickEnv_wf (e : TickEnv) : Prop := 0 <= work e /\ 0 <= oversleep e.

(** [std::chrono::microseconds(1000000 / config.updateRate)], in ticks. *)
Definition frameDuration (updateRate : Z) : Z := (1000000 / updateRate) * 1000.

(** [std::chrono::milliseconds(100)], in ticks. *)
Definition retry_delay : Z := 100 * 1000000.

(** The body of the [while] loop. *)
Definition tick (updateRate : Z) (e : TickEnv) (s : Sched)
    : Sched * list Event :=
  let '(ok, st, evs) := sendFrame (frame e) (clock s) (impl s) in
  let now := clock s + work e in
  if negb ok then
    (mkSched st (nextFrameTime s) (now + retry_delay + oversleep e),
     evs ++ [EvSleepFor retry_delay])
  else
    let next := nextFrameTime s + frameDuration updateRate in
    if now <? next then
      (mkSched st next (next + oversleep e), evs ++ [EvSleepUntil next])
    else
      (mkSched st now now, evs).

(** [while (!m_pImpl->shouldStop) { ... }] over the ticks observed. *)
Fixpoint streamingLoop (updateRate : Z) (ticks : list TickEnv) (s : Sched)
    : Sched * list Event :=
  match ticks with
  | [] => (s, [])
  | e :: rest =>
      let s0 := if stop_called e
                then mkSched (stopStreaming (impl s)) (nextFrameTime s) (clock s)
                else s in
      if shouldStop (impl s0) then
        (s0, [EvLog Info "Streaming thread stopped"])
      else
        let '(s1, evs) := tick updateRate e s0 in
        let '(s2, evs') := streamingLoop updateRate rest s1 in
        (s2, evs ++ evs')
  end.

(** [streamingThreadFunc], started at clock reading [now]. *)
Definition streamingThreadFunc (updateRate : Z) (ticks : list TickEnv)
    (now : Z) (s : Impl) : Sched * list Event :=
  let '(s', evs) := streamingLoop updateRate ticks (mkSched s now now) in
  (s', EvLog Info "Streaming thread started" :: evs).

(** The packets handed to the transport, in order. *)
Fixpoint frames (evs : list Event) : list DataPacket :=
  match evs with
  | [] => []
  | EvSend packet :: rest => packet :: frames rest
  | _ :: rest => frames rest
  end.

End Streamer.

(** ** std::string and friends *)

Module Str.

(** What a call that may throw does. *)
Inductive result (A : Type) : Type :=
| Ok (a : A)
| Throws (what : string).
Arguments Ok {A} a.
Arguments Throws {A} what.

Definition bind {A B} (r : result A) (k : A -> result B) : result B :=
  match r with
  | Ok a => k a
  | Throws what => Throws what
  end.

(** [s.find(prefix) == 0] *)
Definition starts_with (prefix s : string) : bool := String.prefix prefix s.

(** [s.substr(pos)], for [pos <= s.size()]. *)
Definition substr_from (pos : nat) (s : string) : string :=
  String.substring pos (String.length s - pos) s.

(** [s.find(c)] *)
Fixpoint find_char (c : ascii) (s : string) : option nat :=
  match s with
  | EmptyString => None
  | String a rest =>
      if Ascii.eqb a c then Some O
      else match find_char c rest with
           | Some i => Some (S i)
           | None => None
           end
  end.

(** [s.find_last_of(c)] *)
Fixpoint find_last_of (c : ascii) (s : string) : option nat :=
  match s with
  | EmptyString => None
  | String a rest =>
      match find_last_of c rest with
      | Some i => Some (S i)
      | None => if Ascii.eqb a c then Some O else None
      end
  end.

(** The C string held by a buffer: the characters before the first NUL. *)
Fixpoint c_str (buffer : string) : string :=
  match buffer with
  | EmptyString => EmptyString
  | String a rest =>
      if Ascii.eqb a Ascii.zero then EmptyString else String a (c_str rest)
  end.

(** [std::getline(stream, field, delim)] on a stream holding [s]: the field
    read, and what is left of the stream ([None] once its end was hit). *)
Fixpoint getline (delim : ascii) (s : string) : string * option string :=
  match s with
  | EmptyString => (EmptyString, None)
  | String a rest =>
      if Ascii.eqb a delim then (EmptyString, Some rest)
      else let '(field, remaining) := getline delim rest in (String a field, remaining)
  end.

(** [getline] on a stream that may already be at its end; a field read
    there stays empty. *)
Definition getline_stream (delim : ascii) (stream : option string)
    : string * option string :=
  match stream with
  | Some s => getline delim s
  | None => (EmptyString, None)
  end.

(** [isspace] in the C locale. *)
Definition is_space (a : ascii) : bool :=
  let n := nat_of_ascii a in
  (n =? 32)%nat || ((9 <=? n)%nat && (n <=? 13)%nat).

Definition digit_value (a : ascii) : option Z :=
  let n := nat_of_ascii a in
  if ((48 <=? n)%nat && (n <=? 57)%nat)%bool then Some (Z.of_nat n - 48)
  else None.

Fixpoint skip_spaces (s : string) : string :=
  match s with
  | String a rest => if is_space a then skip_spaces rest else s
  | EmptyString => EmptyString
  end.

(** The value of the leading decimal digits of [s], after [acc]; [None] when
    there is no digit. *)
Fixpoint read_digits (s : string) (acc : option Z) : option Z :=
  match s with
  | EmptyString => acc
  | String a rest =>
      match digit_value a with
      | Some d =>
          read_digits rest (Some (10 * match acc with Some v => v | None => 0 end + d))
      | None => acc
      end
  end.

(** [std::stoi(s)]: optional blanks, an optional sign, decimal digits;
    anything after them is ignored.  It throws when there is no digit or
    when the value does not fit an [int]. *)
Definition stoi (s : string) : result Z :=
  let s1 := skip_spaces s in
  let '(negative, s2) :=
    match s1 with
    | String "-"%char rest => (true, rest)
    | String "+"%char rest => (false, rest)
    | _ => (false, s1)
    end in
  match read_digits s2 None with
  | None => Throws "invalid_argument"%string
  | Some v =>
      let v' := if negative then - v else v in
      if ((- 2 ^ 31 <=? v') && (v' <? 2 ^ 31))%bool then Ok v'
      else Throws "out_of_range"%string
  end.

End Str.

(** ** minimal_test/udp_chat_node2.cpp *)

Module ChatNode.
Import Str.

Definition CHAT_PORT : Z := 50003.
Definition BUFFER_SIZE : nat := 1024.
Definition NODE_ID : string := "NODE2".
Definition PEER_ID : string := "NODE1".

Definition MSG_DISCOVER : string := "DISCOVER".
Definition MSG_ACKNOWLEDGE : string := "ACK".
Definition MSG_HANDSHAKE : string := "HANDSHAKE".
Definition MSG_READY : string := "READY".

(** A datagram handed over by [recvfrom]: its bytes and its sender. *)
Record Datagram := mkDatagram {
  payload : string;
  sender_addr : string
}.

(** [recvfrom(sock, buffer, BUFFER_SIZE - 1, ...)] followed by
    [buffer[recv_len] = '\0'; std::string received(buffer);]: [None] unless
    [recv_len > 0]. *)
Definition received_text (recv : option Datagram) : option string :=
  match recv with
  | None => None
  | Some d =>
      let bytes := String.substring 0 (BUFFER_SIZE - 1) (payload d) in
      match bytes with
      | EmptyString => None
      | _ => Some (c_str bytes)
      end
  end.

Inductive Event :=
| EvSendTo (msg : string) (addr : string)
| EvSleep (ms : Z).

(** *** The discovery loop's receive step *)

Record Discovery := mkDiscovery {
  peer_discovered : bool;
  peer_address : string;
  peer_port : Z
}.

(** [msg_type], [sender_id] and [sender_port_str] of a discovery message. *)
Definition parse_discovery (received : string) : string * string * string :=
  let '(msg_type, s1) := getline ":" received in
  let '(sender_id, s2) := getline_stream ":" s1 in
  let '(sender_port_str, _) := getline_stream ":" s2 in
  (msg_type, sender_id, sender_port_str).

(** The [if (recv_len > 0) { ... }] block of [discoveryThread]. *)
Definition discovery_receive (recv : option Datagram) (st : Discovery)
    : result (Discovery * list Event) :=
  match recv, received_text recv with
  | Some d, Some received =>
      let '(msg_type, sender_id, sender_port_str) := parse_discovery received in
      if String.eqb msg_type MSG_DISCOVER && String.eqb sender_id PEER_ID then
        bind (stoi sender_port_str) (fun port =>
          Ok (mkDiscovery true (sender_addr d) port,
              [EvSendTo (MSG_ACKNOWLEDGE +:+ ":" +:+ NODE_ID +:+ ":" +:+ to_string CHAT_PORT)
                        (sender_addr d)]))
      else if String.eqb msg_type MSG_ACKNOWLEDGE && String.eqb sender_id PEER_ID then
        bind (stoi sender_port_str) (fun port =>
          Ok (mkDiscovery true (sender_addr d) port, []))
      else Ok (st, [])
  | _, _ => Ok (st, [])
  end.

(** *** performHandshake *)

Record Handshake := mkHandshake {
  attempts : Z;
  handshake_sent : bool;
  handshake_received : bool
}.

Definition handshake_msg : string := MSG_HANDSHAKE +:+ ":" +:+ NODE_ID.
Definition ready_msg : string := MSG_READY +:+ ":" +:+ NODE_ID.

(** One pass through the body of the [while] loop, with the datagram its
    [recvfrom] returns. *)
Definition handshake_step (peer : string) (recv : option Datagram)
    (h : Handshake) : Handshake * list Event :=
  let request := if handshake_sent h then [] else [EvSendTo handshake_msg peer] in
  let '(sent, received, reply) :=
    match received_text recv with
    | Some text =>
        if starts_with MSG_HANDSHAKE text then
          (handshake_sent h, true, [EvSendTo ready_msg peer])
        else if starts_with MSG_READY text then
          (true, handshake_received h, [])
        else (handshake_sent h, handshake_received h, [])
    | None => (handshake_sent h, handshake_received h, [])
    end in
  (mkHandshake (attempts h + 1) sent received,
   request ++ reply ++ [EvSleep 500]).

(** [while (attempts < 10 && (!handshake_sent || !handshake_received))].
    [inbox] lists what the successive [recvfrom] calls return; once it is
    exhausted they return nothing.  [fuel] bounds the unfolding. *)
Fixpoint handshake_loop (fuel : nat) (peer : string)
    (inbox : list (option Datagram)) (h : Handshake)
    : Handshake * list Event :=
  match fuel with
  | O => (h, [])
  | S fuel' =>
      if (attempts h <? 10) &&
         (negb (handshake_sent h) || negb (handshake_received h))
      then
        let '(h1, evs) := handshake_step peer (hd None inbox) h in
        let '(h2, evs') := handshake_loop fuel' peer (tl inbox) h1 in
        (h2, evs ++ evs')
      else (h, [])
  end.

(** [performHandshake]: the loop from a fresh state, then the verdict.  Ten
    units of fuel are enough: every pass adds one to [attempts]. *)
Definition performHandshake (peer : string) (inbox : list (option Datagram))
    : bool * Handshake * list Event :=
  let '(h, evs) := handshake_loop 10 peer inbox (mkHandshake 0 false false) in
  (handshake_sent h && handshake_received h, h, evs).

(** How [handshake_step] reads a datagram. *)
Inductive Reading := PeerRequest | PeerReady | Ignored.

Definition classify (recv : option Datagram) : Reading :=
  match received_text recv with
  | Some text =>
      if starts_with MSG_HANDSHAKE text then PeerRequest
      else if starts_with MSG_READY text then PeerReady
      else Ignored
  | None => Ignored
  end.

End ChatNode.

(** ** aimlab_network_cpp.cpp *)

Module Network.
Import Str.

(** [NetworkConfig] *)
Definition DISCOVERY_PORT : Z := 45000.
Definition DEFAULT_DATA_PORT : Z := 45001.
Definition BUFFER_SIZE : nat := 4096.
Definition HEARTBEAT_INTERVAL_MS : Z := 5000.
Definition CONNECTION_TIMEOUT_MS : Z := 15000.
Definition PROTOCOL_VERSION : string := "1.0".
Definition APP_IDENTIFIER : string := "AIMLAB_VR".

Inductive MessageType :=
| DISCOVER
| ACKNOWLEDGE
| HANDSHAKE_START
| HANDSHAKE_ACK
| HANDSHAKE_COMPLETE
| DATA
| HEARTBEAT
| DISCONNECT
| MSG_ERROR.

(** [static_cast<int>(type)] *)
Definition MessageType_to_int (t : MessageType) : Z :=
  match t with
  | DISCOVER => 0
  | ACKNOWLEDGE => 1
  | HANDSHAKE_START => 2
  | HANDSHAKE_ACK => 3
  | HANDSHAKE_COMPLETE => 4
  | DATA => 5
  | HEARTBEAT => 6
  | DISCONNECT => 7
  | MSG_ERROR => 8
  end.

(** The enumerator an integer names, if any. *)
Definition MessageType_of_int (n : Z) : option MessageType :=
  match n with
  | 0 => Some DISCOVER
  | 1 => Some ACKNOWLEDGE
  | 2 => Some HANDSHAKE_START
  | 3 => Some HANDSHAKE_ACK
  | 4 => Some HANDSHAKE_COMPLETE
  | 5 => Some DATA
  | 6 => Some HEARTBEAT
  | 7 => Some DISCONNECT
  | 8 => Some MSG_ERROR
  | _ => None
  end.

(** [class Message].  [type] holds the integer [deserialize] cast into the
    enumeration, which need not name an enumerator. *)
Record Message := mkMessage {
  type : Z;
  payload : string;
  sender_ip : string;
  sender_port : Z
}.

Definition Message_new (t : MessageType) (p ip : string) (port : Z) : Message :=
  mkMessage (MessageType_to_int t) p ip port.

(** [Message::serialize] *)
Definition serialize (msg : Message) : string :=
  to_string (type msg) +:+ "|" +:+ payload msg.

(** [Message::deserialize] *)
Definition deserialize (data : string) : result Message :=
  match find_char "|" data with
  | Some delimiter_pos =>
      bind (stoi (String.substring 0 delimiter_pos data)) (fun t =>
        Ok (mkMessage t (substr_from (S delimiter_pos) data) EmptyString 0))
  | None => Ok (Message_new DATA EmptyString EmptyString 0)
  end.

(** [class PeerInfo].  Clock readings count nanoseconds. *)
Record PeerInfo := mkPeerInfo {
  ip_address : string;
  port : Z;
  last_heartbeat : Z;
  is_connected : bool
}.

(** [PeerInfo(ip, p)], constructed at clock reading [now]. *)
Definition PeerInfo_new (ip : string) (p : Z) (now : Z) : PeerInfo :=
  mkPeerInfo ip p now false.

(** [duration_cast<milliseconds>(d).count()]: truncation toward zero. *)
Definition to_milliseconds (d : Z) : Z := Z.quot d 1000000.

(** [PeerInfo::is_timeout], at clock reading [now]. *)
Definition is_timeout (now : Z) (p : PeerInfo) : bool :=
  CONNECTION_TIMEOUT_MS <? to_milliseconds (now - last_heartbeat p).

Definition update_heartbeat (now : Z) (p : PeerInfo) : PeerInfo :=
  mkPeerInfo (ip_address p) (port p) now (is_connected p).

Definition set_connected (b : bool) (p : PeerInfo) : PeerInfo :=
  mkPeerInfo (ip_address p) (port p) (last_heartbeat p) b.

Inductive Event :=
| EvDiscoverySend (data : string) (ip : string) (port : Z)
| EvMessageHandler (msg : Message).

(** The members of [NetworkManager] the handlers touch. *)
Record Manager := mkManager {
  peers : gmap string PeerInfo;
  incoming_messages : list Message;
  outgoing_messages : list Message;
  message_handler : bool;  (* whether a handler is set *)
  local_port : Z           (* data_socket.get_local_port() *)
}.

Definition set_peers (ps : gmap string PeerInfo) (m : Manager) : Manager :=
  mkManager ps (incoming_messages m) (outgoing_messages m)
            (message_handler m) (local_port m).

Definition push_outgoing (msg : Message) (m : Manager) : Manager :=
  mkManager (peers m) (incoming_messages m) (outgoing_messages m ++ [msg])
            (message_handler m) (local_port m).

Definition push_incoming (msg : Message) (m : Manager) : Manager :=
  mkManager (peers m) (incoming_messages m ++ [msg]) (outgoing_messages m)
            (message_handler m) (local_port m).

(** [ip + ":" + std::to_string(port)] *)
Definition peer_id_of (ip : string) (port : Z) : string :=
  ip +:+ ":" +:+ to_string port.

(** The broadcast [discovery_worker] sends. *)
Definition discovery_broadcast (m : Manager) : string :=
  serialize (Message_new DISCOVER
               (APP_IDENTIFIER +:+ ":" +:+ to_string (local_port m))
               EmptyString 0).

Definition initiate_handshake (ip : string) (port : Z) (m : Manager) : Manager :=
  push_outgoing (Message_new HANDSHAKE_START PROTOCOL_VERSION ip port) m.

(** [handle_discovery_message], at clock reading [now]. *)
Definition handle_discovery_message (now : Z) (data sender : string)
    (m : Manager) : result (Manager * list Event) :=
  bind (deserialize data) (fun msg =>
    if starts_with APP_IDENTIFIER (payload msg) then
      match find_last_of ":" (payload msg) with
      | Some colon_pos =>
          bind (stoi (substr_from (S colon_pos) (payload msg))) (fun peer_port =>
            let peer_id := peer_id_of sender peer_port in
            match peers m !! peer_id with
            | Some _ => Ok (m, [])
            | None =>
                let m1 :=
                  set_peers (<[peer_id := PeerInfo_new sender peer_port now]> (peers m)) m in
                if type msg =? MessageType_to_int DISCOVER then
                  let ack :=
                    Message_new ACKNOWLEDGE
                      (APP_IDENTIFIER +:+ ":" +:+ to_string (local_port m))
                      EmptyString 0 in
                  Ok (initiate_handshake sender peer_port m1,
                      [EvDiscoverySend (serialize ack) sender DISCOVERY_PORT])
                else Ok (m1, [])
            end)
      | None => Ok (m, [])
      end
    else Ok (m, [])).

(** [mark_peer_connected] *)
Definition mark_peer_connected (now : Z) (ip : string) (port : Z)
    (m : Manager) : Manager :=
  let peer_id := peer_id_of ip port in
  match peers m !! peer_id with
  | Some p =>
      set_peers (<[peer_id := update_heartbeat now (set_connected true p)]> (peers m)) m
  | None => m
  end.

Definition handle_handshake_start (msg : Message) (m : Manager) : Manager :=
  push_outgoing
    (Message_new HANDSHAKE_ACK PROTOCOL_VERSION (sender_ip msg) (sender_port msg)) m.

Definition handle_handshake_ack (now : Z) (msg : Message) (m : Manager) : Manager :=
  mark_peer_connected now (sender_ip msg) (sender_port msg)
    (push_outgoing
       (Message_new HANDSHAKE_COMPLETE EmptyString (sender_ip msg) (sender_port msg)) m).

Definition handle_handshake_complete (now : Z) (msg : Message) (m : Manager)
    : Manager :=
  mark_peer_connected now (sender_ip msg) (sender_port msg) m.

Definition handle_disconnect (msg : Message) (m : Manager) : Manager :=
  set_peers (delete (peer_id_of (sender_ip msg) (sender_port msg)) (peers m)) m.

(** The first block of [handle_incoming_message]: a known sender's
    [last_heartbeat] is set to the clock reading. *)
Definition refresh_peer (now : Z) (msg : Message) (m : Manager) : Manager :=
  let peer_id := peer_id_of (sender_ip msg) (sender_port msg) in
  match peers m !! peer_id with
  | Some p => set_peers (<[peer_id := update_heartbeat now p]> (peers m)) m
  | None => m
  end.

(** The [switch (msg.type)] of [handle_incoming_message]. *)
Definition dispatch (now : Z) (msg : Message) (m : Manager)
    : Manager * list Event :=
  match MessageType_of_int (type msg) with
  | Some HANDSHAKE_START => (handle_handshake_start msg m, [])
  | Some HANDSHAKE_ACK => (handle_handshake_ack now msg m, [])
  | Some HANDSHAKE_COMPLETE => (handle_handshake_complete now msg m, [])
  | Some DATA =>
      (push_incoming msg m,
       if message_handler m then [EvMessageHandler msg] else [])
  | Some HEARTBEAT => (m, [])
  | Some DISCONNECT => (handle_disconnect msg m, [])
  | _ => (m, [])
  end.

Definition handle_incoming_message (now : Z) (msg : Message) (m : Manager)
    : Manager * list Event :=
  dispatch now msg (refresh_peer now msg m).

(** What [receive_worker] does with a datagram from [ip]:[port]. *)
Definition receive (now : Z) (buffer ip : string) (port : Z) (m : Manager)
    : result (Manager * list Event) :=
  bind (deserialize (c_str buffer)) (fun msg =>
    Ok (handle_incoming_message now
          (mkMessage (type msg) (payload msg) ip port) m)).

(** One pass of [heartbeat_worker] over a peer: a connected peer that timed
    out is marked disconnected, any other connected peer is sent a
    heartbeat. *)
Definition sweep_peer (now : Z) (p : PeerInfo) : PeerInfo :=
  if is_connected p && is_timeout now p then set_connected false p else p.

Definition heartbeat_for (now : Z) (p : PeerInfo) : list Message :=
  if is_connected p && negb (is_timeout now p)
  then [Message_new HEARTBEAT EmptyString (ip_address p) (port p)]
  else [].

(** The registry's entries in key order, as [std::map] iterates them. *)
Definition key_le (a b : string * PeerInfo) : Prop :=
  String.leb (fst a) (fst b) = true.

#[local] Instance key_le_dec : RelDecision key_le.
Proof. intros a b. unfold key_le. apply _. Defined.

Definition peers_in_order (ps : gmap string PeerInfo) : list (string * PeerInfo) :=
  merge_sort key_le (map_to_list ps).

(** The locked block of [heartbeat_worker], at clock reading [now]. *)
Definition heartbeat_sweep (now : Z) (m : Manager) : Manager :=
  mkManager (sweep_peer now <$> peers m)
            (incoming_messages m)
            (outgoing_messages m ++
             flat_map (fun kv => heartbeat_for now (snd kv)) (peers_in_order (peers m)))
            (message_handler m) (local_port m).

(** [get_connected_peers], as the set of their keys. *)
Definition connected (now : Z) (m : Manager) (peer_id : string) : bool :=
  match peers m !! peer_id with
  | Some p => is_connected p && negb (is_timeout now p)
  | None => false
  end.

End Network.


(** ** aimlab_network_cpp.cpp: the message queues *)

Module NetworkQueues.
Import Str Network.

(** [send_to_peer] *)
Definition send_to_peer (ip_address : string) (port : Z) (data : string)
    (m : Manager) : Manager :=
  push_outgoing (Message_new DATA data ip_address port) m.


(** [get_message]: the message handed out, if any, and the manager
    afterwards. *)
Definition get_message (m : Manager) : option Message * Manager :=
  match incoming_messages m with
  | [] => (None, m)
  | msg :: rest =>
      (Some msg,
       mkManager (peers m) rest (outgoing_messages m)
                 (message_handler m) (local_port m))
  end.

(** What [send_worker] puts on the wire for a queued message: the text,
    and the address it goes to. *)
Definition datagram_of (msg : Message) : string * string * Z :=
  (serialize msg, sender_ip msg, sender_port msg).

(** One round of [send_worker]: the queue is drained in order. *)
Definition send_worker (m : Manager) : Manager * list (string * string * Z) :=
  (mkManager (peers m) (incoming_messages m) []
             (message_handler m) (local_port m),
   map datagram_of (outgoing_messages m)).

(** [UDPSocket::receive_from] on a datagram: the buffer filled, [None]
    unless [bytes_received > 0]. *)
Definition receive_from (datagram : string) : option string :=
  match String.substring 0 (BUFFER_SIZE - 1) datagram with
  | EmptyString => None
  | buffer => Some buffer
  end.

(** One round of [receive_worker] with a datagram from [ip]:[port]. *)
Definition receive_worker (now : Z) (datagram ip : string) (port : Z)
    (m : Manager) : result (Manager * list Event) :=
  match receive_from datagram with
  | Some buffer => receive now buffer ip port m
  | None => Ok (m, [])
  end.

End NetworkQueues.
(** ** Old/minimal_test/C-Sharp-Package/aimlab_vr_datastreamer.cpp *)

Module CommandChannel.
Import Str.

Definition NODE_ID : string := "AIMLAB_CPP".
Definition DATA_DIR : string := "aimlab_data".

Definition MSG_COMMAND : string := "CMD".
Definition MSG_STATUS : string := "STATUS".

Definition CMD_OPEN_FILE : string := "OPEN_FILE".
Definition CMD_CLOSE_FILE : string := "CLOSE_FILE".
Definition CMD_STATUS : string := "GET_STATUS".
Definition CMD_SHUTDOWN : string := "SHUTDOWN".

(** An [int] with its wrap-around. *)
Definition int_t (x : Z) : Z := (x + 2 ^ 31) mod 2 ^ 32 - 2 ^ 31.

(** The globals the command handler reads and writes. *)
Record Globals := mkGlobals {
  running : bool;
  file_open : bool;
  data_count : Z;
  file_count : Z;
  current_filename : string
}.

(** What the handler meets outside the program. *)
Record Env := mkEnv {
  dir_exists : bool;     (* stat(DATA_DIR) succeeds *)
  time_stamp : string;   (* std::put_time(..., "%Y%m%d_%H%M%S") *)
  open_succeeds : bool   (* current_file.is_open() after open() *)
}.

Inductive Event :=
| EvLog (level msg : string)
| EvMkdir (dir : string)
| EvFileOpen (name : string)
| EvFileWrite (line : string)
| EvFileClose
| EvSendTo (msg : string).

Definition createDataDirectory (env : Env) : list Event :=
  if dir_exists env then []
  else [EvMkdir DATA_DIR; EvLog "INFO" ("Created data directory: " +:+ DATA_DIR)].

(** [generateFilename]: the name, and [file_count] after its [fetch_add]. *)
Definition generateFilename (env : Env) (g : Globals) : string * Z :=
  (DATA_DIR +:+ "/aimlab_session_" +:+ time_stamp env +:+ "_" +:+
   to_string (file_count g) +:+ ".csv",
   int_t (file_count g + 1)).

Definition openDataFile (env : Env) (filename : string) (g : Globals)
    : bool * Globals * list Event :=
  if file_open g then
    (false, g, [EvLog "WARNING" ("File already open: " +:+ current_filename g)])
  else
    let '(name, count) :=
      match filename with
      | EmptyString => generateFilename env g
      | _ => (DATA_DIR +:+ "/" +:+ filename, file_count g)
      end in
    if negb (open_succeeds env) then
      (false, mkGlobals (running g) false (data_count g) count name,
       createDataDirectory env ++
       [EvFileOpen name; EvLog "ERROR" ("Failed to open file: " +:+ name)])
    else
      (true, mkGlobals (running g) true 0 count name,
       createDataDirectory env ++
       [EvFileOpen name; EvFileWrite "Timestamp,Type,Data";
        EvLog "INFO" ("Opened data file: " +:+ name)]).

Definition closeDataFile (g : Globals) : Globals * list Event :=
  if negb (file_open g) then
    (g, [EvLog "WARNING" "No file is currently open"])
  else
    (mkGlobals (running g) false (data_count g) (file_count g) EmptyString,
     [EvFileClose;
      EvLog "INFO" ("Closed data file: " +:+ current_filename g +:+
                    " (wrote " +:+ to_string (data_count g) +:+ " entries)")]).

(** The text of the status report. *)
Definition status_report (g : Globals) : string :=
  MSG_STATUS +:+ ":RUNNING:" +:+
  "file_open=" +:+ (if file_open g then "true" else "false") +:+ "," +:+
  "filename=" +:+ (if file_open g then current_filename g else "none") +:+ "," +:+
  "data_count=" +:+ to_string (data_count g) +:+ "," +:+
  "files_created=" +:+ to_string (file_count g).

(** The newline character, the delimiter of the two-argument [getline]. *)
Definition newline : ascii := ascii_of_nat 10.

(** [cmd_type]: the command up to its first colon. *)
Definition cmd_type_of (command : string) : string := fst (getline ":" command).

(** [processCommand]: the reply, the globals afterwards, what was done. *)
Definition processCommand (env : Env) (command : string) (g : Globals)
    : string * Globals * list Event :=
  let '(cmd_type, stream) := getline ":" command in
  if String.eqb cmd_type CMD_OPEN_FILE then
    let '(filename, _) := getline_stream newline stream in
    let '(ok, g', evs) := openDataFile env filename g in
    if ok then (MSG_STATUS +:+ ":FILE_OPENED:" +:+ current_filename g', g', evs)
    else (MSG_STATUS +:+ ":FILE_OPEN_FAILED", g', evs)
  else if String.eqb cmd_type CMD_CLOSE_FILE then
    let '(g', evs) := closeDataFile g in
    (MSG_STATUS +:+ ":FILE_CLOSED", g', evs)
  else if String.eqb cmd_type CMD_STATUS then
    (status_report g, g, [])
  else if String.eqb cmd_type CMD_SHUTDOWN then
    let '(g', evs) := if file_open g then closeDataFile g else (g, []) in
    (MSG_STATUS +:+ ":SHUTTING_DOWN",
     mkGlobals false (file_open g') (data_count g') (file_count g')
               (current_filename g'),
     evs)
  else (MSG_STATUS +:+ ":UNKNOWN_COMMAND", g, []).

(** The [msg_type == MSG_COMMAND] branch of [dataReceiveThread]: the text
    after ["CMD:"] goes to the handler and the reply goes back to the peer.
    [received.substr(4)] throws when the datagram is just ["CMD"]. *)
Definition handle_command_envelope (env : Env) (received : string) (g : Globals)
    : result (Globals * list Event) :=
  if (String.length received <? String.length MSG_COMMAND + 1)%nat then
    Throws "out_of_range"
  else
    let command_data := substr_from (String.length MSG_COMMAND + 1) received in
    let '(response, g', evs) := processCommand env command_data g in
    Ok (g', [EvLog "COMMAND" ("Received: " +:+ command_data)] ++ evs ++
            [EvSendTo response]).

End CommandChannel.


(** ** The C-Sharp-Package streamer: recording and the discovery port *)

Module Recorder.
Import Str CommandChannel.

Definition DISCOVERY_BASE_PORT : Z := 45000.
Definition MSG_DATA : string := "DATA".
Definition MSG_KEEPALIVE : string := "KEEPALIVE".

(** [tryBindDiscoveryPort]: [bind_ok port] tells whether [bind] to [port]
    succeeds.  The port bound, or -1. *)
Definition tryBindDiscoveryPort (bind_ok : Z -> bool) : Z * list Event :=
  match find (fun port_offset => bind_ok (DISCOVERY_BASE_PORT + port_offset))
             (map Z.of_nat (seq 0 10)) with
  | Some port_offset =>
      let try_port := DISCOVERY_BASE_PORT + port_offset in
      (try_port, [EvLog "INFO" ("Bound to discovery port " +:+ to_string try_port)])
  | None => (-1, [])
  end.

(** The line [writeData] appends, [ms] being the clock reading. *)
Definition data_line (ms : Z) (type data : string) : string :=
  to_string ms +:+ "," +:+ type +:+ "," +:+ data.

(** [writeData] *)
Definition writeData (ms : Z) (type data : string) (g : Globals)
    : Globals * list Event :=
  if negb (file_open g) then
    (g, [EvLog "WARNING" "Cannot write data - no file open"])
  else
    let count := int_t (data_count g + 1) in
    (mkGlobals (running g) (file_open g) count (file_count g) (current_filename g),
     [EvFileWrite (data_line ms type data)] ++
     (if Z.rem count 100 =? 0
      then [EvLog "DATA" ("Written " +:+ to_string count +:+ " entries to " +:+
                          current_filename g)]
      else [])).

(** The globals together with the [static int console_log_count] of
    [dataReceiveThread]. *)
Record Receiver := mkReceiver {
  globals : Globals;
  console_log_count : Z
}.

(** The [msg_type == MSG_DATA] branch of [dataReceiveThread].
    [received.substr(5)] throws when the datagram is just ["DATA"]. *)
Definition handle_data_envelope (ms : Z) (received : string) (st : Receiver)
    : result (Receiver * list Event) :=
  if (String.length received <? String.length MSG_DATA + 1)%nat then
    Throws "out_of_range"
  else
    let data_content := substr_from (String.length MSG_DATA + 1) received in
    let '(data_type, stream) := getline ":" data_content in
    let '(data_value, _) := getline_stream newline stream in
    let '(g', evs) :=
      if file_open (globals st) then writeData ms data_type data_value (globals st)
      else (globals st, []) in
    let count := int_t (console_log_count st + 1) in
    Ok (mkReceiver g' count,
        evs ++
        (if Z.rem count 10 =? 0
         then [EvLog "DATA" ("Received: " +:+ data_type +:+ " = " +:+ data_value)]
         else [])).

(** The body of the loop of [dataReceiveThread] for a datagram whose text is
    [received], read at clock reading [ms]. *)
Definition dataReceive (env : Env) (ms : Z) (received : string) (st : Receiver)
    : result (Receiver * list Event) :=
  let '(msg_type, _) := getline ":" received in
  if String.eqb msg_type MSG_COMMAND then
    bind (handle_command_envelope env received (globals st)) (fun r =>
      Ok (mkReceiver (fst r) (console_log_count st), snd r))
  else if String.eqb msg_type MSG_DATA then
    handle_data_envelope ms received st
  else if String.eqb msg_type MSG_KEEPALIVE then
    Ok (st, [EvSendTo (MSG_KEEPALIVE +:+ ":" +:+ NODE_ID)])
  else Ok (st, []).

(** The loop over the datagrams that arrive, each with the clock reading at
    which it is handled. *)
Fixpoint dataReceiveThread (env : Env) (arrivals : list (Z * string))
    (st : Receiver) : result (Receiver * list Event) :=
  match arrivals with
  | [] => Ok (st, [])
  | (ms, received) :: rest =>
      if running (globals st) then
        bind (dataReceive env ms received st) (fun r =>
          bind (dataReceiveThread env rest (fst r)) (fun r' =>
            Ok (fst r', snd r ++ snd r')))
      else Ok (st, [])
  end.

End Recorder.
(** ** Config.cpp *)

Module Config.
Import Streamer.

Inductive NetworkProtocol := UDP | TCP | WebSocket.

Record StreamConfig := mkStreamConfig {
  serverAddress : string;
  serverPort : Z;     (* uint16_t *)
  protocol : NetworkProtocol;
  updateRate : Z;     (* uint32_t, Hz *)
  enableLogging : bool;
  logLevel : LogLevel;
  logFilePath : string
}.

(** [Config::resetToDefaults] *)
Definition defaults : StreamConfig :=
  mkStreamConfig "127.0.0.1" 8888 UDP 90 true Info "aimlab_vr_streamer.log".

(** [Config::validate]: the verdict and what it logs. *)
Definition validate (c : StreamConfig) : bool * list Event :=
  match serverAddress c with
  | EmptyString => (false, [EvLog Error "Server address is empty"])
  | _ =>
      if serverPort c =? 0 then
        (false, [EvLog Error "Server port is invalid"])
      else if (updateRate c =? 0) || (1000 <? updateRate c) then
        (false, [EvLog Error "Update rate must be between 1 and 1000 Hz"])
      else (true, [])
  end.

End Config.

(* ===================================================================== *)
(** * Part II: the properties                                             *)
(* ===================================================================== *)

(** ** Bytes and bits *)

Module BitFacts.

Lemma testbit_255 i : Z.testbit 255 i = (0 <=? i) && (i <? 8).
Proof. change 255 with (Z.ones 8). apply Z.testbit_ones. lia. Qed.

Lemma testbit_high w v n :
  0 <= w -> 0 <= v < 2 ^ w -> w <= n -> Z.testbit v n = false.
Proof.
  intros Hw Hv Hn. rewrite <- (Z.mod_small v (2 ^ w)) by lia.
  apply Z.mod_pow2_bits_high. lia.
Qed.

(** The byte of [v] at bit position [k], put back at position [k]. *)
Lemma testbit_byte_at v k n :
  0 <= k -> 0 <= n ->
  Z.testbit (Z.shiftl (Z.land (Z.shiftr v k) 255) k) n
  = (k <=? n) && (n <? k + 8) && Z.testbit v n.
Proof.
  intros Hk Hn. rewrite Z.shiftl_spec by lia.
  destruct (Z.leb_spec k n) as [Hle | Hlt].
  - rewrite Z.land_spec, Z.shiftr_spec, testbit_255 by lia.
    replace (n - k + k) with n by lia.
    destruct (Z.ltb_spec n (k + 8)), (Z.leb_spec 0 (n - k)),
             (Z.ltb_spec (n - k) 8); try lia; simpl;
      rewrite ?andb_true_r, ?andb_false_r; reflexivity.
  - rewrite Z.testbit_neg_r by lia. reflexivity.
Qed.

Ltac split_ranges :=
  repeat match goal with
         | |- context [Z.leb ?a ?b] => destruct (Z.leb_spec a b)
         | |- context [Z.ltb ?a ?b] => destruct (Z.ltb_spec a b)
         end;
  simpl; rewrite ?orb_false_r, ?andb_true_r, ?andb_false_r; try lia.

Lemma uint32_join v :
  is_uint32 v ->
  Z.lor (Z.lor (Z.lor (Z.shiftl (Z.land (Z.shiftr v 24) 255) 24)
                      (Z.shiftl (Z.land (Z.shiftr v 16) 255) 16))
               (Z.shiftl (Z.land (Z.shiftr v 8) 255) 8))
        (Z.land v 255) = v.
Proof.
  intros Hv. apply Z.bits_inj'. intros n Hn.
  rewrite !Z.lor_spec, !testbit_byte_at, Z.land_spec, testbit_255 by lia.
  destruct (Z.ltb_spec n 32) as [Hlt | Hge].
  - split_ranges; try reflexivity.
    all: destruct (Z.testbit v n); reflexivity.
  - rewrite (testbit_high 32 v n) by (unfold is_uint32 in Hv; lia).
    rewrite !andb_false_r. reflexivity.
Qed.

Lemma uint64_step v k :
  is_uint64 v -> 0 <= k ->
  Z.lor (uint64_t (Z.shiftl (Z.shiftr v (k + 8)) 8))
        (Z.land (Z.shiftr v k) 255) = Z.shiftr v k.
Proof.
  intros Hv Hk. apply Z.bits_inj'. intros n Hn. unfold uint64_t.
  rewrite Z.lor_spec, Z.testbit_mod_pow2, Z.shiftl_spec by lia.
  rewrite Z.land_spec, testbit_255, (Z.shiftr_spec v k n) by lia.
  destruct (Z.ltb_spec n 8) as [Hlt | Hge].
  - rewrite (Z.testbit_neg_r _ (n - 8)) by lia.
    rewrite andb_false_r. split_ranges. reflexivity.
  - rewrite Z.shiftr_spec by lia.
    replace (n - 8 + (k + 8)) with (n + k) by lia.
    destruct (Z.ltb_spec n 64) as [Hlt | Hge'].
    + split_ranges. simpl. destruct (Z.testbit v (n + k)); reflexivity.
    + rewrite (testbit_high 64 v (n + k)) by (unfold is_uint64 in Hv; lia).
      split_ranges; reflexivity.
Qed.

Lemma shiftr_64_uint64 v : is_uint64 v -> Z.shiftr v 64 = 0.
Proof.
  intros Hv. rewrite Z.shiftr_div_pow2 by lia.
  apply Z.div_small. exact Hv.
Qed.

End BitFacts.

(** ** The binary codec *)

Module DataPacketFacts.
Import Types DataPacket BitFacts.

(** [reads r bs a]: wherever the cursor stands in front of the bytes [bs],
    the reader [r] consumes exactly them and yields [a]. *)
Definition reads {A} (r : Reader A) (bs : list Z) (a : A) : Prop :=
  forall data offset rest,
    drop offset data = bs ++ rest ->
    r data offset = Some (a, (offset + length bs)%nat).

Lemma drop_advance (data : list Z) offset bs rest :
  drop offset data = bs ++ rest ->
  drop (offset + length bs) data = rest.
Proof.
  intros H. rewrite <- drop_drop, H. apply drop_app_length.
Qed.

Lemma lookup_cursor (data : list Z) offset i bs :
  drop offset data = bs -> data !! (offset + i)%nat = bs !! i.
Proof. intros <-. symmetry. apply lookup_drop. Qed.

Lemma reads_ret {A} (a : A) : reads (rd_ret a) [] a.
Proof.
  intros data offset rest _. unfold rd_ret. simpl.
  rewrite Nat.add_0_r. reflexivity.
Qed.

Lemma reads_bind {A B} (r : Reader A) (k : A -> Reader B) bs bs' a b :
  reads r bs a -> reads (k a) bs' b -> reads (rd_bind r k) (bs ++ bs') b.
Proof.
  intros Hr Hk data offset rest Hd. unfold rd_bind.
  rewrite <- app_assoc in Hd.
  rewrite (Hr _ _ _ Hd).
  rewrite (Hk _ _ _ (drop_advance _ _ _ _ Hd)).
  rewrite length_app, Nat.add_assoc. reflexivity.
Qed.

(** The last read of a chain, followed by a pure computation. *)
Lemma reads_map {A B} (r : Reader A) (f : A -> B) bs a :
  reads r bs a -> reads (rd_bind r (fun x => rd_ret (f x))) bs (f a).
Proof.
  intros Hr. rewrite <- (app_nil_r bs) at 1.
  apply reads_bind with (a := a); [exact Hr | apply reads_ret].
Qed.

Lemma reads_readByte b : reads readByte [b] b.
Proof.
  intros data offset rest Hd. unfold readByte.
  rewrite <- (Nat.add_0_r offset) at 1.
  rewrite (lookup_cursor _ _ 0%nat _ Hd). simpl.
  rewrite Nat.add_1_r. reflexivity.
Qed.

Lemma reads_readBool b : reads readBool (writeBool b) b.
Proof.
  unfold readBool, writeBool.
  replace b with (negb ((if b then 1 else 0) =? 0)) at 2
    by (destruct b; reflexivity).
  apply reads_map with (f := fun x => negb (x =? 0)), reads_readByte.
Qed.

Lemma reads_readUint32 v : is_uint32 v -> reads readUint32 (writeUint32 v) v.
Proof.
  intros Hv data offset rest Hd. unfold readUint32.
  rewrite <- (Nat.add_0_r offset) at 1.
  rewrite !(lookup_cursor _ _ _ _ Hd). simpl.
  rewrite uint32_join by exact Hv. reflexivity.
Qed.

Lemma reads_readFloat v : is_uint32 v -> reads readFloat (writeFloat v) v.
Proof. apply reads_readUint32. Qed.

Lemma reads_readUint64_loop v (i : nat) :
  is_uint64 v ->
  reads (readUint64_loop i (Z.shiftr v (8 * Z.of_nat i)))
        (map (fun j => Z.land (Z.shiftr v (j * 8)) 255)
             (map Z.of_nat (rev (seq 0 i))))
        v.
Proof.
  intros Hv. induction i as [| i IH].
  - simpl. rewrite Z.shiftr_0_r. apply reads_ret.
  - rewrite seq_S, rev_app_distr. cbn [rev app map Nat.add readUint64_loop].
    apply (reads_bind readByte _ [_] _ _ _ (reads_readByte _)).
    replace (8 * Z.of_nat (S i)) with (Z.of_nat i * 8 + 8) by lia.
    rewrite uint64_step by (try exact Hv; lia).
    replace (Z.of_nat i * 8) with (8 * Z.of_nat i) by lia.
    exact IH.
Qed.

Lemma reads_readUint64 v : is_uint64 v -> reads readUint64 (writeUint64 v) v.
Proof.
  intros Hv. unfold readUint64.
  pose proof (reads_readUint64_loop v 8 Hv) as H.
  change (8 * Z.of_nat 8) with 64 in H.
  rewrite (shiftr_64_uint64 v Hv) in H. exact H.
Qed.

Lemma reads_skip2 a b : reads (skip 2) [a; b] tt.
Proof. intros data offset rest _. reflexivity. Qed.

(** What [readDevice] builds from the bytes of [d]. *)
Definition decoded (fresh d : DeviceData) : DeviceData :=
  {| deviceId := deviceId d;
     deviceType := deviceType d;
     trackingState := trackingState d;
     pose := {| position := Vector3.mk (Vector3.x (position (pose d)))
                                       (Vector3.y (position (pose d)))
                                       (Vector3.z (position (pose d)));
                rotation := Quaternion.mk (Quaternion.w (rotation (pose d)))
                                          (Quaternion.x (rotation (pose d)))
                                          (Quaternion.y (rotation (pose d)))
                                          (Quaternion.z (rotation (pose d)));
                timestamp := timestamp (pose d) |};
     buttons := {| trigger := trigger (buttons d);
                   grip := grip (buttons d);
                   menu := menu (buttons fresh);
                   touchpad := touchpad (buttons fresh);
                   thumbstick := thumbstick (buttons fresh);
                   triggerValue := triggerValue (buttons d);
                   gripValue := gripValue (buttons d);
                   touchpadAxis := touchpadAxis (buttons fresh);
                   thumbstickAxis := thumbstickAxis (buttons fresh) |};
     isConnected := isConnected d;
     deviceName := deviceName fresh |}.

Lemma wire_fields_decoded fresh d : wire_fields (decoded fresh d) = wire_fields d.
Proof.
  destruct d as [id ty st [[px py pz] [rw rx ry rz] ts] b c nm].
  reflexivity.
Qed.

Ltac step L := eapply reads_bind; [exact L |].

Lemma reads_readDevice fresh d :
  DeviceData_wf d -> reads (readDevice fresh) (writeDevice d) (decoded fresh d).
Proof.
  intros (Hid & Hty & Hst & (Hpx & Hpy & Hpz) & (Hrw & Hrx & Hry & Hrz)
          & Hts & Htv & Hgv).
  unfold readDevice, writeDevice, decoded.
  unfold DeviceType_declared in Hty. unfold TrackingState_declared in Hst.
  replace (deviceType d) with (uint8_t (deviceType d)) at 2
    by (apply Z.mod_small; lia).
  replace (trackingState d) with (uint8_t (trackingState d)) at 2
    by (apply Z.mod_small; lia).
  step (reads_readUint32 _ Hid).
  step (reads_readByte (uint8_t (deviceType d))).
  step (reads_readByte (uint8_t (trackingState d))).
  step (reads_readBool (isConnected d)).
  step (reads_readFloat _ Hpx).
  step (reads_readFloat _ Hpy).
  step (reads_readFloat _ Hpz).
  step (reads_readFloat _ Hrw).
  step (reads_readFloat _ Hrx).
  step (reads_readFloat _ Hry).
  step (reads_readFloat _ Hrz).
  step (reads_readUint64 _ Hts).
  step (reads_readBool (trigger (buttons d))).
  step (reads_readBool (grip (buttons d))).
  step (reads_readFloat _ Htv).
  apply (reads_map readFloat
           (fun grpv => mkDeviceData _ _ _ _ (mkButtonState _ _ _ _ _ _ grpv _ _) _ _)).
  exact (reads_readFloat _ Hgv).
Qed.

Lemma cursor_in_bounds (data : list Z) offset b bs :
  drop offset data = b :: bs -> (offset < length data)%nat.
Proof.
  intros H. destruct (Nat.lt_ge_cases offset (length data)) as [Hlt | Hge].
  - exact Hlt.
  - rewrite drop_ge in H by exact Hge. discriminate.
Qed.

Lemma writeDevice_length d : length (writeDevice d) = 53%nat.
Proof. reflexivity. Qed.

Lemma writeHeader_length p : length (writeHeader p) = 22%nat.
Proof. reflexivity. Qed.

(** The device loop run in front of the bytes of [ds], with as many
    iterations allowed as there are devices, decodes all of them. *)
Lemma reads_readDevices fresh ds :
  Forall DeviceData_wf ds ->
  forall acc,
    reads (readDevices fresh (length ds) acc)
          (flat_map writeDevice ds)
          (acc ++ map (decoded fresh) ds).
Proof.
  induction 1 as [| d ds Hd Hds IH]; intros acc data offset rest Hcur.
  - simpl. rewrite app_nil_r, Nat.add_0_r. reflexivity.
  - cbn [length readDevices flat_map map] in *.
    rewrite <- app_assoc in Hcur.
    assert (Hlt : (offset <? length data)%nat = true).
    { apply Nat.ltb_lt.
      destruct (writeDevice d) as [| b bs] eqn:E; [discriminate E |].
      exact (cursor_in_bounds _ _ _ _ Hcur). }
    rewrite Hlt, (reads_readDevice fresh d Hd _ _ _ Hcur).
    rewrite (IH _ _ _ _ (drop_advance _ _ _ _ Hcur)).
    rewrite <- app_assoc, length_app, Nat.add_assoc. reflexivity.
Qed.

(** The bytes that follow the magic number. *)
Definition writeBody (seq ts count : Z) (ds : list DeviceData) : list Z :=
  writeUint16 version ++ writeUint32 seq ++ writeUint64 ts ++
  writeUint32 count ++ flat_map writeDevice ds.

Lemma reads_readBody fresh seq ts count ds :
  is_uint32 seq -> is_uint64 ts -> is_uint32 count ->
  Forall DeviceData_wf ds ->
  Z.to_nat count = length ds ->
  reads (readBody fresh) (writeBody seq ts count ds)
        (seq, ts, map (decoded fresh) ds).
Proof.
  intros Hseq Hts Hcount Hds Hlen. unfold readBody, writeBody.
  step (reads_skip2 (Z.land (Z.shiftr version 8) 255) (Z.land version 255)).
  step (reads_readUint32 _ Hseq).
  step (reads_readUint64 _ Hts).
  step (reads_readUint32 _ Hcount).
  rewrite Hlen.
  apply (reads_map (readDevices fresh (length ds) [])
                   (fun devices => (seq, ts, devices))).
  exact (reads_readDevices fresh ds Hds []).
Qed.

(** A buffer that starts with a well-formed packet decodes to it, whatever
    follows. *)
Lemma deserializeBinary_prefix fresh seq ts count ds rest q :
  is_uint32 seq -> is_uint64 ts -> is_uint32 count ->
  Forall DeviceData_wf ds ->
  Z.to_nat count = length ds ->
  deserializeBinary fresh
    (writeUint32 magic ++ writeBody seq ts count ds ++ rest) q
  = Returned (true, mkDataPacket (map (decoded fresh) ds) ts seq (m_format q)).
Proof.
  intros Hseq Hts Hcount Hds Hlen.
  set (data := writeUint32 magic ++ writeBody seq ts count ds ++ rest).
  unfold deserializeBinary.
  assert (Hsz : (length data <? 22)%nat = false).
  { apply Nat.ltb_ge. unfold data, writeBody.
    rewrite !length_app.
    change (length (writeUint32 magic)) with 4%nat.
    change (length (writeUint16 version)) with 2%nat.
    change (length (writeUint32 seq)) with 4%nat.
    change (length (writeUint64 ts)) with 8%nat.
    change (length (writeUint32 count)) with 4%nat. lia. }
  rewrite Hsz.
  assert (Hmagic : is_uint32 magic) by (unfold is_uint32, magic; lia).
  rewrite (reads_readUint32 magic Hmagic data 0%nat
             (writeBody seq ts count ds ++ rest) eq_refl).
  rewrite Z.eqb_refl. cbn [negb].
  change (0 + length (writeUint32 magic))%nat with 4%nat.
  rewrite (reads_readBody fresh seq ts count ds Hseq Hts Hcount Hds Hlen
             data 4%nat rest eq_refl).
  reflexivity.
Qed.

Lemma serializeBinary_shape p :
  serializeBinary p
  = writeUint32 magic ++
    writeBody (m_sequenceNumber p) (m_timestamp p) (deviceCount p)
              (m_devices p) ++ [].
Proof. rewrite app_nil_r. reflexivity. Qed.

(** Decoding what [serializeBinary] wrote, when the device count fits the
    32-bit count field. *)
Lemma deserializeBinary_serializeBinary fresh p q :
  DataPacket_wf p ->
  Z.of_nat (length (m_devices p)) < 2 ^ 32 ->
  deserializeBinary fresh (serializeBinary p) q
  = Returned (true, mkDataPacket (map (decoded fresh) (m_devices p))
                                 (m_timestamp p) (m_sequenceNumber p)
                                 (m_format q)).
Proof.
  intros (Hdev & Hts & Hseq) Hlen.
  rewrite serializeBinary_shape.
  apply deserializeBinary_prefix; try assumption.
  - unfold deviceCount, uint32_t, is_uint32. apply Z.mod_pos_bound. lia.
  - unfold deviceCount, uint32_t. rewrite Z.mod_small by lia. lia.
Qed.

(** ... and when the count field reads zero although devices follow. *)
Lemma deserializeBinary_count_wraps fresh p q :
  DataPacket_wf p ->
  deviceCount p = 0 ->
  deserializeBinary fresh (serializeBinary p) q
  = Returned (true, mkDataPacket [] (m_timestamp p) (m_sequenceNumber p)
                                 (m_format q)).
Proof.
  intros (Hdev & Hts & Hseq) Hcount.
  replace (serializeBinary p) with
    (writeUint32 magic ++
     writeBody (m_sequenceNumber p) (m_timestamp p) 0 [] ++
     flat_map writeDevice (m_devices p)).
  - apply (deserializeBinary_prefix fresh _ _ 0 []); try assumption.
    + unfold is_uint32. lia.
    + constructor.
    + reflexivity.
  - unfold serializeBinary, writeHeader, writeBody. rewrite Hcount.
    cbn [flat_map]. rewrite app_nil_r, <- !app_assoc. reflexivity.
Qed.

End DataPacketFacts.

(** ** The binary round trip (claim C1) *)

Module RoundTrip.
Import Types DataPacket DataPacketFacts.

(** Decoding the serialized form of [p] into any Binary-format packet [q]
    succeeds and reproduces the sequence number, the timestamp and every
    wire field of every device of [p]. *)
Definition roundtrips (p : DataPacket) : Prop :=
  forall (format_float : float -> string) (fresh : DeviceData) (q : DataPacket),
    m_format q = Binary ->
    exists q',
      deserialize fresh (serialize format_float p) q = Returned (true, q') /\
      m_sequenceNumber q' = m_sequenceNumber p /\
      m_timestamp q' = m_timestamp p /\
      map wire_fields (m_devices q') = map wire_fields (m_devices p).

Lemma serializeBinary_nonempty p : exists b bs, serializeBinary p = b :: bs.
Proof. unfold serializeBinary, writeHeader. cbn. eauto. Qed.

Lemma map_wire_fields_decoded fresh ds :
  map wire_fields (map (decoded fresh) ds) = map wire_fields ds.
Proof.
  induction ds as [| d ds IH]; [reflexivity |].
  cbn [map]. rewrite wire_fields_decoded, IH. reflexivity.
Qed.

(** C1 (as amended): for every well-formed DataPacket in Binary format that
    holds fewer than 2^32 device records, deserializing the bytes produced
    by serializing it returns true and reproduces the sequence number, the
    timestamp and every wire field of every device record, floats compared
    bit for bit. *)
Theorem binary_roundtrip (p : DataPacket) :
  DataPacket_wf p ->
  m_format p = Binary ->
  Z.of_nat (length (m_devices p)) < 2 ^ 32 ->
  roundtrips p.
Proof.
  intros Hwf Hfmt Hlen format_float fresh q Hq.
  exists (mkDataPacket (map (decoded fresh) (m_devices p))
                       (m_timestamp p) (m_sequenceNumber p) Binary).
  unfold serialize, deserialize. rewrite Hfmt, Hq.
  destruct (serializeBinary_nonempty p) as (b & bs & Hne).
  pose proof (deserializeBinary_serializeBinary fresh p q Hwf Hlen) as Hrt.
  rewrite Hq in Hrt. rewrite Hne in *. rewrite Hrt.
  cbn [m_sequenceNumber m_timestamp m_devices].
  rewrite map_wire_fields_decoded. auto.
Qed.

(** A right controller, as in the deserialization unit test. *)
Definition sample_device : DeviceData :=
  {| deviceId := 5;
     deviceType := DeviceType_RightController;
     trackingState := TrackingState_Tracked;
     pose := {| position := Vector3.mk 0x3FC00000 0x3F99999A 0xBE99999A;
                rotation := Quaternion.mk 0x3F000000 0x3F000000 0x3F000000 0x3F000000;
                timestamp := 123456789 |};
     buttons := {| trigger := true; grip := false; menu := false;
                   touchpad := false; thumbstick := false;
                   triggerValue := 0x3F4CCCCD; gripValue := 0;
                   touchpadAxis := Vector3.default;
                   thumbstickAxis := Vector3.default |};
     isConnected := true;
     deviceName := "Test controller" |}.

Definition sample_packet : DataPacket :=
  mkDataPacket [sample_device] 123456789 42 Binary.

Example sample_packet_bytes :
  length (serializeBinary sample_packet) = 75%nat /\
  take 22 (serializeBinary sample_packet)
  = [65; 73; 77; 76; 0; 1; 0; 0; 0; 42; 0; 0; 0; 0; 7; 91; 205; 21; 0; 0; 0; 1].
Proof. split; reflexivity. Qed.

Lemma sample_device_wf : DeviceData_wf sample_device.
Proof.
  unfold DeviceData_wf, Vector3_wf, Quaternion_wf, DeviceType_declared,
    TrackingState_declared, is_uint32, is_uint64.
  repeat split; vm_compute; first [reflexivity | discriminate].
Qed.

Lemma binary_roundtrip_witness : roundtrips sample_packet.
Proof.
  apply (binary_roundtrip sample_packet).
  - split; [| split].
    + constructor; [exact sample_device_wf | constructor].
    + split; vm_compute; first [reflexivity | discriminate].
    + split; vm_compute; first [reflexivity | discriminate].
  - reflexivity.
  - reflexivity.
Defined.

(** When the number of devices is a positive multiple of 2^32 the count
    field reads zero, and the round trip loses every device. *)
Lemma count_wraps_no_roundtrip p :
  DataPacket_wf p ->
  m_format p = Binary ->
  deviceCount p = 0 ->
  m_devices p <> [] ->
  ~ roundtrips p.
Proof.
  intros Hwf Hfmt Hcount Hne Hrt.
  destruct (Hrt (fun _ => EmptyString) sample_device (new Binary) eq_refl)
    as (q' & Hdec & _ & _ & Hdevs).
  unfold serialize, deserialize in Hdec. rewrite Hfmt in Hdec.
  destruct (serializeBinary_nonempty p) as (b & bs & Hb).
  pose proof (deserializeBinary_count_wraps sample_device p
                (new Binary) Hwf Hcount) as Hwrap.
  rewrite Hb in Hdec, Hwrap. cbn [new m_format] in Hdec.
  rewrite Hwrap in Hdec. injection Hdec as <-.
  cbn [m_devices map] in Hdevs.
  destruct (m_devices p) as [| d ds]; [exact (Hne eq_refl) | discriminate Hdevs].
Qed.

(** A packet of [n] copies of the sample device. *)
Definition uniform_packet (n : nat) : DataPacket :=
  mkDataPacket (repeat sample_device n) 123456789 42 Binary.

Lemma uniform_packet_wf n : DataPacket_wf (uniform_packet n).
Proof.
  split; [| split].
  - cbn [uniform_packet m_devices]. apply Forall_forall. intros d Hin.
    apply list_elem_of_In, repeat_spec in Hin. subst d.
    exact sample_device_wf.
  - unfold is_uint64; cbn [uniform_packet m_timestamp]; lia.
  - unfold is_uint32; cbn [uniform_packet m_sequenceNumber]; lia.
Qed.

Lemma uniform_packet_wraps n :
  Z.of_nat n = 2 ^ 32 ->
  DataPacket_wf (uniform_packet n) /\
  m_format (uniform_packet n) = Binary /\
  ~ roundtrips (uniform_packet n).
Proof.
  intros Hn.
  split; [apply uniform_packet_wf | split; [reflexivity |]].
  apply count_wraps_no_roundtrip.
  - apply uniform_packet_wf.
  - reflexivity.
  - unfold deviceCount, uint32_t. cbn [uniform_packet m_devices].
    rewrite repeat_length, Hn. apply Z.mod_same. lia.
  - cbn [uniform_packet m_devices]. destruct n as [| n'].
    + cbn in Hn. lia.
    + discriminate.
Qed.

(** 2^32 copies: the count field wraps to zero. *)
Definition oversized_packet : DataPacket := uniform_packet (Z.to_nat (2 ^ 32)).

(** C1, as stated, fails: a well-formed Binary packet with 2^32 device
    records is serialized with a device count of 0, and decodes to a packet
    with no device at all. *)
Lemma binary_roundtrip_counterexample :
  DataPacket_wf oversized_packet /\
  m_format oversized_packet = Binary /\
  ~ roundtrips oversized_packet.
Proof.
  unfold oversized_packet. apply uniform_packet_wraps.
  apply Z2Nat.id. lia.
Qed.

End RoundTrip.

(** ** Corrupted buffers (claim C2) *)

Module Corrupted.
Import Types DataPacket BitFacts DataPacketFacts.

Lemma testbit_uint8_high b j : is_uint8 b -> 8 <= j -> Z.testbit b j = false.
Proof. intros Hb Hj. apply (testbit_high 8); unfold is_uint8 in Hb; lia. Qed.

(** The four bytes of a big-endian word built from four bytes. *)
Lemma writeUint32_join b0 b1 b2 b3 :
  is_uint8 b0 -> is_uint8 b1 -> is_uint8 b2 -> is_uint8 b3 ->
  writeUint32 (Z.lor (Z.lor (Z.lor (Z.shiftl b0 24) (Z.shiftl b1 16))
                            (Z.shiftl b2 8)) b3)
  = [b0; b1; b2; b3].
Proof.
  intros H0 H1 H2 H3. unfold writeUint32.
  rewrite <- (Z.shiftr_0_r (Z.lor _ b3)) at 4.
  assert (Hbyte : forall k b,
    (k = 24 /\ b = b0) \/ (k = 16 /\ b = b1) \/ (k = 8 /\ b = b2) \/
    (k = 0 /\ b = b3) ->
    Z.land (Z.shiftr (Z.lor (Z.lor (Z.lor (Z.shiftl b0 24) (Z.shiftl b1 16))
                                   (Z.shiftl b2 8)) b3) k) 255 = b).
  { intros k b Hk. apply Z.bits_inj'. intros n Hn.
    rewrite Z.land_spec, testbit_255, Z.shiftr_spec by lia.
    rewrite !Z.lor_spec, !Z.shiftl_spec by lia.
    destruct (Z.ltb_spec n 8) as [Hlt | Hge].
    - replace (0 <=? n) with true by (symmetry; apply Z.leb_le; lia).
      rewrite andb_true_r.
      destruct Hk as [[-> ->] | [[-> ->] | [[-> ->] | [-> ->]]]].
      + replace (n + 24 - 24) with n by lia.
        rewrite (testbit_uint8_high b1), (testbit_uint8_high b2),
          (testbit_uint8_high b3) by (assumption || lia).
        rewrite !orb_false_r. reflexivity.
      + replace (n + 16 - 16) with n by lia.
        rewrite (Z.testbit_neg_r b0), (testbit_uint8_high b2),
          (testbit_uint8_high b3) by (assumption || lia).
        rewrite !orb_false_r. reflexivity.
      + replace (n + 8 - 8) with n by lia.
        rewrite (Z.testbit_neg_r b0), (Z.testbit_neg_r b1),
          (testbit_uint8_high b3) by (assumption || lia).
        rewrite !orb_false_r. reflexivity.
      + rewrite (Z.testbit_neg_r b0), (Z.testbit_neg_r b1),
          (Z.testbit_neg_r b2) by lia.
        rewrite Z.add_0_r. reflexivity.
    - rewrite andb_false_r, andb_false_r.
      symmetry. destruct Hk as [[_ ->] | [[_ ->] | [[_ ->] | [_ ->]]]];
        apply testbit_uint8_high; assumption || lia. }
  rewrite (Hbyte 24 b0), (Hbyte 16 b1), (Hbyte 8 b2), (Hbyte 0 b3) by tauto.
  reflexivity.
Qed.

(** A buffer shorter than the 22-byte header is refused without a read. *)
Lemma deserializeBinary_short fresh data p :
  (length data < 22)%nat ->
  deserializeBinary fresh data p = Returned (false, p).
Proof.
  intros Hlen. unfold deserializeBinary.
  apply Nat.ltb_lt in Hlen. rewrite Hlen. reflexivity.
Qed.

(** A buffer whose first four bytes are not "AIML" is refused, the packet
    is left as it was, and no byte past the fourth is read. *)
Lemma deserializeBinary_wrong_magic fresh data p :
  Forall is_uint8 data ->
  take 4 data <> writeUint32 magic ->
  deserializeBinary fresh data p = Returned (false, p).
Proof.
  intros Hbytes Hmagic. unfold deserializeBinary.
  destruct (length data <? 22)%nat eqn:Hlen; [reflexivity |].
  apply Nat.ltb_ge in Hlen.
  destruct data as [| b0 [| b1 [| b2 [| b3 rest]]]]; cbn in Hlen; try lia.
  unfold readUint32. cbn [lookup list_lookup Nat.add].
  inversion Hbytes as [| ? ? H0 Hb1]; subst.
  inversion Hb1 as [| ? ? H1 Hb2]; subst.
  inversion Hb2 as [| ? ? H2 Hb3]; subst.
  inversion Hb3 as [| ? ? H3 _]; subst.
  destruct (Z.eqb_spec
    (Z.lor (Z.lor (Z.lor (Z.shiftl b0 24) (Z.shiftl b1 16)) (Z.shiftl b2 8)) b3)
    magic) as [Heq | Hne]; [| reflexivity].
  exfalso. apply Hmagic. cbn [take].
  rewrite <- Heq. symmetry. apply writeUint32_join; assumption.
Qed.

(** The serialized sample packet (22 + 53 bytes), cut one byte into its only
    device record, and cut right after the header. *)
Definition truncated_mid_record : list Z :=
  take 23 (serializeBinary RoundTrip.sample_packet).

Definition truncated_at_header : list Z :=
  take 22 (serializeBinary RoundTrip.sample_packet).

(** C2, at its failing inputs.  Both buffers carry the magic number and a
    device count of 1 but are shorter than the 75 bytes that count implies.
    On the first the device loop is entered with one byte left and indexes
    the buffer past its end; on the second the loop is skipped and the call
    returns true with an empty device list.  Neither returns false. *)
Theorem deserializeBinary_truncated fresh :
  length truncated_mid_record = 23%nat /\
  deserializeBinary fresh truncated_mid_record (new Binary) = OutOfBounds /\
  length truncated_at_header = 22%nat /\
  deserializeBinary fresh truncated_at_header (new Binary)
  = Returned (true, mkDataPacket [] 123456789 42 Binary).
Proof. repeat split; vm_compute; reflexivity. Qed.

End Corrupted.

(** ** JSON decoding (claim C10) *)

Module JsonFormat.
Import Types DataPacket.

(** The JSON text always starts with an opening brace. *)
Lemma serializeJSON_nonempty format_float p :
  exists bs, serializeJSON format_float p = 123 :: bs.
Proof.
  unfold serializeJSON, jsonString.
  cbn [String.append bytes_of_string list_ascii_of_string map].
  eexists. reflexivity.
Qed.

(** The property C10 states of one call: it returns false and leaves the
    device list empty. *)
Definition fails_and_clears (fresh : DeviceData) (data : list Z)
    (p : DataPacket) : Prop :=
  exists p',
    deserialize fresh data p = Returned (false, p') /\ m_devices p' = [].

(** C10 (as amended): for every non-empty input buffer, deserializing into a
    packet whose format is JSON returns false and clears the device list,
    keeping sequence number, timestamp and format; in particular this
    happens on the output of the JSON serializer, which is non-empty for
    every packet.  On the empty buffer the call returns false and leaves
    the packet untouched. *)
Theorem json_deserialize_fails (fresh : DeviceData) (p : DataPacket) :
  m_format p = JSON ->
  (forall data, data <> [] ->
     deserialize fresh data p
     = Returned (false, mkDataPacket [] (m_timestamp p) (m_sequenceNumber p) JSON)
     /\ fails_and_clears fresh data p) /\
  (forall format_float q,
     serializeJSON format_float q <> [] /\
     fails_and_clears fresh (serializeJSON format_float q) p) /\
  deserialize fresh [] p = Returned (false, p).
Proof.
  intros Hfmt.
  assert (Hne : forall data, data <> [] ->
            deserialize fresh data p
            = Returned (false, mkDataPacket [] (m_timestamp p)
                                            (m_sequenceNumber p) JSON)).
  { intros [| b bs] Hd; [congruence |].
    unfold deserialize, deserializeJSON. rewrite Hfmt. reflexivity. }
  split; [| split].
  - intros data Hd. split; [exact (Hne data Hd) |].
    eexists. split; [exact (Hne data Hd) | reflexivity].
  - intros format_float q.
    destruct (serializeJSON_nonempty format_float q) as (bs & Hbs).
    assert (Hd : serializeJSON format_float q <> []) by (rewrite Hbs; discriminate).
    split; [exact Hd |].
    eexists. split; [exact (Hne _ Hd) | reflexivity].
  - reflexivity.
Qed.

Definition json_packet : DataPacket :=
  mkDataPacket [RoundTrip.sample_device] 123456789 42 JSON.

Lemma json_deserialize_fails_witness :
  (forall data, data <> [] ->
     deserialize RoundTrip.sample_device data json_packet
     = Returned (false, mkDataPacket [] 123456789 42 JSON)
     /\ fails_and_clears RoundTrip.sample_device data json_packet) /\
  (forall format_float q,
     serializeJSON format_float q <> [] /\
     fails_and_clears RoundTrip.sample_device (serializeJSON format_float q)
                      json_packet) /\
  deserialize RoundTrip.sample_device [] json_packet
  = Returned (false, json_packet).
Proof. exact (json_deserialize_fails RoundTrip.sample_device json_packet eq_refl). Defined.

(** C10, as stated, fails on the empty buffer: [deserialize] returns before
    it looks at the format, and the device list keeps its device. *)
Lemma json_deserialize_counterexample :
  m_format json_packet = JSON /\
  deserialize RoundTrip.sample_device [] json_packet
  = Returned (false, json_packet) /\
  m_devices json_packet <> [] /\
  ~ fails_and_clears RoundTrip.sample_device [] json_packet.
Proof.
  split; [reflexivity | split; [reflexivity | split; [discriminate |]]].
  intros (p' & Hret & Hnil).
  cbn [deserialize] in Hret. injection Hret as <-. discriminate Hnil.
Qed.

End JsonFormat.

(** ** The streaming scheduler (claims C4, C7, C8) *)

Module StreamerFacts.
Import Types DataPacket Streamer.

Lemma frames_app evs evs' : frames (evs ++ evs') = frames evs ++ frames evs'.
Proof.
  induction evs as [| ev evs IH]; [reflexivity |].
  destruct ev; cbn [app frames]; rewrite IH; reflexivity.
Qed.

Lemma fold_addDevice_sequenceNumber ds p :
  m_sequenceNumber (fold_left (fun packet device => addDevice device packet) ds p)
  = m_sequenceNumber p.
Proof.
  revert p. induction ds as [| d ds IH]; intros p; [reflexivity |].
  cbn [fold_left]. rewrite IH. reflexivity.
Qed.

Lemma buildPacket_sequenceNumber env now s :
  m_sequenceNumber (buildPacket env now s) = sequenceNumber s.
Proof. unfold buildPacket. rewrite fold_addDevice_sequenceNumber. reflexivity. Qed.

(** One call of [sendFrame] hands at most one packet to the transport; the
    packet carries the counter's value and the counter moves on by one. *)
Lemma sendFrame_frames env now s :
  let '(_, s', evs) := sendFrame env now s in
  (frames evs = [] /\ sequenceNumber s' = sequenceNumber s) \/
  (frames evs = [buildPacket env now s] /\
   sequenceNumber s' = uint32_t (sequenceNumber s + 1)).
Proof.
  unfold sendFrame.
  destruct (negb (vrDevice s) || negb (networkManager s)); [left; auto |].
  destruct (negb (update_ok env)); [left; auto |].
  destruct (negb (send_ok env)); right; cbn [app frames].
  - destruct (errorCallback _); auto.
  - destruct (dataSentCallback _); auto.
Qed.

Lemma tick_frames updateRate e s :
  let '(s', evs) := tick updateRate e s in
  (frames evs = [] /\ sequenceNumber (impl s') = sequenceNumber (impl s)) \/
  (frames evs = [buildPacket (frame e) (clock s) (impl s)] /\
   sequenceNumber (impl s') = uint32_t (sequenceNumber (impl s) + 1)).
Proof.
  unfold tick.
  pose proof (sendFrame_frames (frame e) (clock s) (impl s)) as H.
  destruct (sendFrame (frame e) (clock s) (impl s)) as [[ok st] evs].
  destruct (negb ok).
  - rewrite frames_app, app_nil_r. exact H.
  - destruct (clock s + work e <? _).
    + rewrite frames_app, app_nil_r. exact H.
    + exact H.
Qed.

Lemma stopStreaming_sequenceNumber s :
  sequenceNumber (stopStreaming s) = sequenceNumber s.
Proof. unfold stopStreaming. destruct (negb (isStreaming s)); reflexivity. Qed.

Lemma uint32_t_succ_add a k :
  uint32_t (uint32_t (a + 1) + Z.of_nat k) = uint32_t (a + Z.of_nat (S k)).
Proof.
  unfold uint32_t. rewrite Zplus_mod_idemp_l. f_equal. lia.
Qed.

(** The [k]-th packet the loop hands to the transport carries the start
    value of the counter plus [k], modulo 2^32. *)
Lemma streamingLoop_frames updateRate ticks :
  forall s, is_uint32 (sequenceNumber (impl s)) ->
  forall (k : nat) packet,
    frames (snd (streamingLoop updateRate ticks s)) !! k = Some packet ->
    m_sequenceNumber packet = uint32_t (sequenceNumber (impl s) + Z.of_nat k).
Proof.
  induction ticks as [| e rest IH]; intros s Hs k packet Hk.
  - discriminate Hk.
  - cbn [streamingLoop] in Hk.
    set (s0 := if stop_called e
               then mkSched (stopStreaming (impl s)) (nextFrameTime s) (clock s)
               else s) in *.
    assert (Hs0 : sequenceNumber (impl s0) = sequenceNumber (impl s)).
    { unfold s0. destruct (stop_called e); [| reflexivity].
      apply stopStreaming_sequenceNumber. }
    destruct (shouldStop (impl s0)); [discriminate Hk |].
    pose proof (tick_frames updateRate e s0) as Ht.
    destruct (tick updateRate e s0) as [s1 evs].
    specialize (IH s1).
    destruct (streamingLoop updateRate rest s1) as [s2 evs'].
    cbn [snd] in *. rewrite frames_app in Hk.
    destruct Ht as [[Hnil Hseq] | [Hone Hseq]].
    + rewrite Hnil in Hk. cbn [app] in Hk.
      rewrite <- Hs0, <- Hseq. apply IH; [| exact Hk].
      rewrite Hseq, Hs0. exact Hs.
    + rewrite Hone in Hk. destruct k as [| k']; cbn in Hk.
      * injection Hk as <-. rewrite buildPacket_sequenceNumber, Hs0.
        unfold uint32_t. rewrite Z.add_0_r, Z.mod_small; [reflexivity | exact Hs].
      * rewrite (IH ltac:(rewrite Hseq; apply Z.mod_pos_bound; lia) k' packet Hk).
        rewrite Hseq, Hs0. apply uint32_t_succ_add.
Qed.

(** *** Every attempted frame gets a number *)

(** A streamer that [startStreaming] has started and nobody has stopped. *)
Definition streaming (s : Impl) : Prop :=
  vrDevice s = true /\ networkManager s = true /\
  isStreaming s = true /\ shouldStop s = false.

(** The frames the loop has to hand over: one for every pass in which the
    device update succeeds, up to the first pass that finds the stop flag
    set.  Whether the transport then sends the frame does not matter. *)
Fixpoint frames_due (ticks : list TickEnv) : nat :=
  match ticks with
  | [] => 0
  | e :: rest =>
      if stop_called e then 0
      else ((if update_ok (frame e) then 1 else 0) + frames_due rest)%nat
  end.

(** On a started streamer [sendFrame] hands over exactly one packet when the
    device update succeeds, with the counter's value in it, and moves the
    counter on by one; it hands over nothing when the update fails. *)
Lemma sendFrame_assigns env now s :
  streaming s ->
  let '(_, s', evs) := sendFrame env now s in
  streaming s' /\
  frames evs = (if update_ok env then [buildPacket env now s] else []) /\
  sequenceNumber s'
  = (if update_ok env then uint32_t (sequenceNumber s + 1) else sequenceNumber s).
Proof.
  intros (Hv & Hn & Hi & Hs). unfold sendFrame, streaming.
  rewrite Hv, Hn. cbn [negb orb].
  destruct (update_ok env); cbn [negb].
  - destruct (send_ok env); cbn [negb app frames].
    + destruct (dataSentCallback _); cbn; auto.
    + destruct (errorCallback _); cbn; auto.
  - cbn. auto.
Qed.

Lemma tick_assigns updateRate e s :
  streaming (impl s) ->
  let '(s', evs) := tick updateRate e s in
  streaming (impl s') /\
  frames evs
  = (if update_ok (frame e) then [buildPacket (frame e) (clock s) (impl s)] else []) /\
  sequenceNumber (impl s')
  = (if update_ok (frame e) then uint32_t (sequenceNumber (impl s) + 1)
     else sequenceNumber (impl s)).
Proof.
  intros Hstr. unfold tick.
  pose proof (sendFrame_assigns (frame e) (clock s) (impl s) Hstr) as H.
  destruct (sendFrame (frame e) (clock s) (impl s)) as [[ok st] evs].
  destruct (negb ok).
  - cbn [impl]. rewrite frames_app, app_nil_r. exact H.
  - destruct (clock s + work e <? _); cbn [impl].
    + rewrite frames_app, app_nil_r. exact H.
    + exact H.
Qed.

(** The loop hands over every frame that is due, and the counter ends at
    its start value plus their number. *)
Lemma streamingLoop_assigns updateRate ticks :
  forall s, streaming (impl s) -> is_uint32 (sequenceNumber (impl s)) ->
  let '(s', evs) := streamingLoop updateRate ticks s in
  length (frames evs) = frames_due ticks /\
  sequenceNumber (impl s')
  = uint32_t (sequenceNumber (impl s) + Z.of_nat (length (frames evs))).
Proof.
  induction ticks as [| e rest IH]; intros s Hstr Hs.
  - cbn. unfold uint32_t. rewrite Z.add_0_r, Z.mod_small; [auto | exact Hs].
  - cbn [streamingLoop frames_due].
    destruct (stop_called e).
    + destruct Hstr as (Hv & Hn & Hi & Hstop).
      unfold stopStreaming. cbn [impl]. rewrite Hi. cbn [negb shouldStop].
      cbn. unfold uint32_t. rewrite Z.add_0_r, Z.mod_small; [auto | exact Hs].
    + destruct (Hstr) as (_ & _ & _ & Hstop). rewrite Hstop.
      pose proof (tick_assigns updateRate e s Hstr) as Ht.
      destruct (tick updateRate e s) as [s1 evs].
      destruct Ht as (Hstr1 & Hfr & Hseq).
      specialize (IH s1 Hstr1).
      destruct (streamingLoop updateRate rest s1) as [s2 evs'].
      rewrite frames_app, length_app, Hfr.
      destruct (update_ok (frame e)).
      * destruct (IH ltac:(rewrite Hseq; apply Z.mod_pos_bound; lia)) as [Hlen Hend].
        split; [cbn [length]; lia |].
        rewrite Hend, Hseq. cbn [length].
        rewrite uint32_t_succ_add. first [reflexivity | f_equal; lia].
      * destruct (IH ltac:(rewrite Hseq; exact Hs)) as [Hlen Hend].
        split; [cbn [length]; lia |].
        rewrite Hend, Hseq. reflexivity.
Qed.

(** C4: a successful [startStreaming] resets the sequence counter to 0.  The
    streaming thread then hands one packet to the transport for every pass
    in which the device update succeeds (until it finds the stop flag set),
    whether or not the transport sends it; these packets carry the sequence
    numbers 0, 1, 2, ... modulo 2^32: the first carries 0 and each later one
    carries its predecessor's number plus one, modulo 2^32; and the counter
    ends at the number of packets handed over, modulo 2^32. *)
Theorem sequence_numbers_consecutive
    (connected : bool) (now : Z) (s s1 : Impl) (evs0 : list Event)
    (updateRate : Z) (ticks : list TickEnv) (t0 : Z) :
  startStreaming connected now s = (true, s1, evs0) ->
  let run := streamingThreadFunc updateRate ticks t0 s1 in
  let fs := frames (snd run) in
  sequenceNumber s1 = 0 /\
  (forall (k : nat) packet,
     fs !! k = Some packet -> m_sequenceNumber packet = uint32_t (Z.of_nat k)) /\
  (forall (k : nat) a b,
     fs !! k = Some a -> fs !! S k = Some b ->
     m_sequenceNumber b = uint32_t (m_sequenceNumber a + 1)) /\
  length fs = frames_due ticks /\
  sequenceNumber (impl (fst run)) = uint32_t (Z.of_nat (length fs)).
Proof.
  intros Hstart run fs.
  assert (H0 : sequenceNumber s1 = 0 /\ streaming s1).
  { unfold startStreaming in Hstart. unfold streaming.
    destruct (isStreaming s); [discriminate Hstart |].
    destruct (vrDevice s); [| discriminate Hstart].
    destruct (networkManager s); [| discriminate Hstart].
    cbn [negb orb] in Hstart.
    destruct (negb connected); [discriminate Hstart |].
    injection Hstart as <- _. cbn. auto. }
  destruct H0 as [H0 Hstr].
  assert (Hk : forall (k : nat) packet,
             fs !! k = Some packet ->
             m_sequenceNumber packet = uint32_t (Z.of_nat k)).
  { intros k packet Hlk. unfold fs, run, streamingThreadFunc in Hlk.
    pose proof (streamingLoop_frames updateRate ticks (mkSched s1 t0 t0)) as Hloop.
    destruct (streamingLoop updateRate ticks (mkSched s1 t0 t0)) as [s' evs].
    cbn [snd frames impl] in *.
    rewrite (Hloop ltac:(rewrite H0; unfold is_uint32; lia) k packet Hlk), H0.
    reflexivity. }
  split; [exact H0 | split; [exact Hk | split]].
  - intros k a b Ha Hb. rewrite (Hk _ _ Ha), (Hk _ _ Hb).
    unfold uint32_t. rewrite Zplus_mod_idemp_l. f_equal. lia.
  - unfold fs, run, streamingThreadFunc.
    pose proof (streamingLoop_assigns updateRate ticks (mkSched s1 t0 t0) Hstr
                  ltac:(cbn [impl]; rewrite H0; unfold is_uint32; lia)) as Hloop.
    destruct (streamingLoop updateRate ticks (mkSched s1 t0 t0)) as [s' evs].
    cbn [snd fst frames impl] in *. rewrite H0 in Hloop. exact Hloop.
Qed.

(** A streamer that has been initialized and used before. *)
Definition used_streamer : Impl :=
  mkImpl true true false false true true EmptyString 17 0 99.

Definition good_frame : FrameEnv :=
  mkFrameEnv true [RoundTrip.sample_device] true EmptyString.

Definition failing_frame : FrameEnv :=
  mkFrameEnv true [RoundTrip.sample_device] false "UDP send failed".

Definition sample_ticks : list TickEnv :=
  [ mkTickEnv false good_frame 1000 0;
    mkTickEnv false failing_frame 1000 0;
    mkTickEnv false good_frame 1000 0 ].

Lemma sequence_numbers_consecutive_witness :
  let run := streamingThreadFunc 90 sample_ticks 5000
               (snd (fst (startStreaming true 5000 used_streamer))) in
  let fs := frames (snd run) in
  (sequenceNumber (snd (fst (startStreaming true 5000 used_streamer))) = 0 /\
   (forall (k : nat) packet,
      fs !! k = Some packet -> m_sequenceNumber packet = uint32_t (Z.of_nat k)) /\
   (forall (k : nat) a b,
      fs !! k = Some a -> fs !! S k = Some b ->
      m_sequenceNumber b = uint32_t (m_sequenceNumber a + 1)) /\
   length fs = frames_due sample_ticks /\
   sequenceNumber (impl (fst run)) = uint32_t (Z.of_nat (length fs))) /\
  map m_sequenceNumber fs = [0; 1; 2] /\
  sequenceNumber (impl (fst run)) = 3.
Proof.
  split.
  - exact (sequence_numbers_consecutive true 5000 used_streamer _ _ 90
             sample_ticks 5000 eq_refl).
  - split; reflexivity.
Defined.

(** *** Send failures (claim C8) *)

(** What a tick with a failed send emits. *)
Definition failure_events (e : TickEnv) (s : Sched) : list Event :=
  let msg := "Failed to send packet: " +:+ net_error (frame e) in
  [EvSend (buildPacket (frame e) (clock s) (impl s)); EvLog Error msg] ++
  (if errorCallback (impl s) then [EvErrorCallback msg] else []) ++
  [EvSleepFor retry_delay].

(** The streamer after a failed send: the counter has moved on, the error
    text is recorded, nothing else changed. *)
Definition after_failure (e : TickEnv) (s : Sched) : Sched :=
  mkSched
    (set_lastError ("Failed to send packet: " +:+ net_error (frame e))
       (set_sequenceNumber (uint32_t (sequenceNumber (impl s) + 1)) (impl s)))
    (nextFrameTime s)
    (clock s + work e + retry_delay + oversleep e).

Lemma tick_send_failure updateRate e s :
  vrDevice (impl s) = true -> networkManager (impl s) = true ->
  update_ok (frame e) = true -> send_ok (frame e) = false ->
  tick updateRate e s = (after_failure e s, failure_events e s).
Proof.
  intros Hv Hn Hu Hs. unfold tick, sendFrame, after_failure, failure_events.
  rewrite Hv, Hn, Hu, Hs. cbn [negb orb].
  cbn [set_sequenceNumber errorCallback].
  rewrite <- app_assoc. reflexivity.
Qed.

(** C8: when the transport fails to send a frame during streaming, the tick
    returns normally; it reports the failure text to the error log and, when
    an error callback is registered, to that callback; the total-sent
    counter keeps its value and the per-frame sent callback is not invoked;
    the stop flag stays clear, so the loop goes on to the next tick (after
    its 100 ms pause). *)
Theorem send_failure_keeps_streaming
    (updateRate : Z) (e : TickEnv) (rest : list TickEnv) (s : Sched) :
  shouldStop (impl s) = false -> stop_called e = false ->
  vrDevice (impl s) = true -> networkManager (impl s) = true ->
  update_ok (frame e) = true -> send_ok (frame e) = false ->
  let msg := "Failed to send packet: " +:+ net_error (frame e) in
  let s1 := after_failure e s in
  tick updateRate e s = (s1, failure_events e s) /\
  (errorCallback (impl s) = true -> EvErrorCallback msg ∈ failure_events e s) /\
  EvLog Error msg ∈ failure_events e s /\
  (forall packet, EvDataSentCallback packet ∉ failure_events e s) /\
  totalPacketsSent (impl s1) = totalPacketsSent (impl s) /\
  shouldStop (impl s1) = false /\
  streamingLoop updateRate (e :: rest) s
  = (fst (streamingLoop updateRate rest s1),
     failure_events e s ++ snd (streamingLoop updateRate rest s1)) /\
  (forall e' rest', stop_called e' = false ->
     streamingLoop updateRate (e' :: rest') s1
     = (fst (streamingLoop updateRate rest' (fst (tick updateRate e' s1))),
        snd (tick updateRate e' s1) ++
        snd (streamingLoop updateRate rest' (fst (tick updateRate e' s1))))).
Proof.
  intros Hstop Hcall Hv Hn Hu Hs msg s1.
  pose proof (tick_send_failure updateRate e s Hv Hn Hu Hs) as Htick.
  assert (Hstop1 : shouldStop (impl s1) = false) by exact Hstop.
  repeat split.
  - exact Htick.
  - intros Hcb. unfold failure_events. rewrite Hcb.
    apply list_elem_of_In. cbn. tauto.
  - unfold failure_events. apply list_elem_of_In. cbn. tauto.
  - intros packet Hin. apply list_elem_of_In in Hin.
    unfold failure_events in Hin.
    destruct (errorCallback (impl s)); cbn in Hin;
      intuition discriminate.
  - exact Hstop1.
  - cbn [streamingLoop]. rewrite Hcall. cbn iota. rewrite Hstop, Htick.
    fold s1. destruct (streamingLoop updateRate rest s1). reflexivity.
  - intros e' rest' Hcall'. cbn [streamingLoop]. rewrite Hcall'. cbn iota.
    rewrite Hstop1.
    destruct (tick updateRate e' s1) as [s2 evs]. cbn [fst snd].
    destruct (streamingLoop updateRate rest' s2). reflexivity.
Qed.

(** A streamer in the middle of a session. *)
Definition running_streamer : Impl :=
  mkImpl true true true false true true EmptyString 17 0 3.

Lemma send_failure_keeps_streaming_witness :
  let e := mkTickEnv false failing_frame 1000 0 in
  let s := mkSched running_streamer 5000 5000 in
  let msg := "Failed to send packet: UDP send failed" in
  let s1 := after_failure e s in
  tick 90 e s = (s1, failure_events e s) /\
  (errorCallback (impl s) = true -> EvErrorCallback msg ∈ failure_events e s) /\
  EvLog Error msg ∈ failure_events e s /\
  (forall packet, EvDataSentCallback packet ∉ failure_events e s) /\
  totalPacketsSent (impl s1) = totalPacketsSent (impl s) /\
  shouldStop (impl s1) = false /\
  streamingLoop 90 (e :: sample_ticks) s
  = (fst (streamingLoop 90 sample_ticks s1),
     failure_events e s ++ snd (streamingLoop 90 sample_ticks s1)) /\
  (forall e' rest', stop_called e' = false ->
     streamingLoop 90 (e' :: rest') s1
     = (fst (streamingLoop 90 rest' (fst (tick 90 e' s1))),
        snd (tick 90 e' s1) ++
        snd (streamingLoop 90 rest' (fst (tick 90 e' s1))))).
Proof.
  exact (send_failure_keeps_streaming 90
           (mkTickEnv false failing_frame 1000 0) sample_ticks
           (mkSched running_streamer 5000 5000)
           eq_refl eq_refl eq_refl eq_refl eq_refl eq_refl).
Defined.

(** *** Deadlines (claim C7) *)

(** The deadline lies before the current time. *)
Definition deadline_in_past (s : Sched) : Prop := nextFrameTime s < clock s.

(** C7 (as amended): on a tick whose frame is sent, the deadline is advanced
    by exactly one period; if the time read after the send is before the new
    deadline the thread sleeps until it, otherwise the deadline is reset to
    that time and the thread does not sleep; either way the deadline is not
    earlier than the time read in the tick, it is not later than the time at
    which the next tick starts, and it equals that time when the sleep wakes
    on time.  On a tick whose [sendFrame] fails the deadline keeps its value
    and the thread sleeps 100 ms. *)
Theorem tick_deadline (updateRate : Z) (e : TickEnv) (s : Sched) :
  TickEnv_wf e ->
  let '(ok, st, evs) := sendFrame (frame e) (clock s) (impl s) in
  let now := clock s + work e in
  let next := nextFrameTime s + frameDuration updateRate in
  let s' := fst (tick updateRate e s) in
  (ok = true -> now < next ->
     tick updateRate e s
     = (mkSched st next (next + oversleep e), evs ++ [EvSleepUntil next])) /\
  (ok = true -> next <= now ->
     tick updateRate e s = (mkSched st now now, evs)) /\
  (ok = true ->
     now <= nextFrameTime s' /\ nextFrameTime s' <= clock s' /\
     (oversleep e = 0 -> nextFrameTime s' = clock s')) /\
  (ok = false ->
     tick updateRate e s
     = (mkSched st (nextFrameTime s) (now + retry_delay + oversleep e),
        evs ++ [EvSleepFor retry_delay])).
Proof.
  intros [Hwork Hover]. unfold tick.
  destruct (sendFrame (frame e) (clock s) (impl s)) as [[ok st] evs].
  cbn zeta. repeat split.
  - intros -> Hlt. cbn [negb]. apply Z.ltb_lt in Hlt. rewrite Hlt. reflexivity.
  - intros -> Hge. cbn [negb]. apply Z.ltb_ge in Hge. rewrite Hge. reflexivity.
  - subst ok. cbn [negb].
    destruct (Z.ltb_spec (clock s + work e)
                (nextFrameTime s + frameDuration updateRate));
      cbn [fst nextFrameTime]; lia.
  - subst ok. cbn [negb].
    destruct (Z.ltb_spec (clock s + work e)
                (nextFrameTime s + frameDuration updateRate));
      cbn [fst nextFrameTime clock]; lia.
  - subst ok. cbn [negb].
    destruct (Z.ltb_spec (clock s + work e)
                (nextFrameTime s + frameDuration updateRate));
      cbn [fst nextFrameTime clock]; lia.
  - intros ->. reflexivity.
Qed.

Lemma tick_deadline_witness :
  let e := mkTickEnv false good_frame 1000 0 in
  let s := mkSched running_streamer 5000 5000 in
  let '(ok, st, evs) := sendFrame (frame e) (clock s) (impl s) in
  let now := clock s + work e in
  let next := nextFrameTime s + frameDuration 90 in
  let s' := fst (tick 90 e s) in
  (ok = true -> now < next ->
     tick 90 e s
     = (mkSched st next (next + oversleep e), evs ++ [EvSleepUntil next])) /\
  (ok = true -> next <= now ->
     tick 90 e s = (mkSched st now now, evs)) /\
  (ok = true ->
     now <= nextFrameTime s' /\ nextFrameTime s' <= clock s' /\
     (oversleep e = 0 -> nextFrameTime s' = clock s')) /\
  (ok = false ->
     tick 90 e s
     = (mkSched st (nextFrameTime s) (now + retry_delay + oversleep e),
        evs ++ [EvSleepFor retry_delay])).
Proof.
  apply (tick_deadline 90 (mkTickEnv false good_frame 1000 0)
           (mkSched running_streamer 5000 5000)).
  split; cbn; lia.
Defined.

(** C7, as stated, fails on a tick whose send fails: started with the
    deadline at the current time, and with no time lost to work or to late
    wake-ups, the loop begins its second tick with the deadline still at its
    old value, 100 ms in the past. *)
Lemma tick_deadline_counterexample :
  let e := mkTickEnv false failing_frame 0 0 in
  let s := mkSched running_streamer 5000 5000 in
  let s1 := fst (streamingLoop 90 [e] s) in
  TickEnv_wf e /\
  ~ deadline_in_past s /\
  nextFrameTime s1 = nextFrameTime s /\
  clock s1 = clock s + retry_delay /\
  deadline_in_past s1.
Proof.
  cbv zeta. split; [split; cbn; lia |].
  split; [unfold deadline_in_past; cbn; lia |].
  split; [reflexivity |].
  split; [reflexivity |].
  unfold deadline_in_past. vm_compute. reflexivity.
Qed.

End StreamerFacts.

(** ** The chat node: handshake and discovery filter (claims C3, C6) *)

Module ChatNodeFacts.
Import Str ChatNode.

Definition is_request (r : Reading) : bool :=
  match r with PeerRequest => true | _ => false end.

Definition is_ready (r : Reading) : bool :=
  match r with PeerReady => true | _ => false end.

(** One pass: one more attempt; each latch keeps its value or is set by the
    datagram of this pass; a request is sent while the send-side latch is
    clear, and a peer request is answered. *)
Lemma handshake_step_spec peer recv h :
  let '(h1, evs) := handshake_step peer recv h in
  attempts h1 = attempts h + 1 /\
  handshake_sent h1 = handshake_sent h || is_ready (classify recv) /\
  handshake_received h1 = handshake_received h || is_request (classify recv) /\
  (handshake_sent h = false -> In (EvSendTo handshake_msg peer) evs) /\
  (classify recv = PeerRequest -> In (EvSendTo ready_msg peer) evs).
Proof.
  unfold handshake_step, classify.
  destruct (received_text recv) as [text |].
  - destruct (starts_with MSG_HANDSHAKE text).
    + cbn. rewrite orb_false_r, orb_true_r.
      repeat split; try tauto.
      * intros ->. cbn. tauto.
      * intros _. apply in_or_app. right. cbn. tauto.
    + destruct (starts_with MSG_READY text); cbn;
        rewrite ?orb_false_r, ?orb_true_r; repeat split; try discriminate;
        intros ->; cbn; tauto.
  - cbn. rewrite !orb_false_r. repeat split; try discriminate.
    intros ->. cbn. tauto.
Qed.

Lemma classify_hd_in inbox r :
  classify (hd None inbox) = r -> r <> Ignored ->
  exists d, In d inbox /\ classify d = r.
Proof.
  destruct inbox as [| d rest]; cbn [hd].
  - intros <- Hne. exfalso. apply Hne. reflexivity.
  - intros H _. exists d. split; [apply in_eq | exact H].
Qed.

(** What the loop guarantees about the state it ends in. *)
Lemma handshake_loop_spec peer fuel :
  forall inbox h,
  let '(h', evs) := handshake_loop fuel peer inbox h in
  attempts h <= attempts h' /\
  (attempts h <= 10 -> attempts h' <= 10) /\
  (handshake_sent h' = true ->
     handshake_sent h = true \/
     ((exists d, In d inbox /\ classify d = PeerReady) /\
      In (EvSendTo handshake_msg peer) evs)) /\
  (handshake_received h' = true ->
     handshake_received h = true \/
     ((exists d, In d inbox /\ classify d = PeerRequest) /\
      In (EvSendTo ready_msg peer) evs)) /\
  (10 - attempts h <= Z.of_nat fuel ->
     attempts h' < 10 ->
     handshake_sent h' = true /\ handshake_received h' = true).
Proof.
  induction fuel as [| fuel IH]; intros inbox h.
  - cbn [handshake_loop]. repeat split; try lia; try tauto; cbn in *; lia.
  - cbn [handshake_loop].
    destruct (Z.ltb_spec (attempts h) 10) as [Hlt | Hge]; cbn [andb].
    2:{ repeat split; try lia; tauto. }
    destruct (negb (handshake_sent h) || negb (handshake_received h)) eqn:Hlatch.
    2:{ apply orb_false_iff in Hlatch. destruct Hlatch as [Hs Hr].
        apply negb_false_iff in Hs, Hr.
        repeat split; try lia; tauto. }
    pose proof (handshake_step_spec peer (hd None inbox) h) as Hstep.
    destruct (handshake_step peer (hd None inbox) h) as [h1 evs].
    destruct Hstep as (Hatt & Hsent & Hrecv & Hreq & Hrep).
    specialize (IH (tl inbox) h1).
    destruct (handshake_loop fuel peer (tl inbox) h1) as [h2 evs'].
    destruct IH as (IHatt & IHcap & IHsent & IHrecv & IHexit).
    assert (Htl : forall d, In d (tl inbox) -> In d inbox).
    { intros d Hd. destruct inbox; [destruct Hd | right; exact Hd]. }
    refine (conj _ (conj _ (conj _ (conj _ _)))).
    + lia.
    + intros _. apply IHcap. lia.
    + intros Hs2. destruct (handshake_sent h) eqn:Hs0; [left; reflexivity | right].
      assert (Hsendreq : In (EvSendTo handshake_msg peer) (evs ++ evs')).
      { apply in_or_app. left. apply Hreq. reflexivity. }
      split; [| exact Hsendreq].
      destruct (IHsent Hs2) as [Hs1 | [(d & Hd & Hcl) _]].
      * rewrite Hsent in Hs1. cbn [orb] in Hs1.
        destruct (classify (hd None inbox)) eqn:Hc; try discriminate Hs1.
        apply (classify_hd_in inbox PeerReady Hc). discriminate.
      * exists d. split; [apply Htl; exact Hd | exact Hcl].
    + intros Hr2. destruct (handshake_received h) eqn:Hr0; [left; reflexivity | right].
      destruct (IHrecv Hr2) as [Hr1 | [(d & Hd & Hcl) Hev]].
      * rewrite Hrecv in Hr1. cbn [orb] in Hr1.
        destruct (classify (hd None inbox)) eqn:Hc; try discriminate Hr1.
        split.
        -- apply (classify_hd_in inbox PeerRequest Hc). discriminate.
        -- apply in_or_app. left. apply Hrep. reflexivity.
      * split.
        -- exists d. split; [apply Htl; exact Hd | exact Hcl].
        -- apply in_or_app. right. exact Hev.
    + intros Hfuel. apply IHexit. lia.
Qed.

(** More fuel than the budget needs changes nothing. *)
Lemma handshake_loop_fuel peer fuel :
  forall inbox h,
    10 - attempts h <= Z.of_nat fuel ->
    handshake_loop (S fuel) peer inbox h = handshake_loop fuel peer inbox h.
Proof.
  induction fuel as [| fuel IH]; intros inbox h Hfuel.
  - cbn [handshake_loop].
    destruct (Z.ltb_spec (attempts h) 10); [cbn in Hfuel; lia | reflexivity].
  - change (handshake_loop (S (S fuel)) peer inbox h)
      with (if (attempts h <? 10) &&
               (negb (handshake_sent h) || negb (handshake_received h))
            then
              let '(h1, evs) := handshake_step peer (hd None inbox) h in
              let '(h2, evs') := handshake_loop (S fuel) peer (tl inbox) h1 in
              (h2, evs ++ evs')
            else (h, [])).
    cbn [handshake_loop].
    destruct ((attempts h <? 10) &&
              (negb (handshake_sent h) || negb (handshake_received h)));
      [| reflexivity].
    pose proof (handshake_step_spec peer (hd None inbox) h) as Hstep.
    destruct (handshake_step peer (hd None inbox) h) as [h1 evs].
    destruct Hstep as (Hatt & _).
    rewrite <- (IH (tl inbox) h1) by lia.
    reflexivity.
Qed.

(** The ten units of fuel [performHandshake] runs with are enough: any
    larger amount gives the same run. *)
Lemma handshake_loop_enough_fuel peer inbox (extra : nat) :
  handshake_loop (10 + extra) peer inbox (mkHandshake 0 false false)
  = handshake_loop 10 peer inbox (mkHandshake 0 false false).
Proof.
  induction extra as [| extra IH]; [reflexivity |].
  rewrite <- IH. replace (10 + S extra)%nat with (S (10 + extra)) by lia.
  apply handshake_loop_fuel. cbn [attempts]. lia.
Qed.

Definition request_from_peer : option Datagram :=
  Some (mkDatagram "HANDSHAKE:NODE1" "192.168.1.7").

Definition ready_from_peer : option Datagram :=
  Some (mkDatagram "READY:NODE1" "192.168.1.7").

Example handshake_both_directions :
  fst (fst (performHandshake "192.168.1.7" [None; request_from_peer; ready_from_peer]))
  = true.
Proof. reflexivity. Qed.

Example handshake_ready_only :
  fst (performHandshake "192.168.1.7" (repeat ready_from_peer 12))
  = (false, mkHandshake 10 true false).
Proof. reflexivity. Qed.

Example handshake_request_only :
  fst (performHandshake "192.168.1.7" (repeat request_from_peer 12))
  = (false, mkHandshake 10 false true).
Proof. reflexivity. Qed.

(** Both directions, for one run of [performHandshake]: a datagram counts by
    its text ([classify]), whoever sent it. *)
Definition two_sided (peer : string) (inbox : list (option Datagram)) : Prop :=
  let '(ok, h, evs) := performHandshake peer inbox in
  (ok = true ->
     ((exists d, In d inbox /\ classify d = PeerReady) /\
      In (EvSendTo handshake_msg peer) evs) /\
     ((exists d, In d inbox /\ classify d = PeerRequest) /\
      In (EvSendTo ready_msg peer) evs)) /\
  ((forall d, In d inbox -> classify d <> PeerRequest) -> ok = false) /\
  ((forall d, In d inbox -> classify d <> PeerReady) -> ok = false) /\
  attempts h <= 10 /\
  (ok = false -> attempts h = 10).

(** The two latches of [performHandshake]: what a verdict of true needs, what
    one-sided traffic gives, and the attempt budget. *)
Lemma performHandshake_latches (peer : string)
    (inbox : list (option Datagram)) :
  two_sided peer inbox.
Proof.
  unfold two_sided, performHandshake.
  pose proof (handshake_loop_spec peer 10 inbox (mkHandshake 0 false false)) as H.
  destruct (handshake_loop 10 peer inbox (mkHandshake 0 false false)) as [h evs].
  cbn [attempts handshake_sent handshake_received] in H.
  destruct H as (Hatt & Hcap & Hsent & Hrecv & Hexit).
  assert (Hboth : handshake_sent h && handshake_received h = true ->
            ((exists d, In d inbox /\ classify d = PeerReady) /\
             In (EvSendTo handshake_msg peer) evs) /\
            ((exists d, In d inbox /\ classify d = PeerRequest) /\
             In (EvSendTo ready_msg peer) evs)).
  { intros Hok. apply andb_true_iff in Hok. destruct Hok as [Hs Hr].
    destruct (Hsent Hs) as [Habs | Hs']; [discriminate Habs |].
    destruct (Hrecv Hr) as [Habs | Hr']; [discriminate Habs |].
    split; assumption. }
  repeat split.
  - apply Hboth; assumption.
  - apply Hboth; assumption.
  - apply Hboth; assumption.
  - apply Hboth; assumption.
  - intros Hnone.
    destruct (handshake_sent h && handshake_received h) eqn:Hok; [| reflexivity].
    destruct (Hboth eq_refl) as [_ [(d & Hd & Hcl) _]].
    exfalso. exact (Hnone d Hd Hcl).
  - intros Hnone.
    destruct (handshake_sent h && handshake_received h) eqn:Hok; [| reflexivity].
    destruct (Hboth eq_refl) as [[(d & Hd & Hcl) _] _].
    exfalso. exact (Hnone d Hd Hcl).
  - apply Hcap. lia.
  - intros Hfail.
    destruct (Z.ltb_spec (attempts h) 10) as [Hlt | Hge].
    + destruct (Hexit ltac:(cbn; lia) Hlt) as [Hs Hr].
      rewrite Hs, Hr in Hfail. discriminate Hfail.
    + pose proof (Hcap ltac:(lia)). lia.
Qed.

(** *** Which datagrams count *)

(** A latch that is set at the end was set at the start or by a datagram
    that one of the passes made has read. *)
Lemma handshake_loop_reads peer fuel :
  forall inbox h,
  let '(h', evs) := handshake_loop fuel peer inbox h in
  (handshake_sent h' = true ->
     handshake_sent h = true \/
     exists i : nat, Z.of_nat i < attempts h' - attempts h /\
                     classify (nth i inbox None) = PeerReady) /\
  (handshake_received h' = true ->
     handshake_received h = true \/
     exists j : nat, Z.of_nat j < attempts h' - attempts h /\
                     classify (nth j inbox None) = PeerRequest).
Proof.
  induction fuel as [| fuel IH]; intros inbox h.
  - cbn [handshake_loop]. split; intros H; left; exact H.
  - cbn [handshake_loop].
    destruct ((attempts h <? 10) &&
              (negb (handshake_sent h) || negb (handshake_received h))).
    2:{ split; intros H; left; exact H. }
    pose proof (handshake_step_spec peer (hd None inbox) h) as Hstep.
    destruct (handshake_step peer (hd None inbox) h) as [h1 evs].
    destruct Hstep as (Hatt & Hsent & Hrecv & _ & _).
    specialize (IH (tl inbox) h1).
    pose proof (handshake_loop_spec peer fuel (tl inbox) h1) as Hmono.
    destruct (handshake_loop fuel peer (tl inbox) h1) as [h2 evs'].
    destruct IH as (IHsent & IHrecv). destruct Hmono as (Hle & _).
    assert (Hnth : forall i, nth i (tl inbox) None = nth (S i) inbox None).
    { intros i. destruct inbox; [destruct i |]; reflexivity. }
    assert (Hhd : hd None inbox = nth 0 inbox None).
    { destruct inbox; reflexivity. }
    split.
    + intros Hs2. destruct (IHsent Hs2) as [Hs1 | (i & Hi & Hc)].
      * rewrite Hsent in Hs1.
        destruct (handshake_sent h); [left; reflexivity | right].
        cbn [orb] in Hs1.
        destruct (classify (hd None inbox)) eqn:Hc; try discriminate Hs1.
        exists 0%nat. split; [lia | rewrite <- Hhd; exact Hc].
      * right. exists (S i). split; [lia | rewrite <- Hnth; exact Hc].
    + intros Hr2. destruct (IHrecv Hr2) as [Hr1 | (j & Hj & Hc)].
      * rewrite Hrecv in Hr1.
        destruct (handshake_received h); [left; reflexivity | right].
        cbn [orb] in Hr1.
        destruct (classify (hd None inbox)) eqn:Hc; try discriminate Hr1.
        exists 0%nat. split; [lia | rewrite <- Hhd; exact Hc].
      * right. exists (S j). split; [lia | rewrite <- Hnth; exact Hc].
Qed.

(** A pass looks at the text of the datagram it reads and at nothing else
    of it. *)
Lemma handshake_step_text peer recv recv' h :
  received_text recv = received_text recv' ->
  handshake_step peer recv h = handshake_step peer recv' h.
Proof. intros Htext. unfold handshake_step. rewrite Htext. reflexivity. Qed.

Lemma handshake_loop_text peer fuel :
  forall inbox inbox' h,
    map received_text inbox = map received_text inbox' ->
    handshake_loop fuel peer inbox h = handshake_loop fuel peer inbox' h.
Proof.
  induction fuel as [| fuel IH]; intros inbox inbox' h Hmap; [reflexivity |].
  cbn [handshake_loop].
  assert (Hhd : received_text (hd None inbox) = received_text (hd None inbox')).
  { destruct inbox, inbox'; try discriminate Hmap; [reflexivity |].
    cbn [map] in Hmap. cbn [hd]. congruence. }
  assert (Htl : map received_text (tl inbox) = map received_text (tl inbox')).
  { destruct inbox, inbox'; try discriminate Hmap; [reflexivity |].
    cbn [map] in Hmap. cbn [tl]. congruence. }
  rewrite (handshake_step_text peer _ _ h Hhd).
  destruct (handshake_step peer (hd None inbox') h) as [h1 evs].
  rewrite (IH (tl inbox) (tl inbox') h1 Htl). reflexivity.
Qed.

(** While the send-side latch is clear, a pass begins by sending the
    request. *)
Lemma handshake_step_request_first peer recv h :
  handshake_sent h = false ->
  exists evs, snd (handshake_step peer recv h) = EvSendTo handshake_msg peer :: evs.
Proof.
  intros Hs. unfold handshake_step. rewrite Hs.
  destruct (received_text recv) as [text |];
    [destruct (starts_with MSG_HANDSHAKE text);
       [| destruct (starts_with MSG_READY text)] |];
    cbn [snd app]; eexists; reflexivity.
Qed.

(** What a run reads of its inbox: the texts, of the datagrams its passes
    reach; and what it does first. *)
Definition texts_only (peer : string) (inbox : list (option Datagram)) : Prop :=
  let '(ok, h, evs) := performHandshake peer inbox in
  (ok = true ->
     exists i j : nat,
       Z.of_nat i < attempts h /\ Z.of_nat j < attempts h /\
       classify (nth i inbox None) = PeerReady /\
       classify (nth j inbox None) = PeerRequest) /\
  (exists evs', evs = EvSendTo handshake_msg peer :: evs') /\
  (forall inbox',
     map received_text inbox' = map received_text inbox ->
     performHandshake peer inbox' = performHandshake peer inbox).

(** C3 (as amended), for [performHandshake] of the chat node.  The run
    begins by sending the handshake request to the peer address, before
    anything is received.  It returns true only if, among the datagrams its
    passes read, one has a text that starts with READY and one has a text
    that starts with HANDSHAKE, the latter answered with READY sent to the
    peer address.  Only the text of a datagram counts: its sender address is
    never looked at, so two inboxes that carry the same texts give the same
    run.  When no text starts with HANDSHAKE, or none with READY, it returns
    false; it makes at most 10 attempts and returns false only after all
    10. *)
Theorem performHandshake_two_sided (peer : string)
    (inbox : list (option Datagram)) :
  two_sided peer inbox /\ texts_only peer inbox.
Proof.
  split; [apply performHandshake_latches |].
  unfold texts_only, performHandshake.
  pose proof (handshake_loop_reads peer 10 inbox (mkHandshake 0 false false)) as Hreads.
  pose proof (handshake_step_request_first peer (hd None inbox)
                (mkHandshake 0 false false) eq_refl) as Hfirst.
  assert (Htexts : forall inbox',
            map received_text inbox' = map received_text inbox ->
            handshake_loop 10 peer inbox' (mkHandshake 0 false false)
            = handshake_loop 10 peer inbox (mkHandshake 0 false false)).
  { intros inbox' Hmap. apply handshake_loop_text. exact Hmap. }
  change (handshake_loop 10 peer inbox (mkHandshake 0 false false))
    with (let '(h1, evs) :=
            handshake_step peer (hd None inbox) (mkHandshake 0 false false) in
          let '(h2, evs') := handshake_loop 9 peer (tl inbox) h1 in
          (h2, evs ++ evs')) in *.
  destruct (handshake_step peer (hd None inbox) (mkHandshake 0 false false))
    as [h1 evs1].
  destruct Hfirst as (evs1' & Hevs1). cbn [snd] in Hevs1. subst evs1.
  destruct (handshake_loop 9 peer (tl inbox) h1) as [h evs'].
  cbn [attempts handshake_sent handshake_received] in Hreads.
  destruct Hreads as (Hsent & Hrecv).
  split; [| split].
  - intros Hok. apply andb_true_iff in Hok. destruct Hok as [Hs Hr].
    destruct (Hsent Hs) as [Habs | (i & Hi & Hci)]; [discriminate Habs |].
    destruct (Hrecv Hr) as [Habs | (j & Hj & Hcj)]; [discriminate Habs |].
    exists i, j. repeat split; try assumption; lia.
  - eexists. reflexivity.
  - intros inbox' Hmap. rewrite (Htexts inbox' Hmap). reflexivity.
Qed.

(** Two datagrams from a stranger, the peer silent: the handshake is
    declared successful. *)
Definition stranger_request : option Datagram :=
  Some (mkDatagram "HANDSHAKE:NODE1" "10.9.9.9").

Definition stranger_ready : option Datagram :=
  Some (mkDatagram "READY:NODE1" "10.9.9.9").

Example handshake_foreign_sender :
  fst (fst (performHandshake "192.168.1.7" [stranger_request; stranger_ready]))
  = true.
Proof. reflexivity. Qed.

(** *** The discovery filter *)

(** The sender id of a discovery message. *)
Definition sender_id_of (received : string) : string :=
  snd (fst (parse_discovery received)).

(** The broadcast this node sends. *)
Definition own_broadcast : string :=
  MSG_DISCOVER +:+ ":" +:+ NODE_ID +:+ ":" +:+ to_string CHAT_PORT.

Lemma own_broadcast_sender_id : sender_id_of own_broadcast = NODE_ID.
Proof. reflexivity. Qed.

(** C6 (as amended), for the discovery loop of the chat node: a received
    discovery message whose sender id is not the expected peer's id, and in
    particular the node's own looped-back broadcast, changes nothing: no
    peer is recorded and no acknowledgment is sent. *)
Theorem discovery_ignores_other_ids (recv : option Datagram) (st : Discovery) :
  (forall received,
     received_text recv = Some received ->
     sender_id_of received <> PEER_ID ->
     discovery_receive recv st = Ok (st, [])) /\
  (forall addr,
     discovery_receive (Some (mkDatagram own_broadcast addr)) st = Ok (st, [])).
Proof.
  split.
  - intros received Htext Hid. unfold discovery_receive.
    destruct recv as [d |]; [| reflexivity].
    rewrite Htext. unfold sender_id_of in Hid.
    destruct (parse_discovery received) as [[msg_type sender_id] port_str].
    cbn [fst snd] in Hid.
    destruct (String.eqb_spec sender_id PEER_ID) as [Heq | _];
      [contradiction |].
    rewrite !andb_false_r. reflexivity.
  - intros addr. reflexivity.
Qed.

End ChatNodeFacts.

(** ** The peer registry of NetworkManager (claims C3, C5, C6) *)

Module NetworkFacts.
Import Str Network.

(** A manager that has just been started. *)
Definition fresh_manager : Manager :=
  mkManager ∅ [] [] false DEFAULT_DATA_PORT.

(** *** Handshake: one acknowledgment is enough (claim C3) *)

Definition peer_ip : string := "192.168.1.7".
Definition peer_key : string := "192.168.1.7:45001".

(** The peer's broadcast is heard, then its HANDSHAKE_ACK. *)
Definition after_discovery : result (Manager * list Event) :=
  handle_discovery_message 1000 "0|AIMLAB_VR:45001" peer_ip fresh_manager.

Definition after_ack : result (Manager * list Event) :=
  bind after_discovery (fun r => receive 2000 "3|1.0" peer_ip 45001 (fst r)).

(** C3, as stated, fails for NetworkManager: after hearing the peer's
    broadcast (which makes it send HANDSHAKE_START) and then a single
    HANDSHAKE_ACK, the peer is marked connected, although no HANDSHAKE_START
    from the peer was ever received and no HANDSHAKE_ACK was ever sent to
    it; there is no attempt counter at all.  It also fails for the chat
    node where it speaks of the peer: with the peer at 192.168.1.7 silent,
    a HANDSHAKE and a READY datagram from 10.9.9.9 make [performHandshake]
    return true. *)
Lemma handshake_one_sided_counterexample :
  (exists m evs,
     after_ack = Ok (m, evs) /\
     (is_connected <$> peers m !! peer_key) = Some true /\
     map type (outgoing_messages m)
     = [MessageType_to_int HANDSHAKE_START; MessageType_to_int HANDSHAKE_COMPLETE] /\
     ~ In (MessageType_to_int HANDSHAKE_ACK) (map type (outgoing_messages m))) /\
  (fst (fst (ChatNode.performHandshake peer_ip
               [ChatNodeFacts.stranger_request; ChatNodeFacts.stranger_ready]))
   = true /\
   ChatNode.sender_addr <$> ChatNodeFacts.stranger_request = Some "10.9.9.9"%string /\
   ChatNode.sender_addr <$> ChatNodeFacts.stranger_ready = Some "10.9.9.9"%string).
Proof.
  split.
  - eexists. eexists. split; [vm_compute; reflexivity |].
    split; [vm_compute; reflexivity |].
    split; [reflexivity |].
    cbn. intuition discriminate.
  - split; [reflexivity | split; reflexivity].
Qed.

(** In general: a HANDSHAKE_ACK or a HANDSHAKE_COMPLETE from a known
    address marks the peer connected, whatever was exchanged before. *)
Lemma handshake_message_connects now msg m p :
  peers m !! peer_id_of (sender_ip msg) (sender_port msg) = Some p ->
  MessageType_of_int (type msg) = Some HANDSHAKE_ACK \/
  MessageType_of_int (type msg) = Some HANDSHAKE_COMPLETE ->
  is_connected <$>
    peers (fst (handle_incoming_message now msg m))
      !! peer_id_of (sender_ip msg) (sender_port msg)
  = Some true.
Proof.
  intros Hp Hty.
  assert (Href : peers (refresh_peer now msg m)
                   !! peer_id_of (sender_ip msg) (sender_port msg)
                 = Some (update_heartbeat now p)).
  { unfold refresh_peer. rewrite Hp. cbn [set_peers peers].
    apply lookup_insert_eq. }
  unfold handle_incoming_message, dispatch.
  destruct Hty as [-> | ->]; cbn [fst];
    unfold handle_handshake_ack, handle_handshake_complete, mark_peer_connected;
    cbn [push_outgoing peers]; rewrite Href; cbn [set_peers peers];
    rewrite lookup_insert_eq; reflexivity.
Qed.

(** *** Discovery: the own broadcast is taken for a peer (claim C6) *)

Definition own_ip : string := "192.168.1.5".
Definition own_key : string := "192.168.1.5:45001".

(** C6, as stated, fails for NetworkManager: its discovery message carries
    the application identifier only, the same for every node.  When the
    node's own broadcast comes back from its own address, a peer record for
    itself is created, an ACKNOWLEDGE is sent and a handshake with itself is
    queued. *)
Lemma self_discovery_counterexample :
  discovery_broadcast fresh_manager = "0|AIMLAB_VR:45001"%string /\
  fresh_manager.(peers) !! own_key = None /\
  exists m,
    handle_discovery_message 1000 (discovery_broadcast fresh_manager) own_ip
      fresh_manager
    = Ok (m, [EvDiscoverySend "1|AIMLAB_VR:45001" own_ip DISCOVERY_PORT]) /\
    peers m !! own_key = Some (PeerInfo_new own_ip 45001 1000) /\
    outgoing_messages m
    = [Message_new HANDSHAKE_START PROTOCOL_VERSION own_ip 45001].
Proof.
  split; [reflexivity | split; [reflexivity |]].
  eexists. split; [vm_compute; reflexivity |].
  split; vm_compute; reflexivity.
Qed.

(** *** Liveness (claim C5) *)

Lemma lookup_heartbeat_sweep now m peer_id :
  peers (heartbeat_sweep now m) !! peer_id
  = sweep_peer now <$> peers m !! peer_id.
Proof. unfold heartbeat_sweep. cbn [peers]. apply lookup_fmap. Qed.

Lemma lookup_refresh_peer now msg m p :
  peers m !! peer_id_of (sender_ip msg) (sender_port msg) = Some p ->
  peers (refresh_peer now msg m) !! peer_id_of (sender_ip msg) (sender_port msg)
  = Some (update_heartbeat now p).
Proof.
  intros Hp. unfold refresh_peer. rewrite Hp. cbn [set_peers peers].
  apply lookup_insert_eq.
Qed.

Lemma lookup_mark_peer_connected now ip port m p :
  peers m !! peer_id_of ip port = Some p ->
  peers (mark_peer_connected now ip port m) !! peer_id_of ip port
  = Some (update_heartbeat now (set_connected true p)).
Proof.
  intros Hp. unfold mark_peer_connected. rewrite Hp. cbn [set_peers peers].
  apply lookup_insert_eq.
Qed.

(** After an envelope from a known sender was handled, the sender's record
    carries the clock reading, unless the envelope was a DISCONNECT, which
    erases the record. *)
Lemma handle_incoming_message_refreshes now msg m p :
  peers m !! peer_id_of (sender_ip msg) (sender_port msg) = Some p ->
  let peer_id := peer_id_of (sender_ip msg) (sender_port msg) in
  let m' := fst (handle_incoming_message now msg m) in
  (MessageType_of_int (type msg) <> Some DISCONNECT ->
     exists p', peers m' !! peer_id = Some p' /\ last_heartbeat p' = now /\
                (is_connected p = true -> is_connected p' = true)) /\
  (MessageType_of_int (type msg) = Some DISCONNECT -> peers m' !! peer_id = None).
Proof.
  intros Hp peer_id m'.
  pose proof (lookup_refresh_peer now msg m p Hp) as Href.
  unfold m', handle_incoming_message, dispatch.
  set (m1 := refresh_peer now msg m) in *.
  split.
  - intros Hty.
    destruct (MessageType_of_int (type msg)) as [[] |]; cbn [fst];
      try (exists (update_heartbeat now p); split; [exact Href | split; [reflexivity | auto]]).
    + unfold handle_handshake_ack, peer_id.
      erewrite lookup_mark_peer_connected by exact Href.
      eexists. split; [reflexivity | split; [reflexivity | auto]].
    + unfold handle_handshake_complete, peer_id.
      erewrite lookup_mark_peer_connected by exact Href.
      eexists. split; [reflexivity | split; [reflexivity | auto]].
    + contradiction.
  - intros Hty. rewrite Hty. cbn [fst]. unfold handle_disconnect.
    cbn [set_peers peers]. apply lookup_delete_eq.
Qed.

Lemma to_milliseconds_window d :
  0 <= d <= CONNECTION_TIMEOUT_MS * 1000000 ->
  to_milliseconds d <= CONNECTION_TIMEOUT_MS.
Proof.
  intros Hd. unfold to_milliseconds, CONNECTION_TIMEOUT_MS in *.
  rewrite Z.quot_div_nonneg by lia.
  apply Z.div_le_upper_bound; lia.
Qed.

(** C5 (as amended): the sweep leaves every record in the registry and
    clears the connected flag of exactly those connected peers whose
    last-seen time lags the clock by more than 15000 whole milliseconds (the
    lag being truncated to milliseconds); a peer refreshed within the window
    keeps its flag; and every envelope handled by [handle_incoming_message]
    from a known peer address sets that peer's last-seen time to the clock
    reading, after which only a DISCONNECT removes the record. *)
Theorem liveness_sweep (now : Z) (m : Manager) (peer_id : string) (p : PeerInfo) :
  peers m !! peer_id = Some p ->
  peers (heartbeat_sweep now m) !! peer_id = Some (sweep_peer now p) /\
  last_heartbeat (sweep_peer now p) = last_heartbeat p /\
  (is_connected p = true ->
     (is_connected (sweep_peer now p) = false <->
      CONNECTION_TIMEOUT_MS < to_milliseconds (now - last_heartbeat p))) /\
  (is_connected p = false -> sweep_peer now p = p) /\
  (forall t msg,
     peer_id = peer_id_of (sender_ip msg) (sender_port msg) ->
     let m1 := fst (handle_incoming_message t msg m) in
     (MessageType_of_int (type msg) <> Some DISCONNECT ->
        exists p1, peers m1 !! peer_id = Some p1 /\ last_heartbeat p1 = t /\
          (is_connected p = true ->
           0 <= now - t <= CONNECTION_TIMEOUT_MS * 1000000 ->
           is_connected <$> peers (heartbeat_sweep now m1) !! peer_id = Some true)) /\
     (MessageType_of_int (type msg) = Some DISCONNECT ->
        peers m1 !! peer_id = None)).
Proof.
  intros Hp.
  split; [rewrite lookup_heartbeat_sweep, Hp; reflexivity |].
  split; [unfold sweep_peer; destruct (_ && _); reflexivity |].
  split; [| split].
  - intros Hc. unfold sweep_peer, is_timeout. rewrite Hc. cbn [andb].
    destruct (Z.ltb_spec CONNECTION_TIMEOUT_MS
                (to_milliseconds (now - last_heartbeat p))) as [Hlt | Hge].
    + cbn. tauto.
    + rewrite Hc. split; [discriminate | lia].
  - intros Hc. unfold sweep_peer. rewrite Hc. reflexivity.
  - intros t msg -> m1.
    destruct (handle_incoming_message_refreshes t msg m p Hp) as [Hkeep Hdrop].
    split; [| exact Hdrop].
    intros Hty. destruct (Hkeep Hty) as (p1 & Hp1 & Ht & Hconn).
    exists p1. split; [exact Hp1 | split; [exact Ht |]].
    intros Hc Hwin. fold m1 in Hp1.
    rewrite lookup_heartbeat_sweep, Hp1. cbn [fmap option_fmap option_map].
    f_equal. unfold sweep_peer, is_timeout. rewrite (Hconn Hc), Ht. cbn [andb].
    pose proof (to_milliseconds_window (now - t) Hwin) as Hms.
    destruct (Z.ltb_spec CONNECTION_TIMEOUT_MS (to_milliseconds (now - t)));
      [lia | exact (Hconn Hc)].
Qed.

(** A registry with one connected peer, last heard from at time 0. *)
Definition connected_peer : PeerInfo := mkPeerInfo peer_ip 45001 0 true.

Definition one_peer_manager : Manager :=
  mkManager {[ peer_key := connected_peer ]} [] [] false DEFAULT_DATA_PORT.

Lemma liveness_sweep_witness :
  peers (heartbeat_sweep 20000000000 one_peer_manager) !! peer_key
  = Some (sweep_peer 20000000000 connected_peer) /\
  last_heartbeat (sweep_peer 20000000000 connected_peer)
  = last_heartbeat connected_peer /\
  (is_connected connected_peer = true ->
     (is_connected (sweep_peer 20000000000 connected_peer) = false <->
      CONNECTION_TIMEOUT_MS
      < to_milliseconds (20000000000 - last_heartbeat connected_peer))) /\
  (is_connected connected_peer = false ->
     sweep_peer 20000000000 connected_peer = connected_peer) /\
  (forall t msg,
     peer_key = peer_id_of (sender_ip msg) (sender_port msg) ->
     let m1 := fst (handle_incoming_message t msg one_peer_manager) in
     (MessageType_of_int (type msg) <> Some DISCONNECT ->
        exists p1, peers m1 !! peer_key = Some p1 /\ last_heartbeat p1 = t /\
          (is_connected connected_peer = true ->
           0 <= 20000000000 - t <= CONNECTION_TIMEOUT_MS * 1000000 ->
           is_connected <$> peers (heartbeat_sweep 20000000000 m1) !! peer_key
           = Some true)) /\
     (MessageType_of_int (type msg) = Some DISCONNECT ->
        peers m1 !! peer_key = None)).
Proof.
  apply (liveness_sweep 20000000000 one_peer_manager peer_key connected_peer).
  vm_compute. reflexivity.
Defined.

(** C5, as stated, fails twice.  A connected peer whose last-seen time lags
    the clock by 15000.999999 ms, more than the threshold, is not touched by
    the sweep (and is sent a heartbeat): the lag is truncated to 15000 ms
    before the comparison.  And a peer lagging by 20 s is not removed: its
    record stays in the registry with the connected flag cleared. *)
Lemma liveness_sweep_counterexample :
  15000999999 - last_heartbeat connected_peer > CONNECTION_TIMEOUT_MS * 1000000 /\
  peers (heartbeat_sweep 15000999999 one_peer_manager) !! peer_key
  = Some connected_peer /\
  outgoing_messages (heartbeat_sweep 15000999999 one_peer_manager)
  = [Message_new HEARTBEAT EmptyString peer_ip 45001] /\
  peers (heartbeat_sweep 20000000000 one_peer_manager) !! peer_key
  = Some (set_connected false connected_peer).
Proof.
  split; [vm_compute; reflexivity |].
  split; [vm_compute; reflexivity |].
  split; vm_compute; reflexivity.
Qed.

End NetworkFacts.

(** ** The command handler *)

Module CommandFacts.
Import Str CommandChannel.

Definition known_command (cmd_type : string) : Prop :=
  cmd_type = CMD_OPEN_FILE \/ cmd_type = CMD_CLOSE_FILE \/
  cmd_type = CMD_STATUS \/ cmd_type = CMD_SHUTDOWN.

(** A reply is a status reply when it starts with ["STATUS:"]. *)
Definition is_status_reply (reply : string) : Prop :=
  starts_with (MSG_STATUS +:+ ":") reply = true.

Lemma substring_all s : String.substring 0 (String.length s) s = s.
Proof. induction s as [| a s IH]; [reflexivity |]. cbn. rewrite IH. reflexivity. Qed.

Lemma substr_from_CMD command :
  substr_from (String.length MSG_COMMAND + 1) (MSG_COMMAND +:+ ":" +:+ command)
  = command.
Proof.
  unfold substr_from, MSG_COMMAND. simpl.
  rewrite ?Nat.sub_0_r. apply substring_all.
Qed.

(** The handler itself: for every command whose sub-opcode (the text before
    the first colon) is none of OPEN_FILE, CLOSE_FILE, GET_STATUS, SHUTDOWN,
    it replies STATUS:UNKNOWN_COMMAND and changes nothing; each known
    sub-opcode runs its handler ([openDataFile], [closeDataFile], the status
    report, the shutdown) and yields a status reply; and the command branch
    of the receive loop sends the handler's reply back for a datagram
    ["CMD:<command>"]. *)
Lemma processCommand_replies (env : Env) (command : string) (g : Globals) :
  let '(reply, g', evs) := processCommand env command g in
  let cmd_type := cmd_type_of command in
  is_status_reply reply /\
  (~ known_command cmd_type ->
     reply = (MSG_STATUS +:+ ":UNKNOWN_COMMAND")%string /\ g' = g /\ evs = []) /\
  (cmd_type = CMD_OPEN_FILE ->
     exists filename,
       let '(ok, g1, evs1) := openDataFile env filename g in
       g' = g1 /\ evs = evs1 /\
       reply = if ok then MSG_STATUS +:+ ":FILE_OPENED:" +:+ current_filename g1
               else MSG_STATUS +:+ ":FILE_OPEN_FAILED") /\
  (cmd_type = CMD_CLOSE_FILE ->
     (g', evs) = closeDataFile g /\
     reply = (MSG_STATUS +:+ ":FILE_CLOSED")%string) /\
  (cmd_type = CMD_STATUS ->
     reply = status_report g /\ g' = g /\ evs = []) /\
  (cmd_type = CMD_SHUTDOWN ->
     running g' = false /\ file_open g' = false /\
     evs = (if file_open g then snd (closeDataFile g) else []) /\
     reply = (MSG_STATUS +:+ ":SHUTTING_DOWN")%string) /\
  handle_command_envelope env (MSG_COMMAND +:+ ":" +:+ command) g
  = Ok (g', [EvLog "COMMAND" ("Received: " +:+ command)] ++ evs ++ [EvSendTo reply]).
Proof.
  unfold handle_command_envelope.
  replace (String.length (MSG_COMMAND +:+ ":" +:+ command) <?
           String.length MSG_COMMAND + 1)%nat with false by reflexivity.
  rewrite substr_from_CMD.
  unfold processCommand, cmd_type_of, known_command, is_status_reply.
  destruct (getline ":" command) as [cmd_type stream]. cbn [fst].
  destruct (String.eqb_spec cmd_type CMD_OPEN_FILE) as [-> | Hopen].
  { destruct (getline_stream newline stream) as [filename rest].
    destruct (openDataFile env filename g) as [[ok g1] evs1] eqn:Hopen.
    destruct ok.
    - refine (conj eq_refl (conj _ (conj _ (conj _ (conj _ (conj _ eq_refl)))))).
      + intros Hn. exfalso. apply Hn. tauto.
      + intros _. exists filename. rewrite Hopen. auto.
      + discriminate.
      + discriminate.
      + discriminate.
    - refine (conj eq_refl (conj _ (conj _ (conj _ (conj _ (conj _ eq_refl)))))).
      + intros Hn. exfalso. apply Hn. tauto.
      + intros _. exists filename. rewrite Hopen. auto.
      + discriminate.
      + discriminate.
      + discriminate. }
  destruct (String.eqb_spec cmd_type CMD_CLOSE_FILE) as [-> | Hclose].
  { destruct (closeDataFile g) as [g1 evs1].
    refine (conj eq_refl (conj _ (conj _ (conj _ (conj _ (conj _ eq_refl)))))).
    - intros Hn. exfalso. apply Hn. tauto.
    - discriminate.
    - auto.
    - discriminate.
    - discriminate. }
  destruct (String.eqb_spec cmd_type CMD_STATUS) as [-> | Hstatus].
  { refine (conj eq_refl (conj _ (conj _ (conj _ (conj _ (conj _ eq_refl)))))).
    - intros Hn. exfalso. apply Hn. tauto.
    - discriminate.
    - discriminate.
    - auto.
    - discriminate. }
  destruct (String.eqb_spec cmd_type CMD_SHUTDOWN) as [-> | Hshutdown].
  { assert (Hclosed : file_open g = true -> file_open (fst (closeDataFile g)) = false).
    { intros Hf. unfold closeDataFile. rewrite Hf. reflexivity. }
    destruct (file_open g) eqn:Hf.
    - specialize (Hclosed eq_refl).
      destruct (closeDataFile g) as [g1 evs1]. cbn [fst snd] in *.
      refine (conj eq_refl (conj _ (conj _ (conj _ (conj _ (conj _ eq_refl)))))).
      + intros Hn. exfalso. apply Hn. tauto.
      + discriminate.
      + discriminate.
      + discriminate.
      + auto.
    - refine (conj eq_refl (conj _ (conj _ (conj _ (conj _ (conj _ eq_refl)))))).
      + intros Hn. exfalso. apply Hn. tauto.
      + discriminate.
      + discriminate.
      + discriminate.
      + auto. }
  refine (conj eq_refl (conj _ (conj _ (conj _ (conj _ (conj _ eq_refl)))))).
  - auto.
  - intros H. contradiction.
  - intros H. contradiction.
  - intros H. contradiction.
  - intros H. contradiction.
Qed.

Definition idle : Globals := mkGlobals true false 0 0 EmptyString.
Definition quiet_env : Env := mkEnv true "20251021_120000" true.

Example unknown_command_reply :
  processCommand quiet_env "RESET:now" idle = ("STATUS:UNKNOWN_COMMAND"%string, idle, []).
Proof. reflexivity. Qed.

Example open_file_reply :
  fst (fst (processCommand quiet_env "OPEN_FILE:run1.csv" idle))
  = "STATUS:FILE_OPENED:aimlab_data/run1.csv"%string.
Proof. reflexivity. Qed.

Example status_reply :
  fst (fst (processCommand quiet_env "GET_STATUS" idle))
  = "STATUS:RUNNING:file_open=false,filename=none,data_count=0,files_created=0"%string.
Proof. reflexivity. Qed.

(** A datagram that is just ["CMD"] never reaches the handler:
    [received.substr(4)] throws. *)
Example bare_command_envelope :
  handle_command_envelope quiet_env "CMD" idle = Throws "out_of_range".
Proof. reflexivity. Qed.

End CommandFacts.


(** ** Command envelopes in the receive loop (claim C9) *)

Module CommandEnvelope.
Import Str CommandChannel Recorder CommandFacts.

(** What [getline] read, put back together. *)
Lemma getline_inv (delim : ascii) :
  forall s field rest,
    getline delim s = (field, rest) ->
    s = match rest with
        | Some r => field +:+ String delim r
        | None => field
        end.
Proof.
  induction s as [| a s IH]; intros field rest Hg.
  - cbn in Hg. injection Hg as <- <-. reflexivity.
  - cbn [getline] in Hg. destruct (Ascii.eqb_spec a delim) as [-> | Hne].
    + injection Hg as <- <-. reflexivity.
    + destruct (getline delim s) as [f r] eqn:Hs.
      injection Hg as <- <-. rewrite (IH f r eq_refl) at 1.
      destruct r; reflexivity.
Qed.

Lemma getline_CMD (command : string) :
  getline ":" (MSG_COMMAND +:+ ":" +:+ command) = (MSG_COMMAND, Some command).
Proof. reflexivity. Qed.

(** C9, on the code: the receive loop takes a datagram for a COMMAND
    envelope when its text before the first colon is CMD, that is when the
    text is ["CMD"] or ["CMD:<command>"].  For ["CMD:<command>"] it hands
    the command to [processCommand] and sends the reply back: a status
    reply in every case, STATUS:UNKNOWN_COMMAND with nothing changed when
    the sub-opcode is none of OPEN_FILE, CLOSE_FILE, GET_STATUS, SHUTDOWN,
    and the reply of the corresponding handler otherwise.  For the bare
    ["CMD"], an envelope with an empty sub-opcode, [received.substr(4)]
    throws [out_of_range] before the handler is reached: no reply is sent
    and nothing catches the exception. *)
Theorem command_envelope_dispatch (env : Env) (ms : Z) (st : Receiver) :
  (forall received,
     fst (getline ":" received) = MSG_COMMAND <->
     received = MSG_COMMAND \/
     exists command, received = (MSG_COMMAND +:+ ":" +:+ command)%string) /\
  dataReceive env ms MSG_COMMAND st = Throws "out_of_range" /\
  (forall command,
     let '(reply, g', evs) := processCommand env command (globals st) in
     let cmd_type := cmd_type_of command in
     dataReceive env ms (MSG_COMMAND +:+ ":" +:+ command) st
     = Ok (mkReceiver g' (console_log_count st),
           [EvLog "COMMAND" ("Received: " +:+ command)] ++ evs ++ [EvSendTo reply]) /\
     is_status_reply reply /\
     (~ known_command cmd_type ->
        reply = (MSG_STATUS +:+ ":UNKNOWN_COMMAND")%string /\
        g' = globals st /\ evs = []) /\
     (cmd_type = CMD_OPEN_FILE ->
        exists filename,
          let '(ok, g1, evs1) := openDataFile env filename (globals st) in
          g' = g1 /\ evs = evs1 /\
          reply = if ok then MSG_STATUS +:+ ":FILE_OPENED:" +:+ current_filename g1
                  else MSG_STATUS +:+ ":FILE_OPEN_FAILED") /\
     (cmd_type = CMD_CLOSE_FILE ->
        (g', evs) = closeDataFile (globals st) /\
        reply = (MSG_STATUS +:+ ":FILE_CLOSED")%string) /\
     (cmd_type = CMD_STATUS ->
        reply = status_report (globals st) /\ g' = globals st /\ evs = []) /\
     (cmd_type = CMD_SHUTDOWN ->
        running g' = false /\ file_open g' = false /\
        evs = (if file_open (globals st) then snd (closeDataFile (globals st)) else []) /\
        reply = (MSG_STATUS +:+ ":SHUTTING_DOWN")%string)).
Proof.
  split; [| split].
  - intros received. split.
    + intros Hty. destruct (getline ":" received) as [field rest] eqn:Hg.
      cbn [fst] in Hty. subst field.
      pose proof (getline_inv ":" received _ _ Hg) as Hrec.
      destruct rest as [command |]; [right; exists command | left]; exact Hrec.
    + intros [-> | [command ->]]; [reflexivity |].
      rewrite getline_CMD. reflexivity.
  - reflexivity.
  - intros command.
    pose proof (processCommand_replies env command (globals st)) as H.
    unfold dataReceive. rewrite getline_CMD.
    change (String.eqb MSG_COMMAND MSG_COMMAND) with true. cbn iota.
    destruct (processCommand env command (globals st)) as [[reply g'] evs].
    destruct H as (Hst & Hunk & Hopen & Hclose & Hstatus & Hshut & Henv).
    rewrite Henv. cbn [bind fst snd].
    refine (conj eq_refl (conj Hst (conj Hunk (conj Hopen (conj Hclose
              (conj Hstatus Hshut)))))).
Qed.

(** The bare envelope ends the receive loop: a command that follows it is
    never handled. *)
Example bare_command_stops_loop :
  dataReceiveThread quiet_env [(0, "CMD"); (5, "CMD:GET_STATUS")]%string
    (mkReceiver idle 0)
  = Throws "out_of_range".
Proof. reflexivity. Qed.

(** The same envelope with its colon is answered. *)
Example empty_command_reply :
  dataReceive quiet_env 0 "CMD:" (mkReceiver idle 0)
  = Ok (mkReceiver idle 0,
        [EvLog "COMMAND" "Received: "; EvSendTo "STATUS:UNKNOWN_COMMAND"]).
Proof. reflexivity. Qed.

End CommandEnvelope.

(** ** More on the binary codec *)

Module CodecFacts.
Import Types DataPacket BitFacts DataPacketFacts.

Lemma land_255_uint8 x : is_uint8 (Z.land x 255).
Proof.
  unfold is_uint8. change 255 with (Z.ones 8).
  rewrite Z.land_ones by lia. apply Z.mod_pos_bound. lia.
Qed.

Lemma writeUint32_bytes v : Forall is_uint8 (writeUint32 v).
Proof. unfold writeUint32. repeat constructor; apply land_255_uint8. Qed.

Lemma writeUint64_bytes v : Forall is_uint8 (writeUint64 v).
Proof. unfold writeUint64. cbn [map]. repeat constructor; apply land_255_uint8. Qed.

Lemma writeBool_bytes b : Forall is_uint8 (writeBool b).
Proof. destruct b; repeat constructor; unfold is_uint8; lia. Qed.

Lemma uint8_t_uint8 x : is_uint8 (uint8_t x).
Proof. unfold is_uint8, uint8_t. apply Z.mod_pos_bound. lia. Qed.

Lemma writeDevice_bytes d : Forall is_uint8 (writeDevice d).
Proof.
  unfold writeDevice, writeFloat.
  repeat (apply Forall_app; split);
    first [ apply writeUint32_bytes | apply writeUint64_bytes
          | apply writeBool_bytes
          | repeat constructor; apply uint8_t_uint8 ].
Qed.

Lemma flat_map_writeDevice_length ds :
  length (flat_map writeDevice ds) = (53 * length ds)%nat.
Proof.
  induction ds as [| d ds IH]; [reflexivity |].
  cbn [flat_map]. rewrite length_app, writeDevice_length, IH. cbn [length]. lia.
Qed.

(** X1: whatever the packet holds, its binary form is the four bytes "AIML"
    followed by 18 more header bytes and 53 bytes per device, and every
    element of it is a byte. *)
Theorem serializeBinary_layout (p : DataPacket) :
  length (serializeBinary p) = (22 + 53 * length (m_devices p))%nat /\
  take 4 (serializeBinary p) = [65; 73; 77; 76] /\
  Forall is_uint8 (serializeBinary p).
Proof.
  split; [| split].
  - unfold serializeBinary.
    rewrite length_app, writeHeader_length, flat_map_writeDevice_length.
    reflexivity.
  - reflexivity.
  - unfold serializeBinary, writeHeader.
    repeat (apply Forall_app; split);
      try apply writeUint32_bytes; try apply writeUint64_bytes.
    + unfold writeUint16. repeat constructor; apply land_255_uint8.
    + apply Forall_flat_map, Forall_forall. intros d _. apply writeDevice_bytes.
Qed.

(** X2: a buffer that is too short for a header, or whose first four bytes
    are not "AIML", is rejected by a packet in Binary or MessagePack format:
    [deserialize] returns false and the packet keeps its contents. *)
Theorem deserialize_rejects (fresh : DeviceData) (data : list Z) (p : DataPacket) :
  m_format p <> JSON ->
  (length data < 22)%nat \/
  (Forall is_uint8 data /\ take 4 data <> [65; 73; 77; 76]) ->
  deserialize fresh data p = Returned (false, p).
Proof.
  intros Hfmt Hbad.
  assert (Hbin : deserializeBinary fresh data p = Returned (false, p)).
  { destruct Hbad as [Hshort | [Hbytes Hmagic]].
    - unfold deserializeBinary. apply Nat.ltb_lt in Hshort.
      rewrite Hshort. reflexivity.
    - apply Corrupted.deserializeBinary_wrong_magic; assumption. }
  unfold deserialize. destruct data as [| b bs]; [reflexivity |].
  destruct (m_format p); [exact Hbin | contradiction | exact Hbin].
Qed.

Lemma deserialize_rejects_witness :
  deserialize RoundTrip.sample_device [65; 73; 77; 75; 0; 1] (new Binary)
  = Returned (false, new Binary).
Proof.
  apply (deserialize_rejects RoundTrip.sample_device
           [65; 73; 77; 75; 0; 1] (new Binary)).
  - discriminate.
  - left. cbn. lia.
Defined.

(** X3: bytes after a serialized packet are ignored: the packet decodes as
    if they were not there. *)
Theorem deserializeBinary_ignores_trailing_bytes
    (fresh : DeviceData) (p q : DataPacket) (junk : list Z) :
  DataPacket_wf p ->
  Z.of_nat (length (m_devices p)) < 2 ^ 32 ->
  deserializeBinary fresh (serializeBinary p ++ junk) q
  = deserializeBinary fresh (serializeBinary p) q.
Proof.
  intros Hwf Hlen.
  rewrite (deserializeBinary_serializeBinary fresh p q Hwf Hlen).
  destruct Hwf as (Hdev & Hts & Hseq).
  replace (serializeBinary p ++ junk) with
    (writeUint32 magic ++
     writeBody (m_sequenceNumber p) (m_timestamp p) (deviceCount p)
               (m_devices p) ++ junk).
  - apply deserializeBinary_prefix; try assumption.
    + unfold deviceCount, uint32_t, is_uint32. apply Z.mod_pos_bound. lia.
    + unfold deviceCount, uint32_t. rewrite Z.mod_small by lia. lia.
  - unfold serializeBinary, writeHeader, writeBody.
    rewrite <- !app_assoc. reflexivity.
Qed.

Lemma deserializeBinary_ignores_trailing_bytes_witness :
  deserializeBinary RoundTrip.sample_device
    (serializeBinary RoundTrip.sample_packet ++ [1; 2; 3]) (new Binary)
  = deserializeBinary RoundTrip.sample_device
      (serializeBinary RoundTrip.sample_packet) (new Binary).
Proof.
  apply (deserializeBinary_ignores_trailing_bytes RoundTrip.sample_device
           RoundTrip.sample_packet (new Binary) [1; 2; 3]).
  - split; [| split].
    + constructor; [exact RoundTrip.sample_device_wf | constructor].
    + split; vm_compute; first [reflexivity | discriminate].
    + split; vm_compute; first [reflexivity | discriminate].
  - reflexivity.
Defined.

(** *** Where the decoder reads

    [exact r n]: started inside the buffer, [r] succeeds and advances the
    cursor by [n] when [n] bytes are left, and indexes past the end when
    fewer are. *)
Definition exact {A} (r : Reader A) (n : nat) : Prop :=
  forall data offset,
    (offset <= length data)%nat ->
    ((offset + n <= length data)%nat ->
       exists a, r data offset = Some (a, (offset + n)%nat)) /\
    ((length data < offset + n)%nat -> r data offset = None).














(** *** What the decoder looks at

    [suffix_local r]: the outcome of [r] depends only on the bytes from the
    cursor on. *)
Definition suffix_local {A} (r : Reader A) : Prop :=
  forall data data' offset offset',
    drop offset data = drop offset' data' ->
    match r data offset, r data' offset' with
    | Some (a, o), Some (a', o') => a = a' /\ drop o data = drop o' data'
    | None, None => True
    | _, _ => False
    end.

Lemma drop_shift (data data' : list Z) offset offset' n :
  drop offset data = drop offset' data' ->
  drop (offset + n) data = drop (offset' + n) data'.
Proof. intros H. rewrite <- !drop_drop, H. reflexivity. Qed.

Lemma lookup_shift (data data' : list Z) offset offset' i :
  drop offset data = drop offset' data' ->
  data !! (offset + i)%nat = data' !! (offset' + i)%nat.
Proof. intros H. rewrite <- !lookup_drop, H. reflexivity. Qed.

Lemma local_ret {A} (a : A) : suffix_local (rd_ret a).
Proof. intros data data' offset offset' H. cbn. auto. Qed.

Lemma local_bind {A B} (r : Reader A) (k : A -> Reader B) :
  suffix_local r -> (forall a, suffix_local (k a)) -> suffix_local (rd_bind r k).
Proof.
  intros Hr Hk data data' offset offset' H. unfold rd_bind.
  specialize (Hr data data' offset offset' H).
  destruct (r data offset) as [[a o] |], (r data' offset') as [[a' o'] |];
    try contradiction; [| exact I].
  destruct Hr as [<- Ho]. exact (Hk a data data' o o' Ho).
Qed.

Lemma local_readByte : suffix_local readByte.
Proof.
  intros data data' offset offset' H. unfold readByte.
  pose proof (lookup_shift data data' offset offset' 0 H) as H0.
  rewrite !Nat.add_0_r in H0. rewrite H0.
  destruct (data' !! offset'); [| exact I].
  split; [reflexivity |].
  rewrite <- (Nat.add_1_r offset), <- (Nat.add_1_r offset').
  apply drop_shift. exact H.
Qed.

Lemma local_readUint32 : suffix_local readUint32.
Proof.
  intros data data' offset offset' H. unfold readUint32.
  pose proof (lookup_shift data data' offset offset' 0 H) as H0.
  rewrite !Nat.add_0_r in H0.
  rewrite H0, (lookup_shift data data' offset offset' 1 H),
    (lookup_shift data data' offset offset' 2 H),
    (lookup_shift data data' offset offset' 3 H).
  destruct (data' !! offset'), (data' !! (offset' + 1)%nat),
           (data' !! (offset' + 2)%nat), (data' !! (offset' + 3)%nat);
    try exact I.
  split; [reflexivity | apply drop_shift; exact H].
Qed.

Lemma local_readBool : suffix_local readBool.
Proof.
  unfold readBool. apply local_bind; [exact local_readByte |].
  intros b. apply local_ret.
Qed.

Lemma local_readUint64 : suffix_local readUint64.
Proof.
  unfold readUint64. generalize 0 at 1. generalize 8%nat.
  induction n as [| n IH]; intros val; cbn [readUint64_loop].
  - apply local_ret.
  - apply local_bind; [exact local_readByte |]. intros b. apply IH.
Qed.

Ltac local_step L := apply local_bind; [exact L | intros ?].

Lemma local_readDevice fresh : suffix_local (readDevice fresh).
Proof.
  unfold readDevice, readFloat.
  local_step local_readUint32. local_step local_readByte.
  local_step local_readByte. local_step local_readBool.
  local_step local_readUint32. local_step local_readUint32.
  local_step local_readUint32. local_step local_readUint32.
  local_step local_readUint32. local_step local_readUint32.
  local_step local_readUint32. local_step local_readUint64.
  local_step local_readBool. local_step local_readBool.
  local_step local_readUint32. local_step local_readUint32.
  apply local_ret.
Qed.

Lemma local_readDevices fresh remaining :
  forall acc, suffix_local (readDevices fresh remaining acc).
Proof.
  induction remaining as [| remaining IH]; intros acc data data' offset offset' H;
    cbn [readDevices].
  - auto.
  - assert (Hlen : (offset <? length data)%nat = (offset' <? length data')%nat).
    { pose proof (f_equal (@length Z) H) as Hl. rewrite !length_drop in Hl.
      destruct (Nat.ltb_spec offset (length data)),
               (Nat.ltb_spec offset' (length data')); (reflexivity || lia). }
    rewrite Hlen. destruct (offset' <? length data')%nat; [| auto].
    pose proof (local_readDevice fresh data data' offset offset' H) as Hd.
    destruct (readDevice fresh data offset) as [[d o] |],
             (readDevice fresh data' offset') as [[d' o'] |];
      try contradiction; [| exact I].
    destruct Hd as [<- Ho]. exact (IH (acc ++ [d]) data data' o o' Ho).
Qed.

(** [readBody] past the version bytes. *)
Definition readFields (fresh : DeviceData) : Reader (Z * Z * list DeviceData) :=
  seq <~ readUint32 ;;
  ts <~ readUint64 ;;
  count <~ readUint32 ;;
  devices <~ readDevices fresh (Z.to_nat count) [] ;;
  rd_ret (seq, ts, devices).

Lemma readBody_readFields fresh data offset :
  readBody fresh data offset = readFields fresh data (offset + 2)%nat.
Proof. reflexivity. Qed.

Lemma local_readFields fresh : suffix_local (readFields fresh).
Proof.
  unfold readFields.
  local_step local_readUint32. local_step local_readUint64.
  local_step local_readUint32.
  apply local_bind; [apply local_readDevices | intros ?; apply local_ret].
Qed.

(** X5: the decoder never looks at the two version bytes: two buffers that
    differ only there decode alike. *)
Theorem deserializeBinary_ignores_version
    (fresh : DeviceData) (p : DataPacket)
    (m0 m1 m2 m3 v0 v1 v0' v1' : Z) (body : list Z) :
  deserializeBinary fresh (m0 :: m1 :: m2 :: m3 :: v0 :: v1 :: body) p
  = deserializeBinary fresh (m0 :: m1 :: m2 :: m3 :: v0' :: v1' :: body) p.
Proof.
  set (data := m0 :: m1 :: m2 :: m3 :: v0 :: v1 :: body).
  set (data' := m0 :: m1 :: m2 :: m3 :: v0' :: v1' :: body).
  unfold deserializeBinary.
  change (length data') with (length data).
  destruct (length data <? 22)%nat; [reflexivity |].
  change (readUint32 data' 0%nat) with (readUint32 data 0%nat).
  destruct (readUint32 data 0%nat) as [[m offset] |] eqn:Hm; [| reflexivity].
  assert (Hoff : offset = 4%nat) by (cbv in Hm; congruence). subst offset.
  destruct (negb (m =? magic)); [reflexivity |].
  rewrite !readBody_readFields.
  pose proof (local_readFields fresh data data' 6%nat 6%nat eq_refl) as Hloc.
  change (4 + 2)%nat with 6%nat.
  destruct (readFields fresh data 6%nat) as [[[[seq ts] ds] o] |],
           (readFields fresh data' 6%nat) as [[[[seq' ts'] ds'] o'] |];
    try contradiction; [| reflexivity].
  destruct Hloc as [Heq _]. injection Heq as -> -> ->. reflexivity.
Qed.

End CodecFacts.

(** ** What the JSON text carries *)

Module JsonFacts.
Import Types DataPacket.

(** The fields of a device that [serializeJSON] prints. *)
Definition json_fields (dev : DeviceData) : Z * DeviceType * Vector3.t * Quaternion.t :=
  (deviceId dev, deviceType dev, position (pose dev), rotation (pose dev)).

Lemma jsonDevice_fields format_float d d' :
  json_fields d = json_fields d' ->
  jsonDevice format_float d = jsonDevice format_float d'.
Proof.
  unfold json_fields, jsonDevice. intros [= -> -> -> ->]. reflexivity.
Qed.

Lemma jsonDevices_fields format_float :
  forall ds ds' first,
    map json_fields ds = map json_fields ds' ->
    jsonDevices format_float first ds = jsonDevices format_float first ds'.
Proof.
  induction ds as [| d ds IH]; intros [| d' ds'] first Hmap;
    try discriminate Hmap; [reflexivity |].
  cbn [map] in Hmap.
  pose proof (f_equal (hd (json_fields d)) Hmap) as Hd.
  pose proof (f_equal (@tl _) Hmap) as Hds.
  cbn [hd tl] in Hd, Hds.
  cbn [jsonDevices].
  rewrite (jsonDevice_fields format_float d d' Hd), (IH ds' false Hds).
  reflexivity.
Qed.

(** X23: the JSON text of a packet is determined by its sequence number,
    its timestamp and, per device, the id, the type, the position and the
    rotation; the tracking state, the connection flag, the pose timestamp
    and all button state never reach it, so packets that differ only there
    serialize to the same bytes. *)
Theorem serializeJSON_fields (format_float : float -> string) (p q : DataPacket) :
  m_sequenceNumber p = m_sequenceNumber q ->
  m_timestamp p = m_timestamp q ->
  map json_fields (m_devices p) = map json_fields (m_devices q) ->
  serializeJSON format_float p = serializeJSON format_float q.
Proof.
  intros Hseq Hts Hdev. unfold serializeJSON, jsonString.
  rewrite Hseq, Hts, (jsonDevices_fields format_float _ _ true Hdev).
  reflexivity.
Qed.

(** A tracked controller with its trigger pulled, and the same controller
    lost, disconnected and with no button pressed. *)
Definition tracked_controller : DeviceData :=
  {| deviceId := 2;
     deviceType := DeviceType_LeftController;
     trackingState := TrackingState_Tracked;
     pose := {| position := Vector3.mk 0x3FC00000 0x3F99999A 0xBE99999A;
                rotation := Quaternion.mk 0x3F800000 0 0 0;
                timestamp := 1000 |};
     buttons := {| trigger := true; grip := true; menu := false;
                   touchpad := false; thumbstick := false;
                   triggerValue := 0x3F800000; gripValue := 0x3F000000;
                   touchpadAxis := Vector3.default;
                   thumbstickAxis := Vector3.default |};
     isConnected := true;
     deviceName := "Left" |}.

Definition lost_controller : DeviceData :=
  {| deviceId := 2;
     deviceType := DeviceType_LeftController;
     trackingState := TrackingState_NotTracked;
     pose := {| position := Vector3.mk 0x3FC00000 0x3F99999A 0xBE99999A;
                rotation := Quaternion.mk 0x3F800000 0 0 0;
                timestamp := 0 |};
     buttons := {| trigger := false; grip := false; menu := false;
                   touchpad := false; thumbstick := false;
                   triggerValue := 0; gripValue := 0;
                   touchpadAxis := Vector3.default;
                   thumbstickAxis := Vector3.default |};
     isConnected := false;
     deviceName := "Left" |}.

(** A printer that shows every float as its bit pattern. *)
Definition print_bits : float -> string := to_string.

Lemma serializeJSON_fields_witness :
  serializeJSON print_bits (mkDataPacket [tracked_controller] 5000 7 JSON)
  = serializeJSON print_bits (mkDataPacket [lost_controller] 5000 7 JSON).
Proof.
  apply (serializeJSON_fields print_bits
           (mkDataPacket [tracked_controller] 5000 7 JSON)
           (mkDataPacket [lost_controller] 5000 7 JSON));
    reflexivity.
Defined.

End JsonFacts.

(** ** More on the streamer *)

Module StreamerExtras.
Import Types DataPacket Streamer StreamerFacts.

(** X6: [startStreaming] succeeds exactly when the streamer is idle,
    initialized and connected.  When it succeeds the session starts from
    zero counters with the stop flag clear and the thread is launched; when
    it is refused nothing is launched and neither the counters nor the
    streaming and stop flags change (a second start does not reset a
    running session). *)
Theorem startStreaming_guard (connected : bool) (now : Z) (s : Impl) :
  let '(ok, s', evs) := startStreaming connected now s in
  ok = negb (isStreaming s) && vrDevice s && networkManager s && connected /\
  (ok = true ->
     isStreaming s' = true /\ shouldStop s' = false /\
     totalPacketsSent s' = 0 /\ sequenceNumber s' = 0 /\ startTime s' = now /\
     In EvThreadStart evs) /\
  (ok = false ->
     isStreaming s' = isStreaming s /\ shouldStop s' = shouldStop s /\
     totalPacketsSent s' = totalPacketsSent s /\
     sequenceNumber s' = sequenceNumber s /\ startTime s' = startTime s /\
     ~ In EvThreadStart evs).
Proof.
  unfold startStreaming.
  destruct (isStreaming s) eqn:Hs; cbn [negb andb].
  { split; [reflexivity | split; [discriminate |]].
    intros _. cbn. rewrite Hs. intuition discriminate. }
  destruct (vrDevice s); cbn [negb orb andb].
  2:{ split; [reflexivity | split; [discriminate |]].
      intros _. cbn. rewrite Hs. intuition discriminate. }
  destruct (networkManager s); cbn [negb orb andb].
  2:{ split; [reflexivity | split; [discriminate |]].
      intros _. cbn. rewrite Hs. intuition discriminate. }
  destruct connected; cbn [negb].
  - split; [reflexivity | split; [| discriminate]].
    intros _. cbn. tauto.
  - split; [reflexivity | split; [discriminate |]].
    intros _. cbn. rewrite Hs. intuition discriminate.
Qed.

Lemma fold_addDevice_devices ds p :
  m_devices (fold_left (fun packet device => addDevice device packet) ds p)
  = m_devices p ++ ds.
Proof.
  revert p. induction ds as [| d ds IH]; intros p; cbn [fold_left].
  - rewrite app_nil_r. reflexivity.
  - rewrite IH. cbn [addDevice m_devices]. rewrite <- app_assoc. reflexivity.
Qed.

Lemma fold_addDevice_header ds p :
  m_timestamp (fold_left (fun packet device => addDevice device packet) ds p)
  = m_timestamp p /\
  m_format (fold_left (fun packet device => addDevice device packet) ds p)
  = m_format p.
Proof.
  revert p. induction ds as [| d ds IH]; intros p; cbn [fold_left]; [auto |].
  destruct (IH (addDevice d p)) as [-> ->]. auto.
Qed.

(** X7: the packet [sendFrame] builds holds the producer's devices in their
    order, the current sequence number and the clock reading in
    microseconds; and when these are well-formed values, what the peer
    decodes from its serialized form carries the same sequence number,
    timestamp and device wire fields. *)
Theorem frame_decodes_at_receiver
    (env : FrameEnv) (now : Z) (s : Impl)
    (format_float : float -> string) (fresh : DeviceData) (q : DataPacket) :
  is_uint32 (sequenceNumber s) ->
  Forall DeviceData_wf (devices env) ->
  Z.of_nat (length (devices env)) < 2 ^ 32 ->
  m_format q = Binary ->
  let packet := buildPacket env now s in
  m_devices packet = devices env /\
  m_sequenceNumber packet = sequenceNumber s /\
  m_timestamp packet = uint64_t (Z.quot now 1000) /\
  exists q',
    deserialize fresh (serialize format_float packet) q = Returned (true, q') /\
    m_sequenceNumber q' = sequenceNumber s /\
    m_timestamp q' = uint64_t (Z.quot now 1000) /\
    map wire_fields (m_devices q') = map wire_fields (devices env).
Proof.
  intros Hseq Hdev Hlen Hq packet.
  assert (Hd : m_devices packet = devices env).
  { unfold packet, buildPacket. rewrite fold_addDevice_devices. reflexivity. }
  assert (Hs : m_sequenceNumber packet = sequenceNumber s)
    by apply buildPacket_sequenceNumber.
  assert (Ht : m_timestamp packet = uint64_t (Z.quot now 1000)).
  { unfold packet, buildPacket.
    destruct (fold_addDevice_header (devices env)
                (setTimestamp (uint64_t (Z.quot now 1000))
                   (setSequenceNumber (sequenceNumber s) (new Binary)))) as [-> _].
    reflexivity. }
  assert (Hf : m_format packet = Binary).
  { unfold packet, buildPacket.
    destruct (fold_addDevice_header (devices env)
                (setTimestamp (uint64_t (Z.quot now 1000))
                   (setSequenceNumber (sequenceNumber s) (new Binary)))) as [_ ->].
    reflexivity. }
  split; [exact Hd | split; [exact Hs | split; [exact Ht |]]].
  assert (Hwf : DataPacket_wf packet).
  { split; [rewrite Hd; exact Hdev | split].
    - rewrite Ht. unfold is_uint64, uint64_t. apply Z.mod_pos_bound. lia.
    - rewrite Hs. exact Hseq. }
  pose proof (DataPacketFacts.deserializeBinary_serializeBinary fresh packet q Hwf
                ltac:(rewrite Hd; exact Hlen)) as Hrt.
  destruct (RoundTrip.serializeBinary_nonempty packet) as (b & bs & Hne).
  eexists. unfold serialize, deserialize. rewrite Hf, Hq, Hne.
  rewrite Hne in Hrt. rewrite Hq in Hrt.
  split; [exact Hrt |].
  cbn [m_sequenceNumber m_timestamp m_devices].
  rewrite RoundTrip.map_wire_fields_decoded, Hd. auto.
Qed.

Lemma frame_decodes_at_receiver_witness :
  let packet := buildPacket good_frame 5000 running_streamer in
  m_devices packet = devices good_frame /\
  m_sequenceNumber packet = sequenceNumber running_streamer /\
  m_timestamp packet = uint64_t (Z.quot 5000 1000) /\
  exists q',
    deserialize RoundTrip.sample_device
      (serialize (fun _ => EmptyString) packet) (new Binary)
    = Returned (true, q') /\
    m_sequenceNumber q' = sequenceNumber running_streamer /\
    m_timestamp q' = uint64_t (Z.quot 5000 1000) /\
    map wire_fields (m_devices q') = map wire_fields (devices good_frame).
Proof.
  apply (frame_decodes_at_receiver good_frame 5000 running_streamer
           (fun _ => EmptyString) RoundTrip.sample_device (new Binary)).
  - split; vm_compute; first [reflexivity | discriminate].
  - constructor; [exact RoundTrip.sample_device_wf | constructor].
  - reflexivity.
  - reflexivity.
Defined.

(** *** Rate and accounting *)

Lemma sendFrame_counters env now s :
  let '(ok, s', evs) := sendFrame env now s in
  totalPacketsSent s' = (if ok then uint64_t (totalPacketsSent s + 1)
                         else totalPacketsSent s) /\
  isStreaming s' = isStreaming s /\ shouldStop s' = shouldStop s /\
  errorCallback s' = errorCallback s /\
  dataSentCallback s' = dataSentCallback s.
Proof.
  unfold sendFrame.
  destruct (negb (vrDevice s) || negb (networkManager s)); [cbn; auto |].
  destruct (negb (update_ok env)); [cbn; auto |].
  destruct (negb (send_ok env)); cbn; auto.
Qed.





(** The callbacks invoked, in order. *)
Fixpoint sent_callbacks (evs : list Event) : list DataPacket :=
  match evs with
  | [] => []
  | EvDataSentCallback packet :: rest => packet :: sent_callbacks rest
  | _ :: rest => sent_callbacks rest
  end.

Fixpoint error_callbacks (evs : list Event) : list string :=
  match evs with
  | [] => []
  | EvErrorCallback msg :: rest => msg :: error_callbacks rest
  | _ :: rest => error_callbacks rest
  end.

Lemma sent_callbacks_app evs evs' :
  sent_callbacks (evs ++ evs') = sent_callbacks evs ++ sent_callbacks evs'.
Proof.
  induction evs as [| ev evs IH]; [reflexivity |].
  destruct ev; cbn [app sent_callbacks]; rewrite IH; reflexivity.
Qed.

Lemma error_callbacks_app evs evs' :
  error_callbacks (evs ++ evs') = error_callbacks evs ++ error_callbacks evs'.
Proof.
  induction evs as [| ev evs IH]; [reflexivity |].
  destruct ev; cbn [app error_callbacks]; rewrite IH; reflexivity.
Qed.

Lemma tick_accounting updateRate e s :
  errorCallback (impl s) = true -> dataSentCallback (impl s) = true ->
  let '(s', evs) := tick updateRate e s in
  (length (frames evs)
   = length (sent_callbacks evs) + length (error_callbacks evs))%nat /\
  sublist (sent_callbacks evs) (frames evs) /\
  errorCallback (impl s') = true /\ dataSentCallback (impl s') = true.
Proof.
  intros He Hd. unfold tick, sendFrame.
  destruct (negb (vrDevice (impl s)) || negb (networkManager (impl s))).
  { cbn. rewrite He, Hd. repeat split; constructor. }
  destruct (negb (update_ok (frame e))).
  { cbn. rewrite He, Hd. repeat split; constructor. }
  destruct (negb (send_ok (frame e))).
  - cbn [negb set_sequenceNumber errorCallback]. rewrite He.
    cbn. rewrite He, Hd. repeat split. repeat constructor.
  - cbn [negb set_sequenceNumber dataSentCallback]. rewrite Hd.
    destruct (_ <? _); cbn; rewrite He, Hd; repeat split; repeat constructor.
Qed.

(** X9: with both callbacks registered, every frame handed to the transport
    is reported exactly once, by the sent callback or by the error callback,
    and the sent callback receives frames that were handed over, in their
    order. *)
Theorem frames_are_reported
    (updateRate : Z) (ticks : list TickEnv) (s : Sched) :
  errorCallback (impl s) = true -> dataSentCallback (impl s) = true ->
  let evs := snd (streamingLoop updateRate ticks s) in
  (length (frames evs)
   = length (sent_callbacks evs) + length (error_callbacks evs))%nat /\
  sublist (sent_callbacks evs) (frames evs).
Proof.
  revert s. induction ticks as [| e rest IH]; intros s He Hd.
  - cbn. split; [reflexivity | constructor].
  - cbn [streamingLoop].
    set (s0 := if stop_called e
               then mkSched (stopStreaming (impl s)) (nextFrameTime s) (clock s)
               else s).
    assert (H0 : errorCallback (impl s0) = true /\ dataSentCallback (impl s0) = true).
    { unfold s0. destruct (stop_called e); [| auto].
      cbn. unfold stopStreaming. destruct (negb (isStreaming (impl s))); auto. }
    destruct H0 as [He0 Hd0].
    destruct (shouldStop (impl s0)).
    { cbn. split; [reflexivity | constructor]. }
    pose proof (tick_accounting updateRate e s0 He0 Hd0) as Ht.
    destruct (tick updateRate e s0) as [s1 evs].
    destruct Ht as (Hlen & Hsub & He1 & Hd1).
    specialize (IH s1 He1 Hd1).
    destruct (streamingLoop updateRate rest s1) as [s2 evs'].
    cbn [snd] in *. destruct IH as [IHlen IHsub].
    rewrite frames_app, sent_callbacks_app, error_callbacks_app, !length_app.
    split; [lia | apply sublist_app; assumption].
Qed.

Lemma frames_are_reported_witness :
  let evs := snd (streamingLoop 90 sample_ticks
                    (mkSched running_streamer 5000 5000)) in
  (length (frames evs)
   = length (sent_callbacks evs) + length (error_callbacks evs))%nat /\
  sublist (sent_callbacks evs) (frames evs).
Proof.
  exact (frames_are_reported 90 sample_ticks
           (mkSched running_streamer 5000 5000) eq_refl eq_refl).
Defined.

(** X10: once stopStreaming() has run, the thread leaves the loop at its
    next test: whatever the environment would have offered afterwards is
    never used, and no further frame is sent. *)
Theorem nothing_after_stop
    (updateRate : Z) (before after : list TickEnv) (e : TickEnv) (s : Sched) :
  isStreaming (impl s) = true ->
  stop_called e = true ->
  streamingLoop updateRate (before ++ e :: after) s
  = streamingLoop updateRate (before ++ [e]) s /\
  frames (snd (streamingLoop updateRate (before ++ e :: after) s))
  = frames (snd (streamingLoop updateRate before s)).
Proof.
  intros Hs He. revert s Hs.
  induction before as [| b before IH]; intros s Hs.
  - cbn [app streamingLoop]. rewrite He.
    cbn [impl]. unfold stopStreaming. rewrite Hs. cbn. auto.
  - cbn [app streamingLoop].
    set (s0 := if stop_called b
               then mkSched (stopStreaming (impl s)) (nextFrameTime s) (clock s)
               else s).
    destruct (shouldStop (impl s0)) eqn:Hstop; [auto |].
    assert (Hs0 : isStreaming (impl s0) = true).
    { unfold s0 in *. destruct (stop_called b); [| exact Hs].
      cbn in *. unfold stopStreaming in *. rewrite Hs in *. discriminate Hstop. }
    assert (Hs1 : isStreaming (impl (fst (tick updateRate b s0))) = true).
    { unfold tick.
      pose proof (sendFrame_counters (frame b) (clock s0) (impl s0)) as Hc.
      destruct (sendFrame (frame b) (clock s0) (impl s0)) as [[ok st] evs].
      destruct Hc as (_ & Hi & _).
      destruct (negb ok); [cbn; congruence |].
      destruct (_ <? _); cbn; congruence. }
    destruct (tick updateRate b s0) as [s1 evs]. cbn [fst] in Hs1.
    destruct (IH s1 Hs1) as [IH1 IH2].
    rewrite IH1.
    destruct (streamingLoop updateRate (before ++ [e]) s1) as [s2 evs2] eqn:E2.
    split; [reflexivity |].
    rewrite IH1 in IH2.
    destruct (streamingLoop updateRate before s1) as [s3 evs3].
    cbn [snd] in *. rewrite !frames_app, IH2. reflexivity.
Qed.

Lemma nothing_after_stop_witness :
  let e := mkTickEnv true good_frame 1000 0 in
  let s := mkSched running_streamer 5000 5000 in
  streamingLoop 90 (sample_ticks ++ e :: sample_ticks) s
  = streamingLoop 90 (sample_ticks ++ [e]) s /\
  frames (snd (streamingLoop 90 (sample_ticks ++ e :: sample_ticks) s))
  = frames (snd (streamingLoop 90 sample_ticks s)).
Proof.
  exact (nothing_after_stop 90 sample_ticks sample_ticks
           (mkTickEnv true good_frame 1000 0)
           (mkSched running_streamer 5000 5000) eq_refl eq_refl).
Defined.

End StreamerExtras.

(** ** Configuration and the frame period *)

Module ConfigFacts.
Import Streamer Config.

(** X11: a configuration passes [validate] exactly when it has a server
    address, a non-zero port and an update rate from 1 to 1000 Hz; the frame
    period computed from such a rate is then between 1 ms and 1 s, and it is
    the exact period rounded down to a whole microsecond, so the scheduled
    rate is never below the requested one. *)
Theorem validate_frame_period (c : StreamConfig) :
  is_uint32 (updateRate c) ->
  (fst (validate c) = true <->
   serverAddress c <> EmptyString /\ serverPort c <> 0 /\
   1 <= updateRate c <= 1000) /\
  (fst (validate c) = true ->
   snd (validate c) = [] /\
   1000000 <= frameDuration (updateRate c) <= 1000000000 /\
   updateRate c * frameDuration (updateRate c) <= 1000000000 /\
   1000000000 < updateRate c * (frameDuration (updateRate c) + 1000)) /\
  (fst (validate c) = false -> exists msg, snd (validate c) = [EvLog Error msg]).
Proof.
  intros [Hlo Hhi].
  assert (Hiff : fst (validate c) = true <->
                 serverAddress c <> EmptyString /\ serverPort c <> 0 /\
                 1 <= updateRate c <= 1000).
  { unfold validate. destruct (serverAddress c) eqn:Ha.
    - cbn. split; [discriminate | intros [H _]; contradiction].
    - destruct (Z.eqb_spec (serverPort c) 0) as [Hp | Hp].
      + cbn. split; [discriminate | intros (_ & H & _); contradiction].
      + destruct (Z.eqb_spec (updateRate c) 0) as [Hr | Hr]; cbn [orb].
        * cbn. split; [discriminate | lia].
        * destruct (Z.ltb_spec 1000 (updateRate c)); cbn.
          -- split; [discriminate | lia].
          -- split; [intros _ | reflexivity].
             split; [discriminate | split; [exact Hp | lia]]. }
  split; [exact Hiff | split].
  - intros Hok. destruct (proj1 Hiff Hok) as (_ & _ & Hr).
    split.
    { unfold validate in *. destruct (serverAddress c); [discriminate Hok |].
      destruct (serverPort c =? 0); [discriminate Hok |].
      destruct ((updateRate c =? 0) || (1000 <? updateRate c));
        [discriminate Hok | reflexivity]. }
    unfold frameDuration.
    pose proof (Z.mul_div_le 1000000 (updateRate c) ltac:(lia)) as Hle.
    pose proof (Z.mul_succ_div_gt 1000000 (updateRate c) ltac:(lia)) as Hgt.
    assert (1000 <= 1000000 / updateRate c).
    { apply Z.div_le_lower_bound; lia. }
    assert (1000000 / updateRate c <= 1000000).
    { apply Z.div_le_upper_bound; lia. }
    nia.
  - intros Hbad. unfold validate in *.
    destruct (serverAddress c); [eauto |].
    destruct (serverPort c =? 0); [eauto |].
    destruct ((updateRate c =? 0) || (1000 <? updateRate c)); [eauto |].
    discriminate Hbad.
Qed.

Lemma validate_frame_period_witness :
  (fst (validate defaults) = true <->
   serverAddress defaults <> EmptyString /\ serverPort defaults <> 0 /\
   1 <= updateRate defaults <= 1000) /\
  (fst (validate defaults) = true ->
   snd (validate defaults) = [] /\
   1000000 <= frameDuration (updateRate defaults) <= 1000000000 /\
   updateRate defaults * frameDuration (updateRate defaults) <= 1000000000 /\
   1000000000 < updateRate defaults * (frameDuration (updateRate defaults) + 1000)) /\
  (fst (validate defaults) = false ->
   exists msg, snd (validate defaults) = [EvLog Error msg]).
Proof.
  apply (validate_frame_period defaults).
  split; vm_compute; first [reflexivity | discriminate].
Defined.

End ConfigFacts.

(** ** The chat node: what a handshake costs and when it succeeds *)

Module ChatNodeExtras.
Import Str ChatNode ChatNodeFacts.

(** What reaches the peer first decides nothing: the datagram read at pass
    [i] is the [i]-th of the inbox. *)
Lemma nth_tl {A} (l : list A) (i : nat) (d : A) :
  nth i (tl l) d = nth (S i) l d.
Proof. destruct l; [destruct i |]; reflexivity. Qed.

Lemma nth_0_hd {A} (l : list A) (d : A) : nth 0 l d = hd d l.
Proof. destruct l; reflexivity. Qed.

Lemma handshake_loop_completes peer fuel :
  forall inbox h,
    10 - attempts h <= Z.of_nat fuel ->
    (handshake_received h = true \/
     exists i, Z.of_nat i < 10 - attempts h /\
               classify (nth i inbox None) = PeerRequest) ->
    (handshake_sent h = true \/
     exists j, Z.of_nat j < 10 - attempts h /\
               classify (nth j inbox None) = PeerReady) ->
    let h' := fst (handshake_loop fuel peer inbox h) in
    handshake_sent h' = true /\ handshake_received h' = true.
Proof.
  induction fuel as [| fuel IH]; intros inbox h Hfuel Hreq Hrdy.
  - cbn [handshake_loop fst].
    split.
    + destruct Hrdy as [H | (j & Hj & _)]; [exact H | lia].
    + destruct Hreq as [H | (i & Hi & _)]; [exact H | lia].
  - cbn [handshake_loop].
    destruct (Z.ltb_spec (attempts h) 10) as [Hlt | Hge]; cbn [andb].
    2:{ cbn [fst]. split.
        - destruct Hrdy as [H | (j & Hj & _)]; [exact H | lia].
        - destruct Hreq as [H | (i & Hi & _)]; [exact H | lia]. }
    destruct (negb (handshake_sent h) || negb (handshake_received h)) eqn:Hlatch.
    2:{ apply orb_false_iff in Hlatch. destruct Hlatch as [Hs Hr].
        apply negb_false_iff in Hs, Hr. cbn [fst]. split; assumption. }
    pose proof (handshake_step_spec peer (hd None inbox) h) as Hstep.
    destruct (handshake_step peer (hd None inbox) h) as [h1 evs].
    destruct Hstep as (Hatt & Hsent & Hrecv & _ & _).
    specialize (IH (tl inbox) h1).
    destruct (handshake_loop fuel peer (tl inbox) h1) as [h2 evs'].
    cbn [fst] in *. apply IH.
    + lia.
    + rewrite Hrecv. destruct Hreq as [-> | (i & Hi & Hc)]; [left; reflexivity |].
      destruct i as [| i].
      * left. rewrite nth_0_hd in Hc. rewrite Hc. apply orb_true_r.
      * right. exists i. rewrite nth_tl. split; [lia | exact Hc].
    + rewrite Hsent. destruct Hrdy as [-> | (j & Hj & Hc)]; [left; reflexivity |].
      destruct j as [| j].
      * left. rewrite nth_0_hd in Hc. rewrite Hc. apply orb_true_r.
      * right. exists j. rewrite nth_tl. split; [lia | exact Hc].
Qed.

(** X12: [performHandshake] succeeds whenever a HANDSHAKE request and a
    READY from the peer are both among the datagrams its first ten receive
    calls return, in either order and whatever else arrives in between. *)
Theorem performHandshake_completes (peer : string)
    (inbox : list (option Datagram)) (i j : nat) :
  (i < 10)%nat -> (j < 10)%nat ->
  classify (nth i inbox None) = PeerRequest ->
  classify (nth j inbox None) = PeerReady ->
  fst (fst (performHandshake peer inbox)) = true.
Proof.
  intros Hi Hj Hreq Hrdy. unfold performHandshake.
  pose proof (handshake_loop_completes peer 10 inbox (mkHandshake 0 false false)) as H.
  destruct (handshake_loop 10 peer inbox (mkHandshake 0 false false)) as [h evs].
  cbn [fst attempts handshake_sent handshake_received] in *.
  destruct H as [Hs Hr].
  - lia.
  - right. exists i. split; [lia | exact Hreq].
  - right. exists j. split; [lia | exact Hrdy].
  - rewrite Hs, Hr. reflexivity.
Qed.

Lemma performHandshake_completes_witness :
  fst (fst (performHandshake "192.168.1.7"
              [ready_from_peer; None; None; request_from_peer])) = true.
Proof.
  apply (performHandshake_completes "192.168.1.7"
           [ready_from_peer; None; None; request_from_peer] 3 0);
    first [lia | reflexivity].
Defined.

(** The time a run sleeps and what it sends. *)
Definition slept (evs : list Event) : Z :=
  fold_right (fun e acc => match e with EvSleep ms => ms + acc | _ => acc end) 0 evs.

Definition sent_to (evs : list Event) : list (string * string) :=
  flat_map (fun e => match e with EvSendTo msg addr => [(msg, addr)] | _ => [] end) evs.

Lemma slept_app evs evs' : slept (evs ++ evs') = slept evs + slept evs'.
Proof.
  induction evs as [| e evs IH]; [reflexivity |].
  unfold slept in *. destruct e; cbn [app fold_right] in *; lia.
Qed.

Lemma sent_to_app evs evs' : sent_to (evs ++ evs') = sent_to evs ++ sent_to evs'.
Proof. unfold sent_to. apply flat_map_app. Qed.

Definition handshake_traffic (peer : string) (m : string * string) : Prop :=
  snd m = peer /\ (fst m = handshake_msg \/ fst m = ready_msg).

Lemma handshake_step_cost peer recv h :
  let '(h1, evs) := handshake_step peer recv h in
  slept evs = 500 /\
  (length (sent_to evs) <= 2)%nat /\
  Forall (handshake_traffic peer) (sent_to evs).
Proof.
  unfold handshake_step, handshake_traffic.
  destruct (received_text recv) as [text |];
    [destruct (starts_with MSG_HANDSHAKE text);
       [| destruct (starts_with MSG_READY text)] |];
    destruct (handshake_sent h); cbn;
    (split; [reflexivity | split; [lia |]]);
    repeat (apply List.Forall_cons;
            [split; [reflexivity | first [left; reflexivity | right; reflexivity]] |]);
    apply List.Forall_nil.
Qed.

Lemma handshake_loop_cost peer fuel :
  forall inbox h,
    let '(h', evs) := handshake_loop fuel peer inbox h in
    slept evs = 500 * (attempts h' - attempts h) /\
    (Z.of_nat (length (sent_to evs)) <= 2 * (attempts h' - attempts h)) /\
    Forall (handshake_traffic peer) (sent_to evs).
Proof.
  induction fuel as [| fuel IH]; intros inbox h.
  - cbn. split; [lia | split; [lia | apply List.Forall_nil]].
  - cbn [handshake_loop].
    destruct ((attempts h <? 10) &&
              (negb (handshake_sent h) || negb (handshake_received h))).
    2:{ cbn. split; [lia | split; [lia | apply List.Forall_nil]]. }
    pose proof (handshake_step_spec peer (hd None inbox) h) as Hstep.
    pose proof (handshake_step_cost peer (hd None inbox) h) as Hcost.
    destruct (handshake_step peer (hd None inbox) h) as [h1 evs].
    destruct Hstep as (Hatt & _). destruct Hcost as (Hsl & Hlen & Hall).
    specialize (IH (tl inbox) h1).
    destruct (handshake_loop fuel peer (tl inbox) h1) as [h2 evs'].
    destruct IH as (IHsl & IHlen & IHall).
    rewrite slept_app, sent_to_app, length_app.
    split; [lia | split; [lia |]].
    apply Forall_app. split; assumption.
Qed.

(** X13: a run of [performHandshake] sleeps 500 ms for every attempt it
    makes, hence 5 s at most; it sends at most two datagrams per attempt,
    each of them to the peer and each either the handshake request or the
    READY reply. *)
Theorem performHandshake_budget (peer : string) (inbox : list (option Datagram)) :
  let '(ok, h, evs) := performHandshake peer inbox in
  slept evs = 500 * attempts h /\
  0 <= slept evs <= 5000 /\
  Z.of_nat (length (sent_to evs)) <= 2 * attempts h /\
  Forall (handshake_traffic peer) (sent_to evs).
Proof.
  unfold performHandshake.
  pose proof (handshake_loop_cost peer 10 inbox (mkHandshake 0 false false)) as Hc.
  pose proof (handshake_loop_spec peer 10 inbox (mkHandshake 0 false false)) as Hs.
  destruct (handshake_loop 10 peer inbox (mkHandshake 0 false false)) as [h evs].
  cbn [attempts] in *.
  destruct Hc as (Hsl & Hlen & Hall). destruct Hs as (Hlo & Hhi & _).
  split; [lia | split; [lia | split; [lia | exact Hall]]].
Qed.

(** *** Discovery: the port field *)

Lemma stoi_range s port : stoi s = Ok port -> - 2 ^ 31 <= port < 2 ^ 31.
Proof.
  unfold stoi.
  match goal with
  | |- context [let '(negative, s2) := ?e in _] => destruct e as [negative s2]
  end.
  destruct (read_digits s2 None) as [v |]; [| discriminate].
  destruct (_ && _)%bool eqn:H; [| discriminate].
  intros [= <-]. apply andb_true_iff in H. destruct H as [H1 H2].
  apply Z.leb_le in H1. apply Z.ltb_lt in H2. lia.
Qed.

(** X14: a DISCOVER or ACK message of the peer whose third field is
    [port_field] is accepted with whatever [stoi] makes of that field: the
    peer is recorded at the datagram's address with that number as its
    port, any [int], negative or beyond 65535 included, and only a DISCOVER
    is acknowledged; when [stoi] throws, so does the receive step, and a
    message that ends after the peer's id always makes it throw. *)
Theorem discovery_port_field (d : Datagram) (st : Discovery)
    (kind tail : string) :
  kind = MSG_DISCOVER \/ kind = MSG_ACKNOWLEDGE ->
  received_text (Some d) = Some (kind +:+ ":" +:+ PEER_ID +:+ tail) ->
  (tail = EmptyString ->
   discovery_receive (Some d) st = Throws "invalid_argument") /\
  (forall rest, tail = String ":" rest ->
     let port_field := fst (getline ":" rest) in
     (forall port, stoi port_field = Ok port ->
        - 2 ^ 31 <= port < 2 ^ 31 /\
        discovery_receive (Some d) st
        = Ok (mkDiscovery true (sender_addr d) port,
              if String.eqb kind MSG_DISCOVER
              then [EvSendTo "ACK:NODE2:50003" (sender_addr d)] else [])) /\
     (forall what, stoi port_field = Throws what ->
        discovery_receive (Some d) st = Throws what)).
Proof.
  intros Hkind Htext.
  split.
  - intros ->. unfold discovery_receive. rewrite Htext.
    destruct Hkind as [-> | ->]; reflexivity.
  - intros rest -> port_field. subst port_field.
    unfold discovery_receive. rewrite Htext.
    assert (Hparse : parse_discovery (kind +:+ ":" +:+ PEER_ID +:+ String ":" rest)
                     = (kind, PEER_ID, fst (getline ":" rest))).
    { unfold parse_discovery.
      destruct Hkind as [-> | ->];
        unfold MSG_DISCOVER, MSG_ACKNOWLEDGE, PEER_ID; simpl;
        destruct (getline ":" rest); reflexivity. }
    rewrite Hparse.
    split.
    + intros port Hport. split; [exact (stoi_range _ _ Hport) |].
      destruct Hkind as [-> | ->]; cbn [String.eqb]; cbn; rewrite Hport; reflexivity.
    + intros what Hthrow.
      destruct Hkind as [-> | ->]; cbn; rewrite Hthrow; reflexivity.
Qed.

Definition announcement : Datagram :=
  mkDatagram "DISCOVER:NODE1:70000:extra" "192.168.1.7".

Lemma discovery_port_field_witness :
  (":70000:extra"%string = EmptyString ->
   discovery_receive (Some announcement) (mkDiscovery false EmptyString 0)
   = Throws "invalid_argument") /\
  (forall rest, ":70000:extra"%string = String ":" rest ->
     let port_field := fst (getline ":" rest) in
     (forall port, stoi port_field = Ok port ->
        - 2 ^ 31 <= port < 2 ^ 31 /\
        discovery_receive (Some announcement) (mkDiscovery false EmptyString 0)
        = Ok (mkDiscovery true (sender_addr announcement) port,
              if String.eqb MSG_DISCOVER MSG_DISCOVER
              then [EvSendTo "ACK:NODE2:50003" (sender_addr announcement)] else [])) /\
     (forall what, stoi port_field = Throws what ->
        discovery_receive (Some announcement) (mkDiscovery false EmptyString 0)
        = Throws what)).
Proof.
  apply (discovery_port_field announcement (mkDiscovery false EmptyString 0)
           MSG_DISCOVER ":70000:extra").
  - left. reflexivity.
  - vm_compute. reflexivity.
Defined.

End ChatNodeExtras.

(** ** NetworkManager: messages, queues and the registry *)

Module NetworkExtras.
Import Str Network NetworkQueues NetworkFacts.

(** *** The envelope *)

Lemma substr_from_all (s : string) : substr_from 0 s = s.
Proof.
  unfold substr_from. rewrite Nat.sub_0_r. apply CommandFacts.substring_all.
Qed.

Lemma deserialize_envelope (t : MessageType) (p : string) :
  deserialize (to_string (MessageType_to_int t) +:+ "|" +:+ p)
  = Ok (Message_new t p EmptyString 0).
Proof.
  unfold Message_new, deserialize.
  destruct t; unfold substr_from; simpl;
    rewrite ?Nat.sub_0_r, CommandFacts.substring_all; reflexivity.
Qed.

(** X15: an envelope built by the program survives [serialize] followed by
    [deserialize], for every message type and every payload, a payload
    holding the delimiter included; the address fields are not carried. *)
Theorem Message_round_trip (t : MessageType) (p ip : string) (port : Z) :
  deserialize (serialize (Message_new t p ip port))
  = Ok (Message_new t p EmptyString 0).
Proof.
  unfold serialize, Message_new at 1. cbn [type payload].
  apply deserialize_envelope.
Qed.

(** *** From [send_to_peer] to [get_message] *)

Lemma substring_short (s : string) (n : nat) :
  (String.length s <= n)%nat -> String.substring 0 n s = s.
Proof.
  revert n. induction s as [| a s IH]; intros n Hn.
  - destruct n; reflexivity.
  - destruct n as [| n]; [cbn in Hn; lia |].
    cbn. rewrite IH by (cbn in Hn; lia). reflexivity.
Qed.

Lemma c_str_no_nul (s : string) : find_char Ascii.zero s = None -> c_str s = s.
Proof.
  induction s as [| a s IH]; [reflexivity |].
  cbn [find_char c_str]. destruct (Ascii.eqb a Ascii.zero); [discriminate |].
  destruct (find_char Ascii.zero s); [discriminate |].
  intros _. rewrite IH by reflexivity. reflexivity.
Qed.

Lemma receive_from_DATA (data : string) :
  receive_from (serialize (Message_new DATA data EmptyString 0))
  = Some (String "5" (String "|" (String.substring 0 (BUFFER_SIZE - 3) data))).
Proof.
  unfold receive_from, serialize, Message_new. cbn [type payload].
  change (BUFFER_SIZE - 1)%nat with (S (S (BUFFER_SIZE - 3))).
  reflexivity.
Qed.

Lemma deserialize_DATA (p : string) :
  deserialize (String "5" (String "|" p)) = Ok (Message_new DATA p EmptyString 0).
Proof. exact (deserialize_envelope DATA p). Qed.

Lemma refresh_peer_queues now msg m :
  incoming_messages (refresh_peer now msg m) = incoming_messages m /\
  outgoing_messages (refresh_peer now msg m) = outgoing_messages m /\
  message_handler (refresh_peer now msg m) = message_handler m.
Proof.
  unfold refresh_peer.
  destruct (peers m !! peer_id_of (sender_ip msg) (sender_port msg));
    repeat split; reflexivity.
Qed.

(** X16: data handed to [send_to_peer] leaves [send_worker] as one
    datagram addressed to that peer, and [receive_worker] on the other side
    turns that datagram into one DATA message at the back of the incoming
    queue, handed to the message handler if one is set and returned by
    [get_message] when the queue was empty; the payload arrives cut after
    [BUFFER_SIZE - 3] characters and at its first NUL, and unchanged when it
    is shorter than that and holds no NUL. *)
Theorem data_delivery (data dest src : string) (dest_port src_port now : Z)
    (m r : Manager) :
  let sent := Message_new DATA data dest dest_port in
  let received :=
    mkMessage (MessageType_to_int DATA)
              (c_str (String.substring 0 (BUFFER_SIZE - 3) data)) src src_port in
  snd (send_worker (send_to_peer dest dest_port data m))
  = map datagram_of (outgoing_messages m) ++ [(serialize sent, dest, dest_port)] /\
  (exists r',
     receive_worker now (serialize sent) src src_port r
     = Ok (r', if message_handler r then [EvMessageHandler received] else []) /\
     incoming_messages r' = incoming_messages r ++ [received] /\
     outgoing_messages r' = outgoing_messages r /\
     (incoming_messages r = [] -> fst (get_message r') = Some received)) /\
  ((String.length data <= BUFFER_SIZE - 3)%nat ->
   find_char Ascii.zero data = None ->
   payload received = data).
Proof.
  intros sent received. split; [| split].
  - unfold send_worker, send_to_peer, push_outgoing. cbn [snd outgoing_messages].
    rewrite map_app. reflexivity.
  - unfold receive_worker.
    change (serialize sent) with (serialize (Message_new DATA data EmptyString 0)).
    rewrite receive_from_DATA. unfold receive.
    change (c_str (String "5" (String "|" (String.substring 0 (BUFFER_SIZE - 3) data))))
      with (String "5" (String "|" (c_str (String.substring 0 (BUFFER_SIZE - 3) data)))).
    rewrite deserialize_DATA. cbn [bind Message_new type payload].
    fold received.
    unfold handle_incoming_message, dispatch.
    change (MessageType_of_int (type received)) with (Some DATA).
    rewrite (proj2 (proj2 (refresh_peer_queues _ _ _))).
    eexists. split; [reflexivity |].
    cbn [push_incoming incoming_messages outgoing_messages].
    rewrite (proj1 (refresh_peer_queues _ _ _)).
    rewrite (proj1 (proj2 (refresh_peer_queues _ _ _))).
    split; [reflexivity | split; [reflexivity |]].
    intros Hempty. unfold get_message. cbn [push_incoming incoming_messages].
    rewrite (proj1 (refresh_peer_queues _ _ _)), Hempty. reflexivity.
  - intros Hlen Hnul. cbn [payload received].
    rewrite substring_short by exact Hlen. apply c_str_no_nul. exact Hnul.
Qed.

(** *** The registry under incoming messages *)

Lemma peers_refresh_peer now msg m k :
  peers (refresh_peer now msg m) !! k
  = if decide (k = peer_id_of (sender_ip msg) (sender_port msg))
    then update_heartbeat now <$> peers m !! k
    else peers m !! k.
Proof.
  unfold refresh_peer.
  destruct (decide (k = peer_id_of (sender_ip msg) (sender_port msg))) as [-> | Hne].
  - destruct (peers m !! peer_id_of (sender_ip msg) (sender_port msg)) eqn:Hp.
    + cbn [set_peers peers]. rewrite lookup_insert_eq. reflexivity.
    + rewrite Hp. reflexivity.
  - destruct (peers m !! peer_id_of (sender_ip msg) (sender_port msg)).
    + cbn [set_peers peers]. rewrite lookup_insert_ne by congruence. reflexivity.
    + reflexivity.
Qed.

Lemma peers_mark_peer_connected now ip port m k :
  peers (mark_peer_connected now ip port m) !! k
  = if decide (k = peer_id_of ip port)
    then (fun p => update_heartbeat now (set_connected true p)) <$> peers m !! k
    else peers m !! k.
Proof.
  unfold mark_peer_connected.
  destruct (decide (k = peer_id_of ip port)) as [-> | Hne].
  - destruct (peers m !! peer_id_of ip port) eqn:Hp.
    + cbn [set_peers peers]. rewrite lookup_insert_eq. reflexivity.
    + rewrite Hp. reflexivity.
  - destruct (peers m !! peer_id_of ip port).
    + cbn [set_peers peers]. rewrite lookup_insert_ne by congruence. reflexivity.
    + reflexivity.
Qed.

(** X17: handling an incoming message touches no record but the sender's,
    never creates a record, and sets [is_connected] only for a sender that
    is already in the registry and only on a HANDSHAKE_ACK or a
    HANDSHAKE_COMPLETE: heartbeats and data from a peer that was marked
    disconnected do not bring it back. *)
Theorem handle_incoming_message_registry (now : Z) (msg : Message) (m : Manager) :
  let sender := peer_id_of (sender_ip msg) (sender_port msg) in
  let m' := fst (handle_incoming_message now msg m) in
  (forall k, k <> sender -> peers m' !! k = peers m !! k) /\
  (peers m !! sender = None -> peers m' !! sender = None) /\
  (forall k p', peers m' !! k = Some p' -> is_connected p' = true ->
     (exists p, peers m !! k = Some p /\ is_connected p = true) \/
     (k = sender /\ is_Some (peers m !! sender) /\
      (MessageType_of_int (type msg) = Some HANDSHAKE_ACK \/
       MessageType_of_int (type msg) = Some HANDSHAKE_COMPLETE))).
Proof.
  intros sender m'.
  assert (Hcases :
    forall k,
      peers m' !! k
      = if decide (k = sender)
        then match MessageType_of_int (type msg) with
             | Some HANDSHAKE_ACK | Some HANDSHAKE_COMPLETE =>
                 (fun p => update_heartbeat now (set_connected true (update_heartbeat now p)))
                   <$> peers m !! k
             | Some DISCONNECT => None
             | _ => update_heartbeat now <$> peers m !! k
             end
        else peers m !! k).
  { intros k. unfold m', handle_incoming_message, dispatch.
    pose proof (peers_refresh_peer now msg m k) as Href. fold sender in Href.
    destruct (MessageType_of_int (type msg)) as [[] |]; cbn [fst];
      unfold handle_handshake_start, handle_handshake_ack,
        handle_handshake_complete, handle_disconnect;
      cbn [push_outgoing push_incoming peers set_peers];
      rewrite ?peers_mark_peer_connected; cbn [push_outgoing peers];
      fold sender;
      try (rewrite Href; destruct (decide (k = sender)); [| reflexivity];
           destruct (peers m !! k); reflexivity).
    destruct (decide (k = sender)) as [-> | Hne].
    - apply lookup_delete_eq.
    - rewrite lookup_delete_ne by congruence. rewrite Href.
      destruct (decide (k = sender)); [contradiction | reflexivity]. }
  split; [| split].
  - intros k Hk. rewrite Hcases. destruct (decide (k = sender)); [contradiction | reflexivity].
  - intros Hnone. rewrite Hcases. destruct (decide (sender = sender)); [| contradiction].
    rewrite Hnone. destruct (MessageType_of_int (type msg)) as [[] |]; reflexivity.
  - intros k p' Hk Hconn. rewrite Hcases in Hk.
    destruct (decide (k = sender)) as [-> | Hne].
    2:{ left. exists p'. split; assumption. }
    destruct (peers m !! sender) as [p |] eqn:Hp.
    2:{ destruct (MessageType_of_int (type msg)) as [[] |]; discriminate Hk. }
    destruct (MessageType_of_int (type msg)) as [[] |] eqn:Hty;
      cbn in Hk; try discriminate Hk;
      try (right; split; [reflexivity | split; [eexists; reflexivity | auto]]; fail);
      injection Hk as <-; left; exists p; (split; [reflexivity | exact Hconn]).
Qed.

(** *** Discovery is settled after one delivery *)

(** X18: whatever a discovery datagram makes [handle_discovery_message]
    do, it leaves every existing record as it is; a record it adds is that
    of the datagram's sender, stamped with the clock reading and not
    connected; and delivering the same datagram again changes nothing and
    sends nothing: no second acknowledgement, no second handshake. *)
Theorem handle_discovery_message_settles (now now' : Z) (data sender : string)
    (m m' : Manager) (evs : list Event) :
  handle_discovery_message now data sender m = Ok (m', evs) ->
  (forall k p, peers m !! k = Some p -> peers m' !! k = Some p) /\
  (forall k p, peers m !! k = None -> peers m' !! k = Some p ->
     ip_address p = sender /\ last_heartbeat p = now /\ is_connected p = false /\
     k = peer_id_of sender (port p)) /\
  handle_discovery_message now' data sender m' = Ok (m', []).
Proof.
  unfold handle_discovery_message.
  destruct (deserialize data) as [msg | what]; cbn [bind]; [| discriminate].
  destruct (starts_with APP_IDENTIFIER (payload msg)).
  2:{ intros [= <- <-]. repeat split; try congruence. }
  destruct (find_last_of ":" (payload msg)) as [colon_pos |].
  2:{ intros [= <- <-]. repeat split; try congruence. }
  destruct (stoi (substr_from (S colon_pos) (payload msg))) as [peer_port | what];
    cbn [bind]; [| discriminate].
  destruct (peers m !! peer_id_of sender peer_port) as [p0 |] eqn:Hp.
  { intros [= <- <-]. rewrite Hp. repeat split; try congruence. }
  assert (Hnew : forall m1 evs1,
            peers m1 = <[peer_id_of sender peer_port :=
                           PeerInfo_new sender peer_port now]> (peers m) ->
            Ok (m1, evs1) = Ok (m', evs) ->
            (forall k p, peers m !! k = Some p -> peers m' !! k = Some p) /\
            (forall k p, peers m !! k = None -> peers m' !! k = Some p ->
               ip_address p = sender /\ last_heartbeat p = now /\
               is_connected p = false /\ k = peer_id_of sender (port p)) /\
            match peers m' !! peer_id_of sender peer_port with
            | Some _ => Ok (m', [])
            | None =>
                if type msg =? MessageType_to_int DISCOVER
                then Ok (initiate_handshake sender peer_port
                           (set_peers (<[peer_id_of sender peer_port :=
                                           PeerInfo_new sender peer_port now']>
                                         (peers m')) m'),
                         [EvDiscoverySend
                            (serialize
                               (Message_new ACKNOWLEDGE
                                  (APP_IDENTIFIER +:+ ":" +:+ to_string (local_port m'))
                                  EmptyString 0)) sender DISCOVERY_PORT])
                else Ok (set_peers (<[peer_id_of sender peer_port :=
                                        PeerInfo_new sender peer_port now']>
                                      (peers m')) m', [])
            end = Ok (m', [])).
  { intros m1 evs1 Hpeers [= <- <-]. rewrite Hpeers.
    split; [| split].
    - intros k p Hk. rewrite lookup_insert_ne; [exact Hk |]. congruence.
    - intros k p Hnone Hsome.
      destruct (decide (k = peer_id_of sender peer_port)) as [-> | Hne].
      + rewrite lookup_insert_eq in Hsome. injection Hsome as <-.
        repeat split; reflexivity.
      + rewrite lookup_insert_ne in Hsome by congruence. congruence.
    - rewrite lookup_insert_eq. reflexivity. }
  destruct (type msg =? MessageType_to_int DISCOVER); apply Hnew; reflexivity.
Qed.

(** The peer's broadcast has been heard once. *)
Definition discovered : Manager :=
  initiate_handshake peer_ip 45001
    (set_peers (<[peer_key := PeerInfo_new peer_ip 45001 1000]> ∅) fresh_manager).

Lemma handle_discovery_message_settles_witness :
  handle_discovery_message 5000 "0|AIMLAB_VR:45001" peer_ip discovered
  = Ok (discovered, []).
Proof.
  pose proof (handle_discovery_message_settles 1000 5000 "0|AIMLAB_VR:45001"
                peer_ip fresh_manager discovered
                [EvDiscoverySend "1|AIMLAB_VR:45001" peer_ip DISCOVERY_PORT]
                ltac:(vm_compute; reflexivity)) as H.
  exact (proj2 (proj2 H)).
Defined.

(** *** Who is written to *)

Lemma In_peers_in_order (ps : gmap string PeerInfo) (k : string) (p : PeerInfo) :
  In (k, p) (peers_in_order ps) <-> ps !! k = Some p.
Proof.
  unfold peers_in_order. rewrite <- list_elem_of_In.
  rewrite (merge_sort_Permutation key_le (map_to_list ps)).
  apply elem_of_map_to_list.
Qed.

Lemma In_flat_map_peers (ps : gmap string PeerInfo)
    (f : PeerInfo -> list Message) (msg : Message) :
  In msg (flat_map (fun kv => f (snd kv)) (peers_in_order ps))
  <-> exists k p, ps !! k = Some p /\ In msg (f p).
Proof.
  rewrite in_flat_map. split.
  - intros ([k p] & Hin & Hmsg). exists k, p.
    split; [apply In_peers_in_order; exact Hin | exact Hmsg].
  - intros (k & p & Hp & Hmsg). exists (k, p).
    split; [apply In_peers_in_order; exact Hp | exact Hmsg].
Qed.

(** X19: one pass of [heartbeat_worker] queues a heartbeat for exactly the
    peers that [get_connected_peers] lists at that moment, addressed to the
    peer's own address; it leaves the incoming queue alone, and the set of
    connected peers is the same before and after the pass. *)
Theorem heartbeat_sweep_heartbeats (now : Z) (m : Manager) :
  let m' := heartbeat_sweep now m in
  (exists beats,
     outgoing_messages m' = outgoing_messages m ++ beats /\
     forall msg,
       In msg beats <->
       exists k p, peers m !! k = Some p /\ connected now m k = true /\
                   msg = Message_new HEARTBEAT EmptyString (ip_address p) (port p)) /\
  (forall k, connected now m' k = connected now m k) /\
  incoming_messages m' = incoming_messages m.
Proof.
  intros m'. split; [| split].
  - eexists. split; [reflexivity |].
    intros msg. rewrite In_flat_map_peers.
    split; intros (k & p & Hp & H); exists k, p; (split; [exact Hp |]).
    + unfold connected. rewrite Hp. unfold heartbeat_for in H.
      destruct (is_connected p && negb (is_timeout now p)); [| destruct H].
      split; [reflexivity |]. destruct H as [<- | []]. reflexivity.
    + destruct H as [Hc ->]. unfold connected in Hc. rewrite Hp in Hc.
      unfold heartbeat_for. rewrite Hc. left. reflexivity.
  - intros k. unfold connected, m'. rewrite lookup_heartbeat_sweep.
    destruct (peers m !! k) as [p |]; [| reflexivity].
    cbn [fmap option_fmap option_map]. unfold sweep_peer.
    destruct (is_connected p) eqn:Hc; cbn [andb]; [| rewrite Hc; reflexivity].
    destruct (is_timeout now p) eqn:Ht.
    + cbn [set_connected is_connected andb]. reflexivity.
    + rewrite Hc, Ht. reflexivity.
  - reflexivity.
Qed.



End NetworkExtras.

(** ** The C-Sharp-Package streamer: discovery port and recording *)

Module RecorderFacts.
Import Str CommandChannel Recorder.

(** X21: [tryBindDiscoveryPort] returns the lowest of the ten ports from
    45000 to 45009 that can be bound, and -1 exactly when none of them
    can. *)
Theorem tryBindDiscoveryPort_first_free (bind_ok : Z -> bool) :
  let port := fst (tryBindDiscoveryPort bind_ok) in
  (port = -1 <->
   forall q, DISCOVERY_BASE_PORT <= q < DISCOVERY_BASE_PORT + 10 -> bind_ok q = false) /\
  (port <> -1 ->
   DISCOVERY_BASE_PORT <= port < DISCOVERY_BASE_PORT + 10 /\
   bind_ok port = true /\
   forall q, DISCOVERY_BASE_PORT <= q < port -> bind_ok q = false).
Proof.
  unfold tryBindDiscoveryPort, DISCOVERY_BASE_PORT. simpl.
  repeat match goal with
         | |- context [if bind_ok ?p then _ else _] =>
             let H := fresh "H" in destruct (bind_ok p) eqn:H; simpl
         end;
    (split;
     [ split;
       [ intros Hp; try discriminate Hp; intros q Hq;
         assert (q = 45000 \/ q = 45001 \/ q = 45002 \/ q = 45003 \/ q = 45004 \/
                 q = 45005 \/ q = 45006 \/ q = 45007 \/ q = 45008 \/ q = 45009)
           as Hcase by lia;
         intuition (subst; assumption)
       | intros Hall; try reflexivity; exfalso;
         match goal with
         | Hb : bind_ok ?p = true |- _ => rewrite Hall in Hb by lia; discriminate Hb
         end ]
     | intros Hne;
       first
         [ exfalso; apply Hne; reflexivity
         | split; [lia | split; [assumption |]];
           intros q Hq;
           assert (q = 45000 \/ q = 45001 \/ q = 45002 \/ q = 45003 \/ q = 45004 \/
                   q = 45005 \/ q = 45006 \/ q = 45007 \/ q = 45008 \/ q = 45009)
             as Hcase by lia;
           intuition (subst; first [assumption | lia]) ] ]).
Qed.

(** *** A recording session *)

























End RecorderFacts.
